(** * Trial execution engine: a shallow embedding of the Python sources

    The model follows the repository file by file:
    - [enums]          : core/enums.py (and the phase table of
                         gui/panels/progress_panel.py),
    - [trial_protocol] : core/trial_protocol.py,
    - [event_logger]   : data/event_logger.py,
    - [camera_webcam]  : hardware/camera_webcam.py,
    - [audio_manager]  : the audio cue player, whose source is absent.
    The properties are grouped by subject: [construction], [abort],
    [event_order], [cycles], [training], [post], [phases], [idempotence],
    with the concrete trials in [scenario]; [hoare] holds the rules used to
    reason about blocks of [run].

    Python [int] is [Z], Python [float] durations are exact rationals [Q]
    (no statement below depends on rounding), [str] is [string]. *)

From Stdlib Require Import ZArith QArith Qround List String Bool Lia Arith.
From Stdlib Require Import DecimalString.
Import ListNotations.
Local Open Scope string_scope.
Local Open Scope list_scope.
Local Open Scope Z_scope.

(** ** Python helpers *)

(** [str(n)] for an [int]. *)
Definition str_of_int (n : Z) : string := NilZero.string_of_int (Z.to_int n).

(** [range(n)] and [range(a, b)]. *)
Definition range (n : Z) : list Z := map Z.of_nat (seq 0 (Z.to_nat n)).
Definition range_from (a b : Z) : list Z :=
  map (fun k => a + Z.of_nat k) (seq 0 (Z.to_nat (b - a))).

(** [a > b], [a <= b] and [max(a, b)] on floats. *)
Definition fgt (a b : Q) : bool := negb (Qle_bool a b).
Definition fle (a b : Q) : bool := Qle_bool a b.
Definition py_max (a b : Q) : Q := if fgt b a then b else a.

(** ** core/enums.py *)
Module enums.

(** A member of an [Enum] class whose values come from [auto()]. *)
Record EnumMember := mkMember { member_name : string; member_value : Z }.

(** An [Enum] class is its table of members, in declaration order. *)
Definition EnumClass := list EnumMember.

Fixpoint auto_from (v : Z) (names : list string) : EnumClass :=
  match names with
  | [] => []
  | n :: rest => mkMember n v :: auto_from (v + 1) rest
  end.

(** [class C(Enum): A = auto(); B = auto(); ...] *)
Definition enum_auto (names : list string) : EnumClass := auto_from 1 names.

(** [C.NAME]: the member, or [None] where Python raises AttributeError. *)
Definition getattr (cls : EnumClass) (name : string) : option EnumMember :=
  find (fun m => String.eqb (member_name m) name) cls.

Definition member_names (cls : EnumClass) : list string := map member_name cls.

Definition defines (cls : EnumClass) (name : string) : bool :=
  existsb (String.eqb name) (member_names cls).

(** [class TrialPhase(Enum)], core/enums.py lines 18-29. *)
Definition TrialPhase : EnumClass :=
  enum_auto [ "TRAINING_SHAPE"; "TRAINING_BLANK"; "INSTRUCTION_CLOSE_EYES";
              "INSTRUCTION_WAIT"; "INSTRUCTION_STARTING"; "INSTRUCTION_READY";
              "MEASUREMENT_BEEP"; "MEASUREMENT_SILENCE"; "INSTRUCTION_POST";
              "INTER_TRIAL" ].

(** The members that [ProgressPanel.set_phase] keys its label table with
    (gui/panels/progress_panel.py lines 54-68): the class the rest of the
    repository is written against. *)
Definition TrialPhase_of_progress_panel : EnumClass :=
  enum_auto [ "TRAINING_SHAPE"; "TRAINING_BLANK"; "INSTRUCTION_CLOSE_EYES";
              "INSTRUCTION_WAIT"; "INSTRUCTION_STARTING"; "INSTRUCTION_READY";
              "MEASUREMENT_START_BEEP"; "MEASUREMENT_RECORDING_DELAY";
              "MEASUREMENT_IMAGINING"; "MEASUREMENT_END_BEEP";
              "MEASUREMENT_INTER_DELAY"; "INSTRUCTION_POST"; "INTER_TRIAL" ].

(** [class Shape(Enum)] with explicit string values. *)
Inductive Shape := CIRCLE | SQUARE | TRIANGLE | STAR.

Definition Shape_value (s : Shape) : string :=
  match s with
  | CIRCLE => "circle" | SQUARE => "square"
  | TRIANGLE => "triangle" | STAR => "star"
  end.

End enums.

(** ** core/trial_protocol.py *)
Module trial_protocol.
Import enums.

(** Modelled from the spec: config/settings.py is absent; the records hold
    the fields that [TrialProtocol] reads, with the spec's meaning
    (durations in seconds, counts as integers). *)
Record TimingSettings := mkTiming {
  training_shape_duration : Q;
  training_blank_duration : Q;
  training_repetitions : Z;
  training_to_measurement_delay : Q;
  recording_delay : Q;
  imagination_duration : Q;
  inter_imagination_delay : Q;
  imagination_cycles : Z
}.

Record AudioSettings := mkAudio {
  start_imagine_duration : Q;
  end_imagine_duration : Q
}.

(** Modelled from the spec: stimulus/stimulus_window.py is absent; of the
    window the constructor uses [duration_to_frames] and [run] reads
    [frame_duration]. Both are taken as given. *)
Record StimulusWindow := mkWindow {
  duration_to_frames : Q -> Z;
  frame_duration : Q
}.

(** Records emitted on the module's [logging] logger by [__init__]. *)
Inductive LogRecord :=
| WarnRecordingFrames (computed : Z) (imagination start_beep rec_delay : Q)
| InfoFrameCounts (shape blank start_beep end_beep rec_delay imagination
                   recording inter_delay : Z).

(** The attributes [__init__] stores on [self] (the abort flag and the
    collaborators live in the run-time state below). *)
Record TrialProtocol := mkProtocol {
  _timing : TimingSettings;
  _audio_settings : AudioSettings;
  _win : StimulusWindow;
  _n_shape : Z;
  _n_blank : Z;
  _n_start_beep : Z;
  _n_end_beep : Z;
  _n_recording_delay : Z;
  _n_imagination : Z;
  _n_inter_delay : Z;
  _n_recording_frames : Z;
  _n_close_eyes_wait : Z;
  _n_starting_wait : Z;
  _n_train_to_meas_delay : Z
}.

(** [TrialProtocol.__init__], lines 54-114: the object and the records it
    logs, in order. *)
Definition __init__ (timing : TimingSettings) (audio_settings : AudioSettings)
    (stim_window : StimulusWindow) : TrialProtocol * list LogRecord :=
  let n_shape := duration_to_frames stim_window (training_shape_duration timing) in
  let n_blank := duration_to_frames stim_window (training_blank_duration timing) in
  let n_start_beep :=
    duration_to_frames stim_window (start_imagine_duration audio_settings) in
  let n_end_beep :=
    duration_to_frames stim_window (end_imagine_duration audio_settings) in
  let n_recording_delay := duration_to_frames stim_window (recording_delay timing) in
  let n_imagination := duration_to_frames stim_window (imagination_duration timing) in
  let n_inter_delay :=
    duration_to_frames stim_window (inter_imagination_delay timing) in
  let computed := n_imagination - n_start_beep - n_recording_delay in
  let '(n_recording_frames, warned) :=
    if computed <? 1
    then (1, [WarnRecordingFrames computed (imagination_duration timing)
                (start_imagine_duration audio_settings) (recording_delay timing)])
    else (computed, []) in
  let n_close_eyes_wait := duration_to_frames stim_window 5 in
  let n_starting_wait := duration_to_frames stim_window 2 in
  let delay := training_to_measurement_delay timing in
  let n_train_to_meas_delay :=
    if fgt delay 0 then duration_to_frames stim_window delay else 0 in
  (mkProtocol timing audio_settings stim_window n_shape n_blank n_start_beep
     n_end_beep n_recording_delay n_imagination n_inter_delay
     n_recording_frames n_close_eyes_wait n_starting_wait n_train_to_meas_delay,
   warned ++ [InfoFrameCounts n_shape n_blank n_start_beep n_end_beep
                n_recording_delay n_imagination n_recording_frames
                n_inter_delay]).


(** *** What a trial does to its collaborators

    [run] drives the window, the audio manager, the camera, the event
    logger and the caller's callbacks. Their implementations are not what
    the engine is about: a run is described by the calls it makes on them,
    in order. *)

(** One call of [EventLogger.log(event_type, subject, shape, rep, detail)]. *)
Inductive LogCall :=
| Row (event_type subject shape rep detail : string).

Definition row_event_type (r : LogCall) : string :=
  match r with Row e _ _ _ _ => e end.

Definition row_detail (r : LogCall) : string :=
  match r with Row _ _ _ _ d => d end.

(** What [call_on_flip] is given in this file. *)
Inductive Callback :=
| CbAudioPlay (name : string)
| CbAudioStop (name : string)
| CbLog (row : LogCall).

Inductive Event :=
| EvAbortCheck (line : nat) (flag : bool)     (* [if self._abort:] at a line *)
| EvDrawShape (name : string)                 (* win.draw_shape *)
| EvFlip (fired : list Callback)              (* win.flip and what it ran *)
| EvAudioStop (name : string)                 (* audio.stop, called directly *)
| EvPlayInstruction (name : string)           (* audio.play_instruction *)
| EvStartRecording (path : string) (fps : Q)  (* camera.start_recording *)
| EvStopRecording (frames : Z)                (* camera.stop_recording *)
| EvLog (row : LogCall)                       (* events.log, called directly *)
| EvPhaseChange (phase : EnumMember) (remaining : Q)  (* on_phase_change *)
| EvStimulusUpdate (state : string)           (* on_stimulus_update *)
| EvBeepProgress (current total : Z)          (* on_beep_progress *)
| EvSleep (duration : Q).                     (* precise_sleep *)

(** What the surroundings decide during a run. *)
Record Env := mkEnv {
  (* whether another thread has called [request_abort] between the previous
     read of [self._abort] (or the entry of [run]) and the [k]-th read *)
  abort_requested : nat -> bool;
  (* what the [k]-th [stop_recording] of the camera returns *)
  frames_captured : nat -> Z;
  (* [audio.get_instruction_duration] *)
  instruction_duration : string -> Q;
  (* [camera._settings.target_frame_rate], when the camera has settings *)
  camera_target_frame_rate : option Q
}.

Record State := mkState {
  _abort : bool;                   (* self._abort *)
  on_flip_queue : list Callback;   (* callbacks waiting for the next flip *)
  trace : list Event;              (* the calls made so far *)
  n_checks : nat;                  (* reads of self._abort so far *)
  n_stops : nat;                   (* stop_recording calls so far *)
  beep_counter : Z;                (* local of run *)
  total_frames_recorded : Z        (* local of run *)
}.

Inductive Exn :=
| AttributeError (name : string).

(** How a block of [run] ends: it falls through, it executes [return b],
    or it raises. *)
Inductive Outcome (A : Type) :=
| Normal (a : A)
| Return (b : bool)
| Raise (e : Exn).
Arguments Normal {A} a.
Arguments Return {A} b.
Arguments Raise {A} e.

Definition M (A : Type) := State -> Outcome A * State.

Definition ret {A} (a : A) : M A := fun st => (Normal a, st).
Definition return_ {A} (b : bool) : M A := fun st => (Return b, st).
Definition raise {A} (e : Exn) : M A := fun st => (Raise e, st).

Definition bind {A B} (m : M A) (k : A -> M B) : M B :=
  fun st =>
    match m st with
    | (Normal a, st') => k a st'
    | (Return b, st') => (Return b, st')
    | (Raise e, st') => (Raise e, st')
    end.

Notation "x <- m ;; k" := (bind m (fun x => k))
  (at level 61, m at next level, right associativity).
Notation "m ;; k" := (bind m (fun _ => k))
  (at level 61, right associativity).

(** [for x in xs: body] *)
Fixpoint for_each {I} (xs : list I) (body : I -> M unit) : M unit :=
  match xs with
  | [] => ret tt
  | x :: rest => body x ;; for_each rest body
  end.

(** [for x in xs: body], the body updating one local variable. *)
Fixpoint for_acc {I B} (xs : list I) (acc : B) (body : I -> B -> M B) : M B :=
  match xs with
  | [] => ret acc
  | x :: rest => acc' <- body x acc ;; for_acc rest acc' body
  end.

Definition when_ (c : bool) (m : M unit) : M unit := if c then m else ret tt.

(** **** Primitive steps *)

Definition emit (e : Event) : M unit :=
  fun st => (Normal tt,
             mkState (_abort st) (on_flip_queue st) (trace st ++ [e])
               (n_checks st) (n_stops st) (beep_counter st)
               (total_frames_recorded st)).

(** [self._abort = b] *)
Definition set_abort (b : bool) (st : State) : State :=
  mkState b (on_flip_queue st) (trace st) (n_checks st) (n_stops st)
    (beep_counter st) (total_frames_recorded st).

(** [TrialProtocol.request_abort], lines 116-117. *)
Definition request_abort (st : State) : State := set_abort true st.

(** The state after a read of [self._abort] at [line] that saw [flag]. *)
Definition checked (line : nat) (flag : bool) (st : State) : State :=
  mkState flag (on_flip_queue st) (trace st ++ [EvAbortCheck line flag])
    (S (n_checks st)) (n_stops st) (beep_counter st)
    (total_frames_recorded st).

(** Reading [self._abort]: a [request_abort] made by another thread since
    the last read has taken effect by now. *)
Definition read_abort (env : Env) (line : nat) : M bool :=
  fun st =>
    let st1 := if abort_requested env (n_checks st) then request_abort st else st in
    (Normal (_abort st1), checked line (_abort st1) st1).

(** [if self._abort: cleanup; return False] *)
Definition check_abort (env : Env) (line : nat) (cleanup : M unit) : M unit :=
  flag <- read_abort env line ;;
  if flag then cleanup ;; return_ false else ret tt.

(** Modelled from the spec: stimulus/stimulus_window.py is absent.
    [call_on_flip] queues a callback for the next buffer swap; [flip] runs
    the queued callbacks in registration order, swaps, and leaves the
    queue empty. *)
Definition call_on_flip (cb : Callback) : M unit :=
  fun st => (Normal tt,
             mkState (_abort st) (on_flip_queue st ++ [cb]) (trace st)
               (n_checks st) (n_stops st) (beep_counter st)
               (total_frames_recorded st)).

Definition flipped (st : State) : State :=
  mkState (_abort st) [] (trace st ++ [EvFlip (on_flip_queue st)])
    (n_checks st) (n_stops st) (beep_counter st) (total_frames_recorded st).

Definition flip : M unit := fun st => (Normal tt, flipped st).

Definition draw_shape (name : string) : M unit := emit (EvDrawShape name).
Definition audio_stop (name : string) : M unit := emit (EvAudioStop name).
Definition play_instruction (name : string) : M unit :=
  emit (EvPlayInstruction name).
Definition get_instruction_duration (env : Env) (name : string) : M Q :=
  ret (instruction_duration env name).
Definition events_log (r : LogCall) : M unit := emit (EvLog r).

(** [utils.timing.precise_sleep]: nothing for a non-positive duration,
    otherwise a wall-clock wait of that duration. *)
Definition precise_sleep (d : Q) : M unit :=
  if fle d 0 then ret tt else emit (EvSleep d).

Definition start_recording (path : string) (fps : Q) : M unit :=
  emit (EvStartRecording path fps).

Definition stop_recording (env : Env) : M Z :=
  fun st =>
    let frames := frames_captured env (n_stops st) in
    (Normal frames,
     mkState (_abort st) (on_flip_queue st)
       (trace st ++ [EvStopRecording frames]) (n_checks st) (S (n_stops st))
       (beep_counter st) (total_frames_recorded st)).

(** [beep_counter = 0] and [total_frames_recorded = 0]. *)
Definition set_beep_counter (v : Z) : M unit :=
  fun st => (Normal tt,
             mkState (_abort st) (on_flip_queue st) (trace st) (n_checks st)
               (n_stops st) v (total_frames_recorded st)).

Definition set_total_frames (v : Z) : M unit :=
  fun st => (Normal tt,
             mkState (_abort st) (on_flip_queue st) (trace st) (n_checks st)
               (n_stops st) (beep_counter st) v).

Definition get_beep_counter : M Z := fun st => (Normal (beep_counter st), st).
Definition get_total_frames : M Z :=
  fun st => (Normal (total_frames_recorded st), st).

(** [cls.name], raising AttributeError when the class has no such member. *)
Definition attr (cls : EnumClass) (name : string) : M EnumMember :=
  match getattr cls name with
  | Some m => ret m
  | None => raise (AttributeError name)
  end.

(** [for _ in range(n): if self._abort: cleanup; return False
                        self._win.flip()] *)
Definition wait_frames (env : Env) (line : nat) (n : Z) (cleanup : M unit)
  : M unit :=
  for_each (range n) (fun _ => check_abort env line cleanup ;; flip).

(** **** The arguments of [run] *)

Inductive ShapeArg :=
| ShapeMember (s : Shape)     (* a Shape enum member *)
| ShapeName (s : string).     (* a plain string *)

Record RunArgs := mkArgs {
  shape : ShapeArg;
  subject : string;
  rep : Z;
  video_path_factory : Z -> string;
  is_last_shape : bool;
  is_last_queue_item : bool;
  (* whether the caller passed the optional callback *)
  on_phase_change : bool;
  on_stimulus_update : bool;
  on_beep_progress : bool
}.


(** *** [TrialProtocol.run], lines 119-431

    [TrialPhase] is whatever class [core.enums] exports under that name:
    Python looks the members up when the line runs. *)
Section Run.
Variable TrialPhase : EnumClass.
Variable self : TrialProtocol.
Variable env : Env.
Variable a : RunArgs.

(** line 150 *)
Definition shape_name : string :=
  match shape a with
  | ShapeMember s => Shape_value s
  | ShapeName s => s
  end.

(** line 153 *)
Definition total_beeps : Z :=
  training_repetitions (_timing self) * 2
  + imagination_cycles (_timing self) * 2.

(** lines 156-168: the three local helpers. *)
Definition _phase (phase : EnumMember) (remaining : Q) : M unit :=
  when_ (on_phase_change a) (emit (EvPhaseChange phase remaining)).

Definition _stim (state : string) : M unit :=
  when_ (on_stimulus_update a) (emit (EvStimulusUpdate state)).

Definition _beep : M unit :=
  c <- get_beep_counter ;;
  set_beep_counter (c + 1) ;;
  when_ (on_beep_progress a) (emit (EvBeepProgress (c + 1) total_beeps)).

Definition log_row (event_type detail : string) : LogCall :=
  Row event_type (subject a) shape_name (str_of_int (rep a)) detail.

(** lines 199-213: the shape stays visible; the start beep is stopped at
    the right frame, or after the loop. *)
Definition hold_shape : M unit :=
  beep_stopped <-
    for_acc (range_from 1 (_n_shape self)) false (fun f beep_stopped =>
      check_abort env 201
        (when_ (negb beep_stopped) (audio_stop "start_imagine")) ;;
      beep_stopped' <-
        (if f =? _n_start_beep self
         then call_on_flip (CbAudioStop "start_imagine") ;; ret true
         else ret beep_stopped) ;;
      draw_shape shape_name ;;
      flip ;;
      ret beep_stopped') ;;
  when_ (negb beep_stopped) (audio_stop "start_imagine").

(** lines 176-248: the body of [for i in range(t.training_repetitions)]. *)
Definition training_repetition (i : Z) : M unit :=
  check_abort env 176 (ret tt) ;;
  p <- attr TrialPhase "TRAINING_SHAPE" ;;
  _phase p (training_shape_duration (_timing self)) ;;
  _stim ("shape:" ++ shape_name) ;;
  draw_shape shape_name ;;
  call_on_flip (CbAudioPlay "start_imagine") ;;
  call_on_flip
    (CbLog (log_row "TRAINING_START_BEEP" ("flash_" ++ str_of_int (i + 1)))) ;;
  call_on_flip
    (CbLog (log_row "TRAINING_SHAPE_ON" ("flash_" ++ str_of_int (i + 1)))) ;;
  flip ;;
  _beep ;;
  hold_shape ;;
  p <- attr TrialPhase "TRAINING_BLANK" ;;
  _phase p (end_imagine_duration (_audio_settings self)) ;;
  call_on_flip (CbAudioPlay "end_imagine") ;;
  call_on_flip
    (CbLog (log_row "TRAINING_END_BEEP" ("flash_" ++ str_of_int (i + 1)))) ;;
  call_on_flip
    (CbLog (log_row "TRAINING_SHAPE_OFF" ("flash_" ++ str_of_int (i + 1)))) ;;
  flip ;;
  _beep ;;
  _stim "blank" ;;
  wait_frames env 234 (_n_end_beep self - 1) (audio_stop "end_imagine") ;;
  call_on_flip (CbAudioStop "end_imagine") ;;
  flip ;;
  p <- attr TrialPhase "TRAINING_BLANK" ;;
  _phase p (training_blank_duration (_timing self)) ;;
  wait_frames env 246 (_n_blank self - 1) (ret tt).

(** lines 250-259 *)
Definition training_to_measurement : M unit :=
  if 0 <? _n_train_to_meas_delay self then
    check_abort env 252 (ret tt) ;;
    p <- attr TrialPhase "INTER_TRIAL" ;;
    _phase p (training_to_measurement_delay (_timing self)) ;;
    _stim "blank" ;;
    wait_frames env 257 (_n_train_to_meas_delay self) (ret tt)
  else ret tt.

(** lines 261-288 *)
Definition instruction_sequence : M unit :=
  check_abort env 262 (ret tt) ;;
  p <- attr TrialPhase "INSTRUCTION_CLOSE_EYES" ;;
  _phase p 5 ;;
  _stim "instruction:close_eyes" ;;
  play_instruction "close_your_eyes" ;;
  events_log (log_row "INSTRUCTION_CLOSE_EYES" "") ;;
  p <- attr TrialPhase "INSTRUCTION_WAIT" ;;
  _phase p 5 ;;
  wait_frames env 273 (_n_close_eyes_wait self) (ret tt) ;;
  p <- attr TrialPhase "INSTRUCTION_STARTING" ;;
  _phase p 2 ;;
  _stim "instruction:starting" ;;
  play_instruction "starting" ;;
  events_log (log_row "INSTRUCTION_STARTING" "") ;;
  p <- attr TrialPhase "INSTRUCTION_READY" ;;
  _phase p 2 ;;
  wait_frames env 285 (_n_starting_wait self) (ret tt).

(** lines 296-300 *)
Definition fps : Q :=
  match camera_target_frame_rate env with
  | Some r => r
  | None => 500
  end.

(** lines 305-404: the body of [for i in range(t.imagination_cycles)]. *)
Definition measurement_cycle (i : Z) : M unit :=
  check_abort env 305 (ret tt) ;;
  let cycle_num := i + 1 in
  let cycle_video_path := video_path_factory a cycle_num in
  p <- attr TrialPhase "MEASUREMENT_START_BEEP" ;;
  _phase p (start_imagine_duration (_audio_settings self)) ;;
  call_on_flip (CbAudioPlay "start_imagine") ;;
  call_on_flip
    (CbLog (log_row "IMAGINATION_START_BEEP" ("cycle_" ++ str_of_int cycle_num))) ;;
  flip ;;
  _beep ;;
  wait_frames env 326 (_n_start_beep self - 1) (audio_stop "start_imagine") ;;
  call_on_flip (CbAudioStop "start_imagine") ;;
  flip ;;
  p <- attr TrialPhase "MEASUREMENT_RECORDING_DELAY" ;;
  _phase p (recording_delay (_timing self)) ;;
  wait_frames env 341 (_n_recording_delay self - 1) (ret tt) ;;
  start_recording cycle_video_path fps ;;
  events_log
    (log_row "RECORDING_START"
       ("cycle_" ++ str_of_int cycle_num ++ " path=" ++ cycle_video_path)) ;;
  p <- attr TrialPhase "MEASUREMENT_IMAGINING" ;;
  _phase p (inject_Z (_n_recording_frames self) * frame_duration (_win self)) ;;
  wait_frames env 358 (_n_recording_frames self)
    (_ <- stop_recording env ;; ret tt) ;;
  frames <- stop_recording env ;;
  total <- get_total_frames ;;
  set_total_frames (total + frames) ;;
  events_log
    (log_row "RECORDING_STOP"
       ("cycle_" ++ str_of_int cycle_num ++ " frames=" ++ str_of_int frames)) ;;
  p <- attr TrialPhase "MEASUREMENT_END_BEEP" ;;
  _phase p (end_imagine_duration (_audio_settings self)) ;;
  call_on_flip (CbAudioPlay "end_imagine") ;;
  call_on_flip
    (CbLog (log_row "IMAGINATION_END_BEEP" ("cycle_" ++ str_of_int cycle_num))) ;;
  flip ;;
  _beep ;;
  wait_frames env 386 (_n_end_beep self - 1) (audio_stop "end_imagine") ;;
  call_on_flip (CbAudioStop "end_imagine") ;;
  flip ;;
  if i <? imagination_cycles (_timing self) - 1 then
    p <- attr TrialPhase "MEASUREMENT_INTER_DELAY" ;;
    _phase p (inter_imagination_delay (_timing self)) ;;
    wait_frames env 402 (_n_inter_delay self) (ret tt)
  else ret tt.

(** lines 290-404 *)
Definition measurement_phase : M unit :=
  check_abort env 291 (ret tt) ;;
  _stim "recording" ;;
  set_total_frames 0 ;;
  for_each (range (imagination_cycles (_timing self))) measurement_cycle.

(** lines 406-431 *)
Definition post_measurement : M unit :=
  p <- attr TrialPhase "INSTRUCTION_POST" ;;
  _phase p 5 ;;
  (if negb (is_last_shape a) then
     _stim "instruction:open_your_eyes" ;;
     play_instruction "open_your_eyes" ;;
     events_log (log_row "INSTRUCTION_OPEN_EYES" "") ;;
     precise_sleep 5
   else if is_last_queue_item a then
     _stim "instruction:experiment_completed" ;;
     play_instruction "experiment_completed" ;;
     events_log (log_row "INSTRUCTION_COMPLETED" "") ;;
     mp3_dur <- get_instruction_duration env "experiment_completed" ;;
     precise_sleep (py_max 5 (mp3_dur + 1))
   else
     _stim "instruction:next_participant" ;;
     play_instruction "next_participant_please" ;;
     events_log (log_row "INSTRUCTION_NEXT_PARTICIPANT" "") ;;
     precise_sleep 5) ;;
  _stim "idle" ;;
  total <- get_total_frames ;;
  events_log
    (log_row "TRIAL_END"
       ("total_frames=" ++ str_of_int total ++ " cycles="
        ++ str_of_int (imagination_cycles (_timing self)))) ;;
  return_ true.

(** The whole method. *)
Definition run : M unit :=
  (fun st => (Normal tt, set_abort false st)) ;;
  set_beep_counter 0 ;;
  events_log (log_row "TRIAL_START" "") ;;
  for_each (range (training_repetitions (_timing self))) training_repetition ;;
  training_to_measurement ;;
  instruction_sequence ;;
  measurement_phase ;;
  post_measurement.

End Run.

End trial_protocol.

(** * Reasoning about blocks of [run] *)
Module hoare.
Import enums trial_protocol.

(** [wp m Qn Qr Qe st]: started in [st], the block [m] ends in a state
    that satisfies the postcondition of the way it ends: [Qn] when it falls
    through, [Qr] when it returns, [Qe] when it raises. The model is a
    total function, so every block does end in one of the three ways. *)
Definition wp {A} (m : M A) (Qn : A -> State -> Prop)
    (Qr : bool -> State -> Prop) (Qe : Exn -> State -> Prop) (st : State)
  : Prop :=
  match m st with
  | (Normal x, st') => Qn x st'
  | (Return b, st') => Qr b st'
  | (Raise e, st') => Qe e st'
  end.

(** The states the primitive steps lead to. *)
Definition emitted (e : Event) (st : State) : State :=
  mkState (_abort st) (on_flip_queue st) (trace st ++ [e]) (n_checks st)
    (n_stops st) (beep_counter st) (total_frames_recorded st).

Definition queued (cb : Callback) (st : State) : State :=
  mkState (_abort st) (on_flip_queue st ++ [cb]) (trace st) (n_checks st)
    (n_stops st) (beep_counter st) (total_frames_recorded st).

Definition stopped (env : Env) (st : State) : State :=
  mkState (_abort st) (on_flip_queue st)
    (trace st ++ [EvStopRecording (frames_captured env (n_stops st))])
    (n_checks st) (S (n_stops st)) (beep_counter st)
    (total_frames_recorded st).

Definition with_beep_counter (v : Z) (st : State) : State :=
  mkState (_abort st) (on_flip_queue st) (trace st) (n_checks st)
    (n_stops st) v (total_frames_recorded st).

Definition with_total_frames (v : Z) (st : State) : State :=
  mkState (_abort st) (on_flip_queue st) (trace st) (n_checks st)
    (n_stops st) (beep_counter st) v.

Definition emitted_if (c : bool) (e : Event) (st : State) : State :=
  if c then emitted e st else st.

Definition beeped (a : RunArgs) (total : Z) (st : State) : State :=
  emitted_if (on_beep_progress a)
    (EvBeepProgress (beep_counter st + 1) total)
    (with_beep_counter (beep_counter st + 1) st).


(** ** Rules *)
Section Rules.
Context {A : Type}.
Implicit Types (Qn : A -> State -> Prop) (Qr : bool -> State -> Prop)
          (Qe : Exn -> State -> Prop).

Lemma wp_ret Qn Qr Qe (x : A) st : Qn x st -> wp (ret x) Qn Qr Qe st.
Proof. exact (fun H => H). Qed.

Lemma wp_return Qn Qr Qe (b : bool) st : Qr b st -> wp (@return_ A b) Qn Qr Qe st.
Proof. exact (fun H => H). Qed.

Lemma wp_bind Qn Qr Qe {B} (m : M B) (k : B -> M A) st :
  wp m (fun x => wp (k x) Qn Qr Qe) Qr Qe st -> wp (bind m k) Qn Qr Qe st.
Proof. unfold wp, bind. destruct (m st) as [[x|b|e] st']; exact (fun H => H). Qed.

Lemma wp_mono Qn Qr Qe (Qn' : A -> State -> Prop) (m : M A) st :
  (forall x s, Qn' x s -> Qn x s) -> wp m Qn' Qr Qe st -> wp m Qn Qr Qe st.
Proof. unfold wp. intros H. destruct (m st) as [[x|b|e] st']; auto. Qed.
End Rules.

Section UnitRules.
Implicit Types (Qn : unit -> State -> Prop) (Qr : bool -> State -> Prop)
          (Qe : Exn -> State -> Prop).
Variable env : Env.

Lemma wp_emit Qn Qr Qe e st : Qn tt (emitted e st) -> wp (emit e) Qn Qr Qe st.
Proof. exact (fun H => H). Qed.

Lemma wp_when Qn Qr Qe (c : bool) (m : M unit) st :
  (if c then wp m Qn Qr Qe st else Qn tt st) -> wp (when_ c m) Qn Qr Qe st.
Proof. destruct c; intros H; exact H. Qed.

Lemma wp_call_on_flip Qn Qr Qe cb st : Qn tt (queued cb st) -> wp (call_on_flip cb) Qn Qr Qe st.
Proof. exact (fun H => H). Qed.

Lemma wp_flip Qn Qr Qe st : Qn tt (flipped st) -> wp flip Qn Qr Qe st.
Proof. exact (fun H => H). Qed.

Lemma read_abort_eq line st :
  read_abort env line st =
  (Normal (_abort st || abort_requested env (n_checks st))%bool,
   checked line (_abort st || abort_requested env (n_checks st))%bool st).
Proof.
  unfold read_abort. destruct (abort_requested env (n_checks st)), (_abort st); reflexivity.
Qed.

Lemma wp_check_abort Qn Qr Qe line cleanup st :
  (if (_abort st || abort_requested env (n_checks st))%bool
   then wp cleanup (fun _ s => Qr false s) Qr Qe (checked line true st)
   else Qn tt (checked line false st)) ->
  wp (check_abort env line cleanup) Qn Qr Qe st.
Proof.
  unfold check_abort. intros H. apply wp_bind. unfold wp at 1.
  rewrite read_abort_eq.
  destruct (_abort st || abort_requested env (n_checks st))%bool.
  - apply wp_bind. revert H. apply wp_mono. intros [] s Hs. exact Hs.
  - exact H.
Qed.

Lemma wp_for_each_seq Qn Qr Qe (I : nat -> State -> Prop) (body : Z -> M unit) len :
  forall start st,
  I start st ->
  (forall k s, (start <= k < start + len)%nat -> I k s ->
     wp (body (Z.of_nat k)) (fun _ => I (S k)) Qr Qe s) ->
  (forall s, I (start + len)%nat s -> Qn tt s) ->
  wp (for_each (map Z.of_nat (seq start len)) body) Qn Qr Qe st.
Proof.
  induction len as [|len IH]; intros start st H0 Hstep Hend; simpl.
  - apply wp_ret. apply Hend. rewrite Nat.add_0_r. exact H0.
  - apply wp_bind. eapply wp_mono; [| apply (Hstep start st); [lia | exact H0]].
    intros [] s Hs. apply IH.
    + exact Hs.
    + intros k s' Hk. apply Hstep. lia.
    + intros s' Hs'. apply Hend. replace (start + S len)%nat with (S start + len)%nat by lia.
      exact Hs'.
Qed.

Lemma wp_for_range Qn Qr Qe (I : nat -> State -> Prop) (body : Z -> M unit) n st :
  I 0%nat st ->
  (forall k s, (k < Z.to_nat n)%nat -> I k s ->
     wp (body (Z.of_nat k)) (fun _ => I (S k)) Qr Qe s) ->
  (forall s, I (Z.to_nat n) s -> Qn tt s) ->
  wp (for_each (range n) body) Qn Qr Qe st.
Proof.
  intros H0 Hstep Hend. unfold range. apply wp_for_each_seq with (I := I).
  - exact H0.
  - intros k s Hk. apply Hstep. lia.
  - exact Hend.
Qed.

Lemma wp_wait_frames Qn Qr Qe (I : nat -> State -> Prop) line n cleanup st :
  I 0%nat st ->
  (forall k s, (k < Z.to_nat n)%nat -> I k s ->
     wp (check_abort env line cleanup) (fun _ s' => I (S k) (flipped s')) Qr Qe s) ->
  (forall s, I (Z.to_nat n) s -> Qn tt s) ->
  wp (wait_frames env line n cleanup) Qn Qr Qe st.
Proof.
  intros H0 Hstep Hend. unfold wait_frames. apply wp_for_range with (I := I); auto.
  intros k s Hk Hs. apply wp_bind. eapply wp_mono; [| apply (Hstep k s Hk Hs)].
  intros [] s' Hs'. apply wp_flip. exact Hs'.
Qed.
End UnitRules.

Section MoreRules.
Implicit Types (Qr : bool -> State -> Prop) (Qe : Exn -> State -> Prop).
Variables (cls : EnumClass) (self : TrialProtocol) (env : Env) (a : RunArgs).

Lemma wp_attr (Qn : EnumMember -> State -> Prop) Qr Qe name st :
  match getattr cls name with
  | Some m => Qn m st
  | None => Qe (AttributeError name) st
  end ->
  wp (attr cls name) Qn Qr Qe st.
Proof. unfold attr. destruct (getattr cls name); intros H; exact H. Qed.

Lemma wp_phase (Qn : unit -> State -> Prop) Qr Qe p r st :
  Qn tt (emitted_if (on_phase_change a) (EvPhaseChange p r) st) ->
  wp (_phase a p r) Qn Qr Qe st.
Proof. unfold _phase, emitted_if. destruct (on_phase_change a); intros H; exact H. Qed.

Lemma wp_stim (Qn : unit -> State -> Prop) Qr Qe s st :
  Qn tt (emitted_if (on_stimulus_update a) (EvStimulusUpdate s) st) ->
  wp (_stim a s) Qn Qr Qe st.
Proof. unfold _stim, emitted_if. destruct (on_stimulus_update a); intros H; exact H. Qed.

Lemma wp_beep (Qn : unit -> State -> Prop) Qr Qe st :
  Qn tt (beeped a (total_beeps self) st) ->
  wp (_beep self a) Qn Qr Qe st.
Proof.
  unfold _beep, beeped, emitted_if. destruct (on_beep_progress a) eqn:E; intros H;
    unfold wp, bind, get_beep_counter, set_beep_counter, when_; simpl; rewrite ?E; exact H.
Qed.

Lemma wp_set_total (Qn : unit -> State -> Prop) Qr Qe v st :
  Qn tt (with_total_frames v st) -> wp (set_total_frames v) Qn Qr Qe st.
Proof. intros H; exact H. Qed.

Lemma wp_set_beep_counter (Qn : unit -> State -> Prop) Qr Qe v st :
  Qn tt (with_beep_counter v st) -> wp (set_beep_counter v) Qn Qr Qe st.
Proof. intros H; exact H. Qed.

Lemma wp_get_total (Qn : Z -> State -> Prop) Qr Qe st :
  Qn (total_frames_recorded st) st -> wp get_total_frames Qn Qr Qe st.
Proof. intros H; exact H. Qed.

Lemma wp_stop_recording (Qn : Z -> State -> Prop) Qr Qe st :
  Qn (frames_captured env (n_stops st)) (stopped env st) ->
  wp (stop_recording env) Qn Qr Qe st.
Proof. intros H; exact H. Qed.

Lemma wp_get_instruction_duration (Qn : Q -> State -> Prop) Qr Qe name st :
  Qn (instruction_duration env name) st ->
  wp (get_instruction_duration env name) Qn Qr Qe st.
Proof. intros H; exact H. Qed.

Lemma wp_precise_sleep (Qn : unit -> State -> Prop) Qr Qe d st :
  Qn tt (emitted_if (negb (fle d 0)) (EvSleep d) st) ->
  wp (precise_sleep d) Qn Qr Qe st.
Proof. unfold precise_sleep, emitted_if. destruct (fle d 0); intros H; exact H. Qed.

Lemma wp_for_acc_range_from {B} (Qn : B -> State -> Prop) Qr Qe
    (I : nat -> B -> State -> Prop) (body : Z -> B -> M B) lo hi acc0 st :
  I 0%nat acc0 st ->
  (forall k acc s, (k < Z.to_nat (hi - lo))%nat -> I k acc s ->
     wp (body (lo + Z.of_nat k) acc) (fun acc' => I (S k) acc') Qr Qe s) ->
  (forall acc s, I (Z.to_nat (hi - lo)) acc s -> Qn acc s) ->
  wp (for_acc (range_from lo hi) acc0 body) Qn Qr Qe st.
Proof.
  unfold range_from. generalize (Z.to_nat (hi - lo)) as len. intros len H0 Hstep Hend.
  assert (G : forall len start acc st,
    I start acc st ->
    (forall k acc s, (start <= k < start + len)%nat -> I k acc s ->
       wp (body (lo + Z.of_nat k) acc) (fun acc' => I (S k) acc') Qr Qe s) ->
    (forall acc s, I (start + len)%nat acc s -> Qn acc s) ->
    wp (for_acc (map (fun k => lo + Z.of_nat k) (seq start len)) acc body) Qn Qr Qe st).
  { clear. induction len as [|len IH]; intros start acc st H0 Hstep Hend; simpl.
    - apply wp_ret. apply Hend. rewrite Nat.add_0_r. exact H0.
    - apply wp_bind. eapply wp_mono; [| apply (Hstep start acc st); [lia | exact H0]].
      intros acc' s Hs. apply IH.
      + exact Hs.
      + intros k acc'' s' Hk. apply Hstep. lia.
      + intros acc'' s' Hs'. apply Hend.
        replace (start + S len)%nat with (S start + len)%nat by lia. exact Hs'. }
  apply G with (start := 0%nat); auto. intros k acc s Hk. apply Hstep. lia.
Qed.
End MoreRules.

(** ** What the primitive steps leave unchanged *)
Section Projections.
Variables (env : Env) (a : RunArgs).

Lemma abort_emitted e s : _abort (emitted e s) = _abort s.
Proof. reflexivity. Qed.
Lemma abort_queued cb s : _abort (queued cb s) = _abort s.
Proof. reflexivity. Qed.
Lemma abort_flipped s : _abort (flipped s) = _abort s.
Proof. reflexivity. Qed.
Lemma abort_stopped s : _abort (stopped env s) = _abort s.
Proof. reflexivity. Qed.
Lemma abort_with_beep_counter v s : _abort (with_beep_counter v s) = _abort s.
Proof. reflexivity. Qed.
Lemma abort_with_total_frames v s : _abort (with_total_frames v s) = _abort s.
Proof. reflexivity. Qed.
Lemma abort_emitted_if c e s : _abort (emitted_if c e s) = _abort s.
Proof. destruct c; reflexivity. Qed.
Lemma abort_beeped t s : _abort (beeped a t s) = _abort s.
Proof. unfold beeped. rewrite abort_emitted_if. reflexivity. Qed.
Lemma abort_checked line b s : _abort (checked line b s) = b.
Proof. reflexivity. Qed.

Lemma queue_emitted e s : on_flip_queue (emitted e s) = on_flip_queue s.
Proof. reflexivity. Qed.
Lemma queue_queued cb s : on_flip_queue (queued cb s) = on_flip_queue s ++ [cb].
Proof. reflexivity. Qed.
Lemma queue_flipped s : on_flip_queue (flipped s) = [].
Proof. reflexivity. Qed.
Lemma queue_stopped s : on_flip_queue (stopped env s) = on_flip_queue s.
Proof. reflexivity. Qed.
Lemma queue_with_beep_counter v s :
  on_flip_queue (with_beep_counter v s) = on_flip_queue s.
Proof. reflexivity. Qed.
Lemma queue_with_total_frames v s :
  on_flip_queue (with_total_frames v s) = on_flip_queue s.
Proof. reflexivity. Qed.
Lemma queue_emitted_if c e s : on_flip_queue (emitted_if c e s) = on_flip_queue s.
Proof. destruct c; reflexivity. Qed.
Lemma queue_beeped t s : on_flip_queue (beeped a t s) = on_flip_queue s.
Proof. unfold beeped. rewrite queue_emitted_if. reflexivity. Qed.
Lemma queue_checked line b s : on_flip_queue (checked line b s) = on_flip_queue s.
Proof. reflexivity. Qed.

Lemma trace_emitted e s : trace (emitted e s) = trace s ++ [e].
Proof. reflexivity. Qed.
Lemma trace_queued cb s : trace (queued cb s) = trace s.
Proof. reflexivity. Qed.
Lemma trace_flipped s : trace (flipped s) = trace s ++ [EvFlip (on_flip_queue s)].
Proof. reflexivity. Qed.
Lemma trace_stopped s :
  trace (stopped env s)
  = trace s ++ [EvStopRecording (frames_captured env (n_stops s))].
Proof. reflexivity. Qed.
Lemma trace_with_beep_counter v s : trace (with_beep_counter v s) = trace s.
Proof. reflexivity. Qed.
Lemma trace_with_total_frames v s : trace (with_total_frames v s) = trace s.
Proof. reflexivity. Qed.
Lemma trace_emitted_if c e s :
  trace (emitted_if c e s) = trace s ++ (if c then [e] else []).
Proof. destruct c; simpl; [reflexivity | rewrite app_nil_r; reflexivity]. Qed.
Lemma trace_beeped t s :
  trace (beeped a t s)
  = trace s ++ (if on_beep_progress a
                then [EvBeepProgress (beep_counter s + 1) t] else []).
Proof. unfold beeped. rewrite trace_emitted_if. reflexivity. Qed.
Lemma trace_checked line b s :
  trace (checked line b s) = trace s ++ [EvAbortCheck line b].
Proof. reflexivity. Qed.

Lemma total_emitted e s :
  total_frames_recorded (emitted e s) = total_frames_recorded s.
Proof. reflexivity. Qed.
Lemma total_emitted_if c e s :
  total_frames_recorded (emitted_if c e s) = total_frames_recorded s.
Proof. destruct c; reflexivity. Qed.

End Projections.

Create Rewrite HintDb state.
#[export] Hint Rewrite abort_emitted abort_queued abort_flipped abort_stopped
  abort_with_beep_counter abort_with_total_frames abort_emitted_if
  abort_beeped abort_checked
  queue_emitted queue_queued queue_flipped queue_stopped
  queue_with_beep_counter queue_with_total_frames queue_emitted_if
  queue_beeped queue_checked
  trace_emitted trace_queued trace_flipped trace_stopped
  trace_with_beep_counter trace_with_total_frames trace_emitted_if
  trace_beeped trace_checked total_emitted total_emitted_if : state.


(** ** Cleanups *)
Section Cleanups.
Variable env : Env.

(** A cleanup falls through after the calls [tail]. *)
Definition emits (c : M unit) (tail : State -> list Event) : Prop :=
  forall s, exists s', c s = (Normal tt, s') /\ trace s' = trace s ++ tail s.

Lemma emits_nothing : emits (ret tt) (fun _ => []).
Proof. intros s. exists s. rewrite app_nil_r. auto. Qed.

Lemma emits_audio_stop name : emits (audio_stop name) (fun _ => [EvAudioStop name]).
Proof. intros s. eexists. split; reflexivity. Qed.

Lemma emits_audio_stop_when c name :
  emits (when_ c (audio_stop name))
    (fun _ => if c then [EvAudioStop name] else []).
Proof.
  destruct c; [apply emits_audio_stop | apply emits_nothing].
Qed.

Lemma emits_stop_recording :
  emits (_ <- stop_recording env ;; ret tt)
    (fun s => [EvStopRecording (frames_captured env (n_stops s))]).
Proof. intros s. eexists. split; reflexivity. Qed.

Lemma wp_cleanup c tail (Qn : unit -> State -> Prop) Qr Qe s :
  emits c tail ->
  (forall s', trace s' = trace s ++ tail s -> Qn tt s') ->
  wp c Qn Qr Qe s.
Proof.
  intros Hc H. destruct (Hc s) as (s' & E & Et). unfold wp. rewrite E. auto.
Qed.

End Cleanups.

Ltac emits_solve :=
  first
    [ apply emits_nothing | apply emits_audio_stop | apply emits_audio_stop_when
    | apply emits_stop_recording ].

Ltac wp_step :=
  lazymatch goal with
  | |- wp (bind _ _) _ _ _ _ => apply wp_bind
  | |- wp (ret _) _ _ _ _ => apply wp_ret
  | |- wp (return_ _) _ _ _ _ => apply wp_return
  | |- wp (emit _) _ _ _ _ => apply wp_emit
  | |- wp (draw_shape _) _ _ _ _ => apply wp_emit
  | |- wp (audio_stop _) _ _ _ _ => apply wp_emit
  | |- wp (play_instruction _) _ _ _ _ => apply wp_emit
  | |- wp (events_log _) _ _ _ _ => apply wp_emit
  | |- wp (start_recording _ _) _ _ _ _ => apply wp_emit
  | |- wp (call_on_flip _) _ _ _ _ => apply wp_call_on_flip
  | |- wp flip _ _ _ _ => apply wp_flip
  | |- wp (_phase _ _ _) _ _ _ _ => apply wp_phase
  | |- wp (_stim _ _) _ _ _ _ => apply wp_stim
  | |- wp (_beep _ _) _ _ _ _ => apply wp_beep
  | |- wp (set_total_frames _) _ _ _ _ => apply wp_set_total
  | |- wp (set_beep_counter _) _ _ _ _ => apply wp_set_beep_counter
  | |- wp get_total_frames _ _ _ _ => apply wp_get_total
  | |- wp (stop_recording _) _ _ _ _ => apply wp_stop_recording
  | |- wp (get_instruction_duration _ _) _ _ _ _ => apply wp_get_instruction_duration
  | |- wp (precise_sleep _) _ _ _ _ => apply wp_precise_sleep
  | |- wp (when_ _ _) _ _ _ _ => apply wp_when
  | |- wp (attr _ _) _ _ _ _ =>
      apply wp_attr;
      let p := fresh "p" in
      let E := fresh "Eattr" in
      lazymatch goal with
      | |- match getattr ?c ?n with _ => _ end =>
          destruct (getattr c n) as [p|] eqn:E
      end
  | |- wp (check_abort _ _ _) _ _ _ _ =>
      apply wp_check_abort;
      let E := fresh "Eflag" in
      lazymatch goal with
      | |- if ?c then _ else _ => destruct c eqn:E
      end
  | |- if ?c then _ else _ => destruct c
  end; cbv beta.


End hoare.

(** * Construction: the derived frame counts *)
Module construction.
Import enums trial_protocol.

(** What the constructor computes before clamping (line 86-88). *)
Definition computed_recording_frames (timing : TimingSettings)
    (audio : AudioSettings) (win : StimulusWindow) : Z :=
  duration_to_frames win (imagination_duration timing)
  - duration_to_frames win (start_imagine_duration audio)
  - duration_to_frames win (recording_delay timing).

Definition is_recording_warning (r : LogRecord) : bool :=
  match r with
  | WarnRecordingFrames _ _ _ _ => true
  | InfoFrameCounts _ _ _ _ _ _ _ _ => false
  end.

(** C3: for every TimingSettings, AudioSettings and window, the constructor
    returns an object (it is a total function: no exception), whose
    [_n_recording_frames] is [n_imagination - n_start_beep - n_recording_delay]
    when that difference is positive, with no warning logged, and exactly 1
    otherwise, with one warning that carries the computed difference. *)
Theorem init_recording_frames timing audio win :
  exists p logs,
    __init__ timing audio win = (p, logs)
    /\ _n_imagination p = duration_to_frames win (imagination_duration timing)
    /\ _n_start_beep p = duration_to_frames win (start_imagine_duration audio)
    /\ _n_recording_delay p = duration_to_frames win (recording_delay timing)
    /\ (0 < _n_imagination p - _n_start_beep p - _n_recording_delay p ->
        _n_recording_frames p
          = _n_imagination p - _n_start_beep p - _n_recording_delay p
        /\ filter is_recording_warning logs = [])
    /\ (_n_imagination p - _n_start_beep p - _n_recording_delay p <= 0 ->
        _n_recording_frames p = 1
        /\ filter is_recording_warning logs
           = [WarnRecordingFrames (computed_recording_frames timing audio win)
                (imagination_duration timing) (start_imagine_duration audio)
                (recording_delay timing)]).
Proof.
  unfold __init__, computed_recording_frames.
  destruct (duration_to_frames win (imagination_duration timing)
            - duration_to_frames win (start_imagine_duration audio)
            - duration_to_frames win (recording_delay timing) <? 1) eqn:E.
  - apply Z.ltb_lt in E. do 2 eexists. split; [reflexivity|]. cbn.
    repeat split; try reflexivity; lia.
  - apply Z.ltb_ge in E. do 2 eexists. split; [reflexivity|]. cbn.
    repeat split; try reflexivity; lia.
Qed.

End construction.

(** * Cooperative cancellation *)
Module abort.
Import enums trial_protocol hoare.

Lemma wp_trivial {A} (m : M A) (Qn : A -> State -> Prop) Qr Qe st :
  (forall x s, Qn x s) -> (forall b s, Qr b s) -> (forall e s, Qe e s) ->
  wp m Qn Qr Qe st.
Proof. intros Hn Hr He. unfold wp. destruct (m st) as [[x|b|e] s]; auto. Qed.

Section Reset.
Variables (cls : EnumClass) (self : TrialProtocol) (env : Env) (a : RunArgs).

(** A run returns [False] only on a read of [self._abort] that saw a
    request made after the run had reset the flag. *)
Definition returns_false_only_on_request : bool -> State -> Prop :=
  fun b _ => b = false -> exists k, abort_requested env k = true.

Definition flag_clear (s : State) : Prop := _abort s = false.

#[local] Abbreviation Qr10 := returns_false_only_on_request.
#[local] Abbreviation Qe10 := (fun (_ : Exn) (_ : State) => True).

Ltac flag_solve :=
  unfold flag_clear in *; autorewrite with state;
  first [ exact I | assumption | reflexivity ].

Lemma requested_of_flag s :
  flag_clear s ->
  (_abort s || abort_requested env (n_checks s))%bool = true ->
  forall b s', Qr10 b s'.
Proof.
  unfold flag_clear. intros H E b s' _. rewrite H in E. simpl in E. eauto.
Qed.

Lemma check_keeps_flag_clear line cleanup s :
  flag_clear s ->
  wp (check_abort env line cleanup) (fun _ s' => flag_clear s') Qr10 Qe10 s.
Proof.
  intros H. wp_step.
  - apply wp_trivial; auto; intros; eapply requested_of_flag; eauto.
  - reflexivity.
Qed.

Lemma wait_keeps_flag_clear line n cleanup s :
  flag_clear s ->
  wp (wait_frames env line n cleanup) (fun _ s' => flag_clear s') Qr10 Qe10 s.
Proof.
  intros H. apply wp_wait_frames with (I := fun _ => flag_clear); auto.
  intros k s0 _ Hs. eapply wp_mono; [| apply check_keeps_flag_clear; exact Hs].
  intros [] s1 H1. exact H1.
Qed.

Ltac flag_step :=
  lazymatch goal with
  | |- wp (bind (check_abort _ _ _) _) _ _ _ _ =>
      apply wp_bind; eapply wp_mono; [| apply check_keeps_flag_clear; flag_solve];
      intros [] ? ?
  | |- wp (check_abort _ _ _) _ _ _ _ =>
      eapply wp_mono; [| apply check_keeps_flag_clear; flag_solve];
      intros [] ? ?
  | |- wp (bind (wait_frames _ _ _ _) _) _ _ _ _ =>
      apply wp_bind; eapply wp_mono; [| apply wait_keeps_flag_clear; flag_solve];
      intros [] ? ?
  | |- wp (wait_frames _ _ _ _) _ _ _ _ =>
      eapply wp_mono; [| apply wait_keeps_flag_clear; flag_solve];
      intros [] ? ?
  | |- wp (bind (hold_shape _ _ _) _) _ _ _ _ => fail
  | |- wp (bind (for_each _ _) _) _ _ _ _ => fail
  | |- wp (for_each _ _) _ _ _ _ => fail
  | |- wp _ _ _ _ _ => wp_step
  | |- if _ then _ else _ => wp_step
  | |- _ => flag_solve
  end.

Lemma hold_keeps_flag_clear s :
  flag_clear s ->
  wp (hold_shape self env a) (fun _ s' => flag_clear s') Qr10 Qe10 s.
Proof.
  intros H. unfold hold_shape. apply wp_bind.
  apply wp_for_acc_range_from with (I := fun _ _ s' => flag_clear s').
  - exact H.
  - intros k acc s0 _ Hs. destruct (_ =? _); repeat flag_step.
  - intros acc s0 Hs. repeat flag_step.
Qed.

Lemma training_keeps_flag_clear i s :
  flag_clear s ->
  wp (training_repetition cls self env a i) (fun _ s' => flag_clear s') Qr10 Qe10 s.
Proof.
  intros H. unfold training_repetition.
  repeat flag_step.
  apply wp_bind. eapply wp_mono; [| apply hold_keeps_flag_clear; flag_solve].
  intros [] s1 H1. repeat flag_step.
Qed.

Lemma to_measurement_keeps_flag_clear s :
  flag_clear s ->
  wp (training_to_measurement cls self env a) (fun _ s' => flag_clear s')
    Qr10 Qe10 s.
Proof.
  intros H. unfold training_to_measurement.
  destruct (0 <? _n_train_to_meas_delay self); repeat flag_step.
Qed.

Lemma instructions_keep_flag_clear s :
  flag_clear s ->
  wp (instruction_sequence cls self env a) (fun _ s' => flag_clear s')
    Qr10 Qe10 s.
Proof. intros H. unfold instruction_sequence. repeat flag_step. Qed.

Lemma cycle_keeps_flag_clear i s :
  flag_clear s ->
  wp (measurement_cycle cls self env a i) (fun _ s' => flag_clear s')
    Qr10 Qe10 s.
Proof.
  intros H. unfold measurement_cycle.
  destruct (i <? imagination_cycles (_timing self) - 1); repeat flag_step.
Qed.

Lemma measurement_keeps_flag_clear s :
  flag_clear s ->
  wp (measurement_phase cls self env a) (fun _ s' => flag_clear s')
    Qr10 Qe10 s.
Proof.
  intros H. unfold measurement_phase. repeat flag_step.
  apply wp_for_range with (I := fun _ => flag_clear).
  - flag_solve.
  - intros k s1 _ H1. apply cycle_keeps_flag_clear. exact H1.
  - auto.
Qed.

Lemma post_measurement_returns_true s :
  wp (post_measurement cls self env a) (fun _ _ => True) Qr10 Qe10 s.
Proof.
  unfold post_measurement.
  destruct (is_last_shape a), (is_last_queue_item a); simpl negb; cbv iota;
    repeat first [ wp_step | exact I | discriminate ];
    unfold returns_false_only_on_request; discriminate.
Qed.

Lemma run_returns_false_only_on_request s :
  wp (run cls self env a) (fun _ _ => True) Qr10 Qe10 s.
Proof.
  unfold run. apply wp_bind. unfold wp at 1. cbv beta iota.
  assert (H : flag_clear (set_abort false s)) by reflexivity.
  revert H. generalize (set_abort false s). intros s0 H0.
  repeat flag_step.
  apply wp_bind.
  apply wp_for_range with (I := fun _ => flag_clear).
  - flag_solve.
  - intros k s1 _ H1. apply training_keeps_flag_clear. exact H1.
  - intros s1 H1.
    apply wp_bind. eapply wp_mono;
      [| apply to_measurement_keeps_flag_clear; exact H1].
    intros [] s2 H2.
    apply wp_bind. eapply wp_mono;
      [| apply instructions_keep_flag_clear; exact H2].
    intros [] s3 H3.
    apply wp_bind. eapply wp_mono;
      [| apply measurement_keeps_flag_clear; exact H3].
    intros [] s4 H4.
    apply post_measurement_returns_true.
Qed.

End Reset.

(** C10: [run] clears [self._abort] before anything else, so a
    [request_abort] made before the call changes nothing: the run started
    with the flag set is the run started with the flag as it was. A run
    returns [False] only if some read of the flag, made by that run, saw a
    request that arrived after the run had started. *)
Theorem run_resets_abort_flag cls self env a st :
  run cls self env a (request_abort st) = run cls self env a st
  /\ (forall st', run cls self env a st = (Return false, st') ->
      exists k, abort_requested env k = true).
Proof.
  split.
  - reflexivity.
  - intros st' E.
    pose proof (run_returns_false_only_on_request cls self env a st) as W.
    unfold wp in W. rewrite E in W. apply W. reflexivity.
Qed.

(** ** Abort while the camera records *)

(** The camera as the calls leave it: [Some true] while a recording started
    by [start_recording] has not been stopped, [Some false] when every
    recording started has been stopped by exactly one [stop_recording], and
    [None] once a call came out of turn (a second start while recording, a
    stop while idle). *)
Definition camera_step (r : option bool) (e : Event) : option bool :=
  match e with
  | EvStartRecording _ _ =>
      match r with Some false => Some true | _ => None end
  | EvStopRecording _ =>
      match r with Some true => Some false | _ => None end
  | _ => r
  end.

Definition camera_after (evs : list Event) : option bool :=
  fold_left camera_step evs (Some false).

(** A read of [self._abort] that saw the flag set. *)
Definition saw_abort (e : Event) : bool :=
  match e with
  | EvAbortCheck _ true => true
  | _ => false
  end.

(** Events that are neither a camera call nor a read of the flag. *)
Definition neutral (e : Event) : bool :=
  match e with
  | EvAbortCheck _ _ | EvStartRecording _ _ | EvStopRecording _ => false
  | _ => true
  end.

Section WhileRecording.
Variables (cls : EnumClass) (self : TrialProtocol) (env : Env) (a : RunArgs).
Variable T0 : list Event.

(** So far no read saw the flag set, and the camera is in mode [r]. *)
Definition running (r : bool) (s : State) : Prop :=
  exists new,
    trace s = T0 ++ new /\ existsb saw_abort new = false
    /\ camera_after new = Some r.

(** How a run may return: [True] without any read having seen the flag, or
    [False] right after the cleanup of the one read that saw it; at line 358
    that cleanup is one [stop_recording], on a camera that was recording. *)
Definition returned (b : bool) (s : State) : Prop :=
  exists new,
    trace s = T0 ++ new
    /\ ((b = true /\ existsb saw_abort new = false)
        \/ (b = false /\ exists pre line tail,
              new = pre ++ EvAbortCheck line true :: tail
              /\ existsb saw_abort pre = false
              /\ existsb saw_abort tail = false
              /\ (line = 358%nat ->
                  camera_after pre = Some true
                  /\ exists frames, tail = [EvStopRecording frames]))).

(** A run raises only while no read has seen the flag set. *)
Definition raised (_ : Exn) (s : State) : Prop :=
  exists new, trace s = T0 ++ new /\ existsb saw_abort new = false.

#[local] Abbreviation Qe2 := raised.

Lemma camera_after_snoc evs e :
  camera_after (evs ++ [e]) = camera_step (camera_after evs) e.
Proof. unfold camera_after. rewrite fold_left_app. reflexivity. Qed.

Lemma existsb_snoc {X} (f : X -> bool) l x :
  existsb f (l ++ [x]) = (existsb f l || f x)%bool.
Proof. rewrite existsb_app. simpl. rewrite orb_false_r. reflexivity. Qed.

Lemma running_neutral r new e :
  neutral e = true ->
  existsb saw_abort new = false /\ camera_after new = Some r ->
  existsb saw_abort (new ++ [e]) = false /\ camera_after (new ++ [e]) = Some r.
Proof.
  intros N [Q C]. rewrite existsb_snoc, camera_after_snoc, Q, C.
  destruct e; try discriminate N; split; reflexivity.
Qed.

Lemma running_emitted r e s :
  neutral e = true -> running r s -> running r (emitted e s).
Proof.
  intros N (new & E & H). exists (new ++ [e]). split.
  - rewrite trace_emitted, E, app_assoc. reflexivity.
  - apply running_neutral; assumption.
Qed.

Lemma running_emitted_if r c e s :
  neutral e = true -> running r s -> running r (emitted_if c e s).
Proof. destruct c; [apply running_emitted | auto]. Qed.

Lemma running_same_trace r s s' :
  trace s' = trace s -> running r s -> running r s'.
Proof. intros E (new & E' & H). exists new. rewrite E. auto. Qed.

Lemma running_flipped r s : running r s -> running r (flipped s).
Proof. apply (running_emitted r (EvFlip (on_flip_queue s))). reflexivity. Qed.

Lemma running_beeped r t s : running r s -> running r (beeped a t s).
Proof.
  intros H. unfold beeped. apply running_emitted_if; [reflexivity|].
  revert H. apply running_same_trace. reflexivity.
Qed.

Lemma running_checked r line s :
  running r s -> running r (checked line false s).
Proof.
  intros (new & E & Q & C). exists (new ++ [EvAbortCheck line false]).
  rewrite trace_checked, E, app_assoc, existsb_snoc, camera_after_snoc, Q, C.
  auto.
Qed.

Lemma running_started path rate s :
  running false s -> running true (emitted (EvStartRecording path rate) s).
Proof.
  intros (new & E & Q & C). exists (new ++ [EvStartRecording path rate]).
  rewrite trace_emitted, E, app_assoc, existsb_snoc, camera_after_snoc, Q, C.
  auto.
Qed.

Lemma running_stopped s : running true s -> running false (stopped env s).
Proof.
  intros (new & E & Q & C).
  exists (new ++ [EvStopRecording (frames_captured env (n_stops s))]).
  rewrite trace_stopped, E, app_assoc, existsb_snoc, camera_after_snoc, Q, C.
  auto.
Qed.

Lemma running_queued r cb s : running r s -> running r (queued cb s).
Proof. apply running_same_trace. reflexivity. Qed.

Lemma running_with_beep_counter r v s :
  running r s -> running r (with_beep_counter v s).
Proof. apply running_same_trace. reflexivity. Qed.

Lemma running_with_total_frames r v s :
  running r s -> running r (with_total_frames v s).
Proof. apply running_same_trace. reflexivity. Qed.

Lemma raised_of_running r e s : running r s -> raised e s.
Proof. intros (new & E & Q & _). exists new. auto. Qed.

Lemma check_while_running r line cleanup tail s :
  emits cleanup tail ->
  (forall s', existsb saw_abort (tail s') = false) ->
  (line = 358%nat ->
   r = true /\ forall s', exists frames, tail s' = [EvStopRecording frames]) ->
  running r s ->
  wp (check_abort env line cleanup) (fun _ s' => running r s') returned Qe2 s.
Proof.
  intros Hc Hq H358 (new & E & Q & C). wp_step.
  - destruct (Hc (checked line true s)) as (s' & Ec & Et).
    unfold wp. rewrite Ec.
    exists (new ++ EvAbortCheck line true :: tail (checked line true s)).
    split.
    + rewrite Et, trace_checked, E, <- !app_assoc. reflexivity.
    + right. split; [reflexivity|].
      exists new, line, (tail (checked line true s)).
      repeat split; auto.
      * destruct (H358 H) as [-> _]. exact C.
      * destruct (H358 H) as [_ Hf]. apply Hf.
  - apply running_checked. exists new. auto.
Qed.

Lemma wait_while_running r line n cleanup tail s :
  emits cleanup tail ->
  (forall s', existsb saw_abort (tail s') = false) ->
  (line = 358%nat ->
   r = true /\ forall s', exists frames, tail s' = [EvStopRecording frames]) ->
  running r s ->
  wp (wait_frames env line n cleanup) (fun _ s' => running r s') returned Qe2 s.
Proof.
  intros Hc Hq H358 H. apply wp_wait_frames with (I := fun _ => running r); auto.
  intros k s0 _ Hs. eapply wp_mono;
    [| apply (check_while_running r line cleanup tail); eauto].
  intros [] s1 H1. apply running_flipped. exact H1.
Qed.

Ltac cam_solve :=
  lazymatch goal with
  | |- running _ (emitted (EvStartRecording _ _) _) =>
      apply running_started; cam_solve
  | |- running _ (emitted _ _) =>
      apply running_emitted; [reflexivity | cam_solve]
  | |- running _ (emitted_if _ _ _) =>
      apply running_emitted_if; [reflexivity | cam_solve]
  | |- running _ (flipped _) => apply running_flipped; cam_solve
  | |- running _ (beeped _ _ _) => apply running_beeped; cam_solve
  | |- running _ (checked _ false _) => apply running_checked; cam_solve
  | |- running _ (stopped _ _) => apply running_stopped; cam_solve
  | |- running _ (queued _ _) => apply running_queued; cam_solve
  | |- running _ (with_beep_counter _ _) =>
      apply running_with_beep_counter; cam_solve
  | |- running _ (with_total_frames _ _) =>
      apply running_with_total_frames; cam_solve
  | |- running _ _ => eassumption
  | |- raised _ _ => eapply raised_of_running; cam_solve
  | |- True => exact I
  end.

Ltac cam_side :=
  first
    [ apply emits_nothing | apply emits_audio_stop | apply emits_audio_stop_when
    | apply emits_stop_recording
    | solve [intros; reflexivity]
    | solve [intros; destruct (negb _); reflexivity]
    | solve [intros E358; discriminate E358]
    | solve [intros _; split; [reflexivity | intros; eexists; reflexivity]]
    | cam_solve ].

Ltac cam_step :=
  lazymatch goal with
  | |- wp (bind (check_abort _ _ _) _) _ _ _ _ =>
      apply wp_bind; eapply wp_mono;
      [| eapply check_while_running; cam_side]; intros [] ? ?
  | |- wp (check_abort _ _ _) _ _ _ _ =>
      eapply wp_mono;
      [| eapply check_while_running; cam_side]; intros [] ? ?
  | |- wp (bind (wait_frames _ _ _ _) _) _ _ _ _ =>
      apply wp_bind; eapply wp_mono;
      [| eapply wait_while_running; cam_side]; intros [] ? ?
  | |- wp (wait_frames _ _ _ _) _ _ _ _ =>
      eapply wp_mono;
      [| eapply wait_while_running; cam_side]; intros [] ? ?
  | |- wp (bind (hold_shape _ _ _) _) _ _ _ _ => fail
  | |- wp (bind (for_each _ _) _) _ _ _ _ => fail
  | |- wp (for_each _ _) _ _ _ _ => fail
  | |- wp _ _ _ _ _ => wp_step
  | |- if _ then _ else _ => wp_step
  | |- _ => cam_solve
  end.

Lemma hold_while_running s :
  running false s ->
  wp (hold_shape self env a) (fun _ s' => running false s') returned Qe2 s.
Proof.
  intros H. unfold hold_shape. apply wp_bind.
  apply wp_for_acc_range_from with (I := fun _ _ s' => running false s').
  - exact H.
  - intros k acc s0 _ Hs. destruct (_ =? _); repeat cam_step.
  - intros acc s0 Hs. repeat cam_step.
Qed.

Lemma training_while_running i s :
  running false s ->
  wp (training_repetition cls self env a i) (fun _ s' => running false s')
    returned Qe2 s.
Proof.
  intros H. unfold training_repetition. repeat cam_step.
  apply wp_bind. eapply wp_mono; [| apply hold_while_running; cam_solve].
  intros [] s1 H1. repeat cam_step.
Qed.

Lemma to_measurement_while_running s :
  running false s ->
  wp (training_to_measurement cls self env a) (fun _ s' => running false s')
    returned Qe2 s.
Proof.
  intros H. unfold training_to_measurement.
  destruct (0 <? _n_train_to_meas_delay self); repeat cam_step.
Qed.

Lemma instructions_while_running s :
  running false s ->
  wp (instruction_sequence cls self env a) (fun _ s' => running false s')
    returned Qe2 s.
Proof. intros H. unfold instruction_sequence. repeat cam_step. Qed.

Lemma cycle_while_running i s :
  running false s ->
  wp (measurement_cycle cls self env a i) (fun _ s' => running false s')
    returned Qe2 s.
Proof.
  intros H. unfold measurement_cycle.
  destruct (i <? imagination_cycles (_timing self) - 1); repeat cam_step.
Qed.

Lemma measurement_while_running s :
  running false s ->
  wp (measurement_phase cls self env a) (fun _ s' => running false s')
    returned Qe2 s.
Proof.
  intros H. unfold measurement_phase. repeat cam_step.
  apply wp_for_range with (I := fun _ => running false).
  - cam_solve.
  - intros k s1 _ H1. apply cycle_while_running. exact H1.
  - auto.
Qed.

Lemma returned_true_of_running r s : running r s -> returned true s.
Proof. intros (new & E & Q & _). exists new. auto. Qed.

Lemma post_measurement_while_running s :
  running false s ->
  wp (post_measurement cls self env a) (fun _ _ => False) returned Qe2 s.
Proof.
  intros H. unfold post_measurement.
  destruct (is_last_shape a), (is_last_queue_item a); simpl negb; cbv iota;
    repeat first
      [ wp_step
      | apply (returned_true_of_running false); cam_solve
      | cam_solve ].
Qed.

Lemma run_while_running s :
  trace s = T0 ->
  wp (run cls self env a) (fun _ _ => False) returned Qe2 s.
Proof.
  intros E0. unfold run. apply wp_bind. unfold wp at 1. cbv beta iota.
  assert (H : running false (set_abort false s)).
  { exists []. simpl. rewrite app_nil_r. auto. }
  revert H. generalize (set_abort false s). intros s0 H0.
  repeat cam_step.
  apply wp_bind.
  apply wp_for_range with (I := fun _ => running false).
  - cam_solve.
  - intros k s1 _ H1. apply training_while_running. exact H1.
  - intros s1 H1.
    apply wp_bind. eapply wp_mono;
      [| apply to_measurement_while_running; exact H1].
    intros [] s2 H2.
    apply wp_bind. eapply wp_mono;
      [| apply instructions_while_running; exact H2].
    intros [] s3 H3.
    apply wp_bind. eapply wp_mono;
      [| apply measurement_while_running; exact H3].
    intros [] s4 H4.
    apply post_measurement_while_running. exact H4.
Qed.

End WhileRecording.

Lemma in_existsb_saw_abort l line :
  In (EvAbortCheck line true) l -> existsb saw_abort l = true.
Proof.
  intros H. apply existsb_exists. exists (EvAbortCheck line true). auto.
Qed.


End abort.

(** * The order of the logged events *)
Module event_order.
Import enums trial_protocol hoare.

(** The rows a run passes to the event logger, in the order the logger
    receives them: rows logged directly, and rows logged by an on-flip
    callback when its flip runs. *)
Definition callback_rows (cb : Callback) : list LogCall :=
  match cb with
  | CbLog r => [r]
  | _ => []
  end.

Definition event_rows (e : Event) : list LogCall :=
  match e with
  | EvLog r => [r]
  | EvFlip fired => flat_map callback_rows fired
  | _ => []
  end.

Definition logged (evs : list Event) : list LogCall := flat_map event_rows evs.

Definition logged_types (evs : list Event) : list string :=
  map row_event_type (logged evs).

(** [n] copies of [l], one after the other. *)
Definition times {X} (n : nat) (l : list X) : list X :=
  List.concat (repeat l n).

Definition training_markers : list string :=
  ["TRAINING_START_BEEP"; "TRAINING_SHAPE_ON";
   "TRAINING_END_BEEP"; "TRAINING_SHAPE_OFF"].

Definition cycle_markers : list string :=
  ["IMAGINATION_START_BEEP"; "RECORDING_START";
   "RECORDING_STOP"; "IMAGINATION_END_BEEP"].

Definition post_marker (a : RunArgs) : string :=
  if negb (is_last_shape a) then "INSTRUCTION_OPEN_EYES"
  else if is_last_queue_item a then "INSTRUCTION_COMPLETED"
  else "INSTRUCTION_NEXT_PARTICIPANT".

(** The order in which a completed run logs, as the code has it. *)
Definition canonical_order (self : TrialProtocol) (a : RunArgs) : list string :=
  ["TRIAL_START"]
  ++ times (Z.to_nat (training_repetitions (_timing self))) training_markers
  ++ ["INSTRUCTION_CLOSE_EYES"; "INSTRUCTION_STARTING"]
  ++ times (Z.to_nat (imagination_cycles (_timing self))) cycle_markers
  ++ [post_marker a; "TRIAL_END"].

(** The order in the spec's words: training start-beep and end-beep markers
    per repetition, the instruction markers, the four markers of each cycle,
    one trial-end marker. *)
Definition claimed_order (self : TrialProtocol) : list string :=
  times (Z.to_nat (training_repetitions (_timing self)))
    ["TRAINING_START_BEEP"; "TRAINING_END_BEEP"]
  ++ ["INSTRUCTION_CLOSE_EYES"; "INSTRUCTION_STARTING"]
  ++ times (Z.to_nat (imagination_cycles (_timing self))) cycle_markers
  ++ ["TRIAL_END"].

Lemma logged_types_app l1 l2 :
  logged_types (l1 ++ l2) = logged_types l1 ++ logged_types l2.
Proof. unfold logged_types, logged. rewrite flat_map_app, map_app. reflexivity. Qed.

Lemma times_succ {X} n (l : list X) : times (S n) l = times n l ++ l.
Proof.
  unfold times. induction n as [|n IH]; simpl.
  - rewrite app_nil_r. reflexivity.
  - simpl in IH. rewrite IH at 1. rewrite app_assoc. reflexivity.
Qed.

Section Order.
Variables (cls : EnumClass) (self : TrialProtocol) (env : Env) (a : RunArgs).

(** The types logged so far are [X], and [q] waits for the next flip. *)
Definition logging (X : list string) (q : list Callback) (s : State) : Prop :=
  on_flip_queue s = q /\ logged_types (trace s) = X.

Lemma logging_eq X X' q q' s :
  X = X' -> q = q' -> logging X q s -> logging X' q' s.
Proof. intros -> ->. auto. Qed.

Lemma logging_silent X q e s :
  event_rows e = [] -> logging X q s -> logging X q (emitted e s).
Proof.
  intros He [Hq HX]. split; [exact Hq|].
  rewrite trace_emitted, logged_types_app, HX. unfold logged_types, logged.
  simpl. rewrite He. simpl. apply app_nil_r.
Qed.

Lemma logging_emitted_if X q c e s :
  event_rows e = [] -> logging X q s -> logging X q (emitted_if c e s).
Proof. destruct c; [apply logging_silent | auto]. Qed.

Lemma logging_same X q s s' :
  on_flip_queue s' = on_flip_queue s -> trace s' = trace s ->
  logging X q s -> logging X q s'.
Proof. intros Eq Et [Hq HX]. split; congruence. Qed.

Lemma logging_beeped X q t s : logging X q s -> logging X q (beeped a t s).
Proof.
  intros H. unfold beeped. apply logging_emitted_if; [reflexivity|].
  revert H. apply logging_same; reflexivity.
Qed.

Lemma logging_checked X q line b s :
  logging X q s -> logging X q (checked line b s).
Proof. apply (logging_silent X q (EvAbortCheck line b)). reflexivity. Qed.

Lemma logging_stopped X q s : logging X q s -> logging X q (stopped env s).
Proof.
  intros [Hq HX]. split; [exact Hq|].
  rewrite trace_stopped, logged_types_app, HX. apply app_nil_r.
Qed.

Lemma logging_with_beep_counter X q v s :
  logging X q s -> logging X q (with_beep_counter v s).
Proof. apply logging_same; reflexivity. Qed.

Lemma logging_with_total_frames X q v s :
  logging X q s -> logging X q (with_total_frames v s).
Proof. apply logging_same; reflexivity. Qed.

Lemma logging_logged X q r s :
  logging X q s -> logging (X ++ [row_event_type r]) q (emitted (EvLog r) s).
Proof.
  intros [Hq HX]. split; [exact Hq|].
  rewrite trace_emitted, logged_types_app, HX. reflexivity.
Qed.

Lemma logging_queued X q cb s :
  logging X q s -> logging X (q ++ [cb]) (queued cb s).
Proof. intros [Hq HX]. split; [rewrite queue_queued, Hq; reflexivity | exact HX]. Qed.

Lemma logging_flipped X q s :
  logging X q s ->
  logging (X ++ map row_event_type (flat_map callback_rows q)) [] (flipped s).
Proof.
  intros [Hq HX]. split; [reflexivity|].
  rewrite trace_flipped, logged_types_app, HX, Hq. unfold logged_types, logged.
  simpl. rewrite app_nil_r. reflexivity.
Qed.

Variable target : list string.

(** A run that returns [True] has logged [target]; nothing is said of a run
    that returns [False]. *)
Definition completed (b : bool) (s : State) : Prop :=
  b = true -> logged_types (trace s) = target.

#[local] Abbreviation Qe4 := (fun (_ : Exn) (_ : State) => True).

Ltac log_peel :=
  lazymatch goal with
  | |- logging _ _ (emitted (EvLog _) _) => eapply logging_logged; log_peel
  | |- logging _ _ (emitted _ _) =>
      eapply logging_silent; [reflexivity | log_peel]
  | |- logging _ _ (emitted_if _ _ _) =>
      eapply logging_emitted_if; [reflexivity | log_peel]
  | |- logging _ _ (flipped _) => eapply logging_flipped; log_peel
  | |- logging _ _ (queued _ _) => eapply logging_queued; log_peel
  | |- logging _ _ (beeped _ _ _) => eapply logging_beeped; log_peel
  | |- logging _ _ (checked _ _ _) => eapply logging_checked; log_peel
  | |- logging _ _ (stopped _ _) => eapply logging_stopped; log_peel
  | |- logging _ _ (with_beep_counter _ _) =>
      eapply logging_with_beep_counter; log_peel
  | |- logging _ _ (with_total_frames _ _) =>
      eapply logging_with_total_frames; log_peel
  | |- logging _ _ _ => eassumption
  end.

Ltac list_eq :=
  first
    [ reflexivity
    | cbn [map flat_map callback_rows app row_event_type log_row];
      rewrite ?app_nil_r; rewrite <- ?app_assoc; cbn [app]; reflexivity ].

Ltac log_goal :=
  lazymatch goal with
  | |- logging _ _ _ => eapply logging_eq; cycle 2; [log_peel | list_eq | list_eq]
  | |- completed false _ => intros Hb; discriminate Hb
  | |- True => exact I
  end.

Lemma check_logging X line cleanup tail s :
  emits cleanup tail ->
  logging X [] s ->
  wp (check_abort env line cleanup) (fun _ s' => logging X [] s') completed Qe4 s.
Proof.
  intros Hc H. wp_step.
  - eapply wp_cleanup; [exact Hc|]. intros s' _ Hb. discriminate Hb.
  - log_goal.
Qed.

Lemma wait_logging X line n cleanup tail s :
  emits cleanup tail ->
  logging X [] s ->
  wp (wait_frames env line n cleanup) (fun _ s' => logging X [] s') completed Qe4 s.
Proof.
  intros Hc H. apply wp_wait_frames with (I := fun _ => logging X []); auto.
  intros k s0 _ Hs. eapply wp_mono; [| eapply check_logging; eauto].
  intros [] s1 H1. log_goal.
Qed.

Ltac log_step :=
  lazymatch goal with
  | |- wp (bind (check_abort _ _ _) _) _ _ _ _ =>
      apply wp_bind; eapply wp_mono;
      [| eapply check_logging; [emits_solve | log_goal]]; intros [] ? ?
  | |- wp (check_abort _ _ _) _ _ _ _ =>
      eapply wp_mono;
      [| eapply check_logging; [emits_solve | log_goal]]; intros [] ? ?
  | |- wp (bind (wait_frames _ _ _ _) _) _ _ _ _ =>
      apply wp_bind; eapply wp_mono;
      [| eapply wait_logging; [emits_solve | log_goal]]; intros [] ? ?
  | |- wp (wait_frames _ _ _ _) _ _ _ _ =>
      eapply wp_mono;
      [| eapply wait_logging; [emits_solve | log_goal]]; intros [] ? ?
  | |- wp (bind (hold_shape _ _ _) _) _ _ _ _ => fail
  | |- wp (bind (for_each _ _) _) _ _ _ _ => fail
  | |- wp (for_each _ _) _ _ _ _ => fail
  | |- wp _ _ _ _ _ => wp_step
  | |- if _ then _ else _ => wp_step
  | |- _ => log_goal
  end.

Lemma hold_logging X s :
  logging X [] s ->
  wp (hold_shape self env a) (fun _ s' => logging X [] s') completed Qe4 s.
Proof.
  intros H. unfold hold_shape. apply wp_bind.
  apply wp_for_acc_range_from with (I := fun _ _ s' => logging X [] s').
  - exact H.
  - intros k acc s0 _ Hs. destruct (_ =? _); repeat log_step.
  - intros acc s0 Hs. repeat log_step.
Qed.

Lemma training_logging X i s :
  logging X [] s ->
  wp (training_repetition cls self env a i)
    (fun _ s' => logging (X ++ training_markers) [] s') completed Qe4 s.
Proof.
  intros H. unfold training_repetition. repeat log_step.
  apply wp_bind. eapply wp_mono; [| eapply hold_logging; log_goal].
  intros [] s1 H1. repeat log_step.
Qed.

Lemma to_measurement_logging X s :
  logging X [] s ->
  wp (training_to_measurement cls self env a) (fun _ s' => logging X [] s')
    completed Qe4 s.
Proof.
  intros H. unfold training_to_measurement.
  destruct (0 <? _n_train_to_meas_delay self); repeat log_step.
Qed.

Lemma instructions_logging X s :
  logging X [] s ->
  wp (instruction_sequence cls self env a)
    (fun _ s' =>
       logging (X ++ ["INSTRUCTION_CLOSE_EYES"; "INSTRUCTION_STARTING"]) [] s')
    completed Qe4 s.
Proof. intros H. unfold instruction_sequence. repeat log_step. Qed.

Lemma cycle_logging X i s :
  logging X [] s ->
  wp (measurement_cycle cls self env a i)
    (fun _ s' => logging (X ++ cycle_markers) [] s') completed Qe4 s.
Proof.
  intros H. unfold measurement_cycle.
  destruct (i <? imagination_cycles (_timing self) - 1); repeat log_step.
Qed.

Lemma measurement_logging X s :
  logging X [] s ->
  wp (measurement_phase cls self env a)
    (fun _ s' =>
       logging
         (X ++ times (Z.to_nat (imagination_cycles (_timing self))) cycle_markers)
         [] s')
    completed Qe4 s.
Proof.
  intros H. unfold measurement_phase. repeat log_step.
  apply wp_for_range
    with (I := fun k => logging (X ++ times k cycle_markers) []).
  - log_goal.
  - intros k s1 _ H1. eapply wp_mono; [| apply cycle_logging; exact H1].
    intros [] s2 H2. revert H2. apply logging_eq; [| reflexivity].
    rewrite times_succ, app_assoc. reflexivity.
  - auto.
Qed.

Lemma post_measurement_logging X s :
  target = X ++ [post_marker a; "TRIAL_END"] ->
  logging X [] s ->
  wp (post_measurement cls self env a) (fun _ _ => False) completed Qe4 s.
Proof.
  intros Ht H. unfold post_measurement, post_marker in *.
  assert (G : forall q s', logging target q s' -> completed true s').
  { intros q s' [_ HX] _. exact HX. }
  destruct (is_last_shape a), (is_last_queue_item a); simpl negb in *;
    cbv iota in *;
    repeat first
      [ wp_step
      | exact I
      | eapply G; rewrite Ht;
        eapply logging_eq; cycle 2; [log_peel | list_eq | reflexivity] ].
Qed.

Lemma run_logging s :
  on_flip_queue s = [] ->
  target = logged_types (trace s) ++ canonical_order self a ->
  wp (run cls self env a) (fun _ _ => False) completed Qe4 s.
Proof.
  intros Hq Ht. unfold run. apply wp_bind. unfold wp at 1. cbv beta iota.
  assert (H : logging (logged_types (trace s)) [] (set_abort false s)).
  { split; [exact Hq | reflexivity]. }
  revert H. generalize (set_abort false s). intros s0 H0.
  repeat log_step.
  apply wp_bind.
  apply wp_for_range
    with (I := fun k =>
                 logging (logged_types (trace s) ++ ["TRIAL_START"]
                          ++ times k training_markers) []).
  - log_goal.
  - intros k s1 _ H1. eapply wp_mono; [| apply training_logging; exact H1].
    intros [] s2 H2. revert H2. apply logging_eq; [| reflexivity].
    rewrite times_succ, <- !app_assoc. reflexivity.
  - intros s1 H1.
    apply wp_bind. eapply wp_mono;
      [| apply to_measurement_logging; exact H1].
    intros [] s2 H2.
    apply wp_bind. eapply wp_mono;
      [| apply instructions_logging; exact H2].
    intros [] s3 H3.
    apply wp_bind. eapply wp_mono;
      [| apply measurement_logging; exact H3].
    intros [] s4 H4.
    eapply post_measurement_logging; [| exact H4].
    rewrite Ht. unfold canonical_order. rewrite <- !app_assoc. reflexivity.
Qed.

End Order.

(** C4 (amended): a run that returns [True], started with no callback
    waiting for a flip, has passed to the event logger exactly the rows of
    [canonical_order], whatever the frame counts: TRIAL_START, then for each
    training repetition the start-beep, shape-on, end-beep and shape-off
    markers, then the two instruction markers, then for each cycle the
    start-beep, recording-start, recording-stop and end-beep markers, then
    the marker of the post-measurement instruction, then TRIAL_END. *)
Theorem completed_run_logs_canonical_order cls self env a st st' :
  on_flip_queue st = [] ->
  run cls self env a st = (Return true, st') ->
  logged_types (trace st') = logged_types (trace st) ++ canonical_order self a.
Proof.
  intros Hq E.
  pose proof (run_logging cls self env a _ st Hq eq_refl) as W.
  unfold wp in W. rewrite E in W. apply W. reflexivity.
Qed.

End event_order.

(** * The inter-imagination delay *)
Module cycles.
Import enums trial_protocol hoare event_order.

(** What a run shows of its measurement cycles: the flip on which a cycle's
    end beep starts (the flip that runs the IMAGINATION_END_BEEP row), and
    each frame of an inter-imagination delay (a pass of the loop at line
    401-404, whose read of the flag is at line 402). *)
Inductive CycleMark := CycleEnded | DelayFrame.

Definition is_end_beep_log (cb : Callback) : bool :=
  match cb with
  | CbLog r => String.eqb (row_event_type r) "IMAGINATION_END_BEEP"
  | _ => false
  end.

Definition event_marks (e : Event) : list CycleMark :=
  match e with
  | EvFlip fired => if existsb is_end_beep_log fired then [CycleEnded] else []
  | EvAbortCheck line false => if Nat.eqb line 402 then [DelayFrame] else []
  | _ => []
  end.

Definition cycle_marks (evs : list Event) : list CycleMark :=
  flat_map event_marks evs.

(** One cycle followed by a delay of [n] frames. *)
Definition cycle_then_delay (n : Z) : list CycleMark :=
  CycleEnded :: repeat DelayFrame (Z.to_nat n).

Lemma cycle_marks_app l1 l2 :
  cycle_marks (l1 ++ l2) = cycle_marks l1 ++ cycle_marks l2.
Proof. apply flat_map_app. Qed.

Lemma times_nil {X} n : times n (@nil X) = [].
Proof. unfold times. induction n; simpl; auto. Qed.

Lemma times_one {X} n (x : X) : times n [x] = repeat x n.
Proof. unfold times. induction n; simpl; [reflexivity | f_equal; assumption]. Qed.

Section Delay.
Variables (cls : EnumClass) (self : TrialProtocol) (env : Env) (a : RunArgs).

Definition marking (X : list CycleMark) (q : list Callback) (s : State) : Prop :=
  on_flip_queue s = q /\ cycle_marks (trace s) = X.

Lemma marking_eq X X' q q' s :
  X = X' -> q = q' -> marking X q s -> marking X' q' s.
Proof. intros -> ->. auto. Qed.

Lemma marking_emitted X q e s :
  marking X q s -> marking (X ++ event_marks e) q (emitted e s).
Proof.
  intros [Hq HX]. split; [exact Hq|].
  rewrite trace_emitted, cycle_marks_app, HX. unfold cycle_marks. simpl.
  rewrite app_nil_r. reflexivity.
Qed.

Lemma marking_silent X q e s :
  event_marks e = [] -> marking X q s -> marking X q (emitted e s).
Proof.
  intros He H. apply (marking_emitted X q e) in H. rewrite He, app_nil_r in H.
  exact H.
Qed.

Lemma marking_emitted_if X q c e s :
  event_marks e = [] -> marking X q s -> marking X q (emitted_if c e s).
Proof. destruct c; [apply marking_silent | auto]. Qed.

Lemma marking_same X q s s' :
  on_flip_queue s' = on_flip_queue s -> trace s' = trace s ->
  marking X q s -> marking X q s'.
Proof. intros Eq Et [Hq HX]. split; congruence. Qed.

Lemma marking_beeped X q t s : marking X q s -> marking X q (beeped a t s).
Proof.
  intros H. unfold beeped. apply marking_emitted_if; [reflexivity|].
  revert H. apply marking_same; reflexivity.
Qed.

Lemma marking_checked X q line s :
  marking X q s ->
  marking (X ++ event_marks (EvAbortCheck line false)) q (checked line false s).
Proof. apply (marking_emitted X q (EvAbortCheck line false)). Qed.

Lemma marking_stopped X q s : marking X q s -> marking X q (stopped env s).
Proof.
  intros [Hq HX]. split; [exact Hq|].
  rewrite trace_stopped, cycle_marks_app, HX. apply app_nil_r.
Qed.

Lemma marking_with_beep_counter X q v s :
  marking X q s -> marking X q (with_beep_counter v s).
Proof. apply marking_same; reflexivity. Qed.

Lemma marking_with_total_frames X q v s :
  marking X q s -> marking X q (with_total_frames v s).
Proof. apply marking_same; reflexivity. Qed.

Lemma marking_queued X q cb s :
  marking X q s -> marking X (q ++ [cb]) (queued cb s).
Proof. intros [Hq HX]. split; [rewrite queue_queued, Hq; reflexivity | exact HX]. Qed.

Lemma marking_flipped X q s :
  marking X q s -> marking (X ++ event_marks (EvFlip q)) [] (flipped s).
Proof.
  intros [Hq HX]. split; [reflexivity|].
  rewrite trace_flipped, cycle_marks_app, HX, Hq. unfold cycle_marks.
  simpl flat_map. rewrite app_nil_r. reflexivity.
Qed.

Variable target : list CycleMark.

Definition completed_marks (b : bool) (s : State) : Prop :=
  b = true -> cycle_marks (trace s) = target.

#[local] Abbreviation Qe7 := (fun (_ : Exn) (_ : State) => True).

Ltac mark_peel :=
  lazymatch goal with
  | |- marking _ _ (emitted (EvLog _) _) =>
      eapply marking_silent; [reflexivity | mark_peel]
  | |- marking _ _ (emitted _ _) =>
      eapply marking_silent; [reflexivity | mark_peel]
  | |- marking _ _ (emitted_if _ _ _) =>
      eapply marking_emitted_if; [reflexivity | mark_peel]
  | |- marking _ _ (flipped _) => eapply marking_flipped; mark_peel
  | |- marking _ _ (queued _ _) => eapply marking_queued; mark_peel
  | |- marking _ _ (beeped _ _ _) => eapply marking_beeped; mark_peel
  | |- marking _ _ (checked _ false _) => eapply marking_checked; mark_peel
  | |- marking _ _ (stopped _ _) => eapply marking_stopped; mark_peel
  | |- marking _ _ (with_beep_counter _ _) =>
      eapply marking_with_beep_counter; mark_peel
  | |- marking _ _ (with_total_frames _ _) =>
      eapply marking_with_total_frames; mark_peel
  | |- marking _ _ _ => eassumption
  end.

Ltac mark_eq :=
  first
    [ reflexivity
    | cbn [event_marks existsb is_end_beep_log row_event_type log_row app
           orb Nat.eqb String.eqb Ascii.eqb Bool.eqb];
      rewrite ?times_nil, ?times_one, ?app_nil_r; rewrite <- ?app_assoc;
      cbn [app]; reflexivity ].

Ltac mark_goal :=
  lazymatch goal with
  | |- marking _ _ _ => eapply marking_eq; cycle 2; [mark_peel | mark_eq | mark_eq]
  | |- completed_marks false _ => intros Hb; discriminate Hb
  | |- True => exact I
  end.

Lemma check_marking X line cleanup tail s :
  emits cleanup tail ->
  marking X [] s ->
  wp (check_abort env line cleanup)
    (fun _ s' => marking (X ++ event_marks (EvAbortCheck line false)) [] s')
    completed_marks Qe7 s.
Proof.
  intros Hc H. wp_step.
  - eapply wp_cleanup; [exact Hc|]. intros s' _ Hb. discriminate Hb.
  - apply marking_checked. exact H.
Qed.

Lemma wait_marking X line n cleanup tail s :
  emits cleanup tail ->
  marking X [] s ->
  wp (wait_frames env line n cleanup)
    (fun _ s' =>
       marking (X ++ times (Z.to_nat n) (event_marks (EvAbortCheck line false)))
         [] s')
    completed_marks Qe7 s.
Proof.
  intros Hc H.
  apply wp_wait_frames
    with (I := fun k =>
                 marking (X ++ times k (event_marks (EvAbortCheck line false))) []).
  - revert H. apply marking_eq; [| reflexivity].
    unfold times. simpl. rewrite app_nil_r. reflexivity.
  - intros k s0 _ Hs. eapply wp_mono; [| eapply check_marking; eauto].
    intros [] s1 H1. apply marking_flipped in H1. revert H1.
    apply marking_eq; [| reflexivity].
    rewrite times_succ. simpl. rewrite app_nil_r, <- app_assoc. reflexivity.
  - auto.
Qed.

Ltac mark_step :=
  lazymatch goal with
  | |- wp (bind (check_abort _ _ _) _) _ _ _ _ =>
      apply wp_bind; eapply wp_mono;
      [| eapply check_marking; [emits_solve | mark_goal]]; intros [] ? ?
  | |- wp (check_abort _ _ _) _ _ _ _ =>
      eapply wp_mono;
      [| eapply check_marking; [emits_solve | mark_goal]]; intros [] ? ?
  | |- wp (bind (wait_frames _ _ _ _) _) _ _ _ _ =>
      apply wp_bind; eapply wp_mono;
      [| eapply wait_marking; [emits_solve | mark_goal]]; intros [] ? ?
  | |- wp (wait_frames _ _ _ _) _ _ _ _ =>
      eapply wp_mono;
      [| eapply wait_marking; [emits_solve | mark_goal]]; intros [] ? ?
  | |- wp (bind (hold_shape _ _ _) _) _ _ _ _ => fail
  | |- wp (bind (for_each _ _) _) _ _ _ _ => fail
  | |- wp (for_each _ _) _ _ _ _ => fail
  | |- wp _ _ _ _ _ => wp_step
  | |- if _ then _ else _ => wp_step
  | |- _ => mark_goal
  end.

Lemma hold_marking X s :
  marking X [] s ->
  wp (hold_shape self env a) (fun _ s' => marking X [] s') completed_marks Qe7 s.
Proof.
  intros H. unfold hold_shape. apply wp_bind.
  apply wp_for_acc_range_from with (I := fun _ _ s' => marking X [] s').
  - exact H.
  - intros k acc s0 _ Hs. destruct (_ =? _); repeat mark_step.
  - intros acc s0 Hs. repeat mark_step.
Qed.

Lemma training_marking X i s :
  marking X [] s ->
  wp (training_repetition cls self env a i) (fun _ s' => marking X [] s')
    completed_marks Qe7 s.
Proof.
  intros H. unfold training_repetition. repeat mark_step.
  apply wp_bind. eapply wp_mono; [| eapply hold_marking; mark_goal].
  intros [] s1 H1. repeat mark_step.
Qed.

Lemma to_measurement_marking X s :
  marking X [] s ->
  wp (training_to_measurement cls self env a) (fun _ s' => marking X [] s')
    completed_marks Qe7 s.
Proof.
  intros H. unfold training_to_measurement.
  destruct (0 <? _n_train_to_meas_delay self); repeat mark_step.
Qed.

Lemma instructions_marking X s :
  marking X [] s ->
  wp (instruction_sequence cls self env a) (fun _ s' => marking X [] s')
    completed_marks Qe7 s.
Proof. intros H. unfold instruction_sequence. repeat mark_step. Qed.

Lemma cycle_marking X i s :
  marking X [] s ->
  wp (measurement_cycle cls self env a i)
    (fun _ s' =>
       marking
         (X ++ CycleEnded ::
            (if i <? imagination_cycles (_timing self) - 1
             then repeat DelayFrame (Z.to_nat (_n_inter_delay self)) else []))
         [] s')
    completed_marks Qe7 s.
Proof.
  intros H. unfold measurement_cycle.
  destruct (i <? imagination_cycles (_timing self) - 1); repeat mark_step.
Qed.

Lemma measurement_marking X s :
  1 <= imagination_cycles (_timing self) ->
  marking X [] s ->
  wp (measurement_phase cls self env a)
    (fun _ s' =>
       marking
         (X ++ times (Z.to_nat (imagination_cycles (_timing self) - 1))
                 (cycle_then_delay (_n_inter_delay self))
            ++ [CycleEnded])
         [] s')
    completed_marks Qe7 s.
Proof.
  intros HC H. unfold measurement_phase. repeat mark_step.
  set (C := imagination_cycles (_timing self)) in *.
  apply wp_for_range
    with (I := fun k =>
                 marking
                   (X ++ times (Nat.min k (Z.to_nat (C - 1)))
                           (cycle_then_delay (_n_inter_delay self))
                      ++ (if Nat.eqb k (Z.to_nat C) then [CycleEnded] else []))
                   []).
  - eapply marking_eq; cycle 2; [mark_peel | | reflexivity].
    replace (Nat.eqb 0 (Z.to_nat C)) with false
      by (symmetry; apply Nat.eqb_neq; lia).
    simpl. rewrite !app_nil_r. reflexivity.
  - intros k s1 Hk H1. eapply wp_mono; [| apply cycle_marking; exact H1].
    intros [] s2 H2. revert H2. apply marking_eq; [| reflexivity].
    replace (Nat.eqb k (Z.to_nat C)) with false
      by (symmetry; apply Nat.eqb_neq; lia).
    rewrite app_nil_r.
    destruct (Z.of_nat k <? imagination_cycles (_timing self) - 1) eqn:E.
    + apply Z.ltb_lt in E. fold C in E.
      replace (Nat.eqb (S k) (Z.to_nat C)) with false
        by (symmetry; apply Nat.eqb_neq; lia).
      replace (Nat.min (S k) (Z.to_nat (C - 1))) with (S k) by lia.
      replace (Nat.min k (Z.to_nat (C - 1))) with k by lia.
      rewrite times_succ, app_nil_r, <- app_assoc. reflexivity.
    + apply Z.ltb_ge in E. fold C in E.
      replace (Nat.eqb (S k) (Z.to_nat C)) with true
        by (symmetry; apply Nat.eqb_eq; lia).
      replace (Nat.min (S k) (Z.to_nat (C - 1))) with (Z.to_nat (C - 1)) by lia.
      replace (Nat.min k (Z.to_nat (C - 1))) with (Z.to_nat (C - 1)) by lia.
      rewrite <- app_assoc. reflexivity.
  - intros s1. apply marking_eq; [| reflexivity].
    rewrite Nat.eqb_refl.
    replace (Nat.min (Z.to_nat C) (Z.to_nat (C - 1))) with (Z.to_nat (C - 1)) by lia.
    reflexivity.
Qed.

Lemma post_measurement_marking s :
  marking target [] s ->
  wp (post_measurement cls self env a) (fun _ _ => False) completed_marks Qe7 s.
Proof.
  intros H. unfold post_measurement.
  assert (G : forall q s', marking target q s' -> completed_marks true s').
  { intros q s' [_ HX] _. exact HX. }
  destruct (is_last_shape a), (is_last_queue_item a); simpl negb in *;
    cbv iota in *;
    repeat first
      [ wp_step
      | exact I
      | eapply G;
        eapply marking_eq; cycle 2; [mark_peel | mark_eq | reflexivity] ].
Qed.

Lemma run_marking s :
  1 <= imagination_cycles (_timing self) ->
  on_flip_queue s = [] ->
  target = cycle_marks (trace s)
           ++ times (Z.to_nat (imagination_cycles (_timing self) - 1))
                (cycle_then_delay (_n_inter_delay self))
           ++ [CycleEnded] ->
  wp (run cls self env a) (fun _ _ => False) completed_marks Qe7 s.
Proof.
  intros HC Hq Ht. unfold run. apply wp_bind. unfold wp at 1. cbv beta iota.
  assert (H : marking (cycle_marks (trace s)) [] (set_abort false s)).
  { split; [exact Hq | reflexivity]. }
  revert H. generalize (set_abort false s). intros s0 H0.
  repeat mark_step.
  apply wp_bind.
  apply wp_for_range with (I := fun _ => marking (cycle_marks (trace s)) []).
  - mark_goal.
  - intros k s1 _ H1. apply training_marking. exact H1.
  - intros s1 H1.
    apply wp_bind. eapply wp_mono;
      [| apply to_measurement_marking; exact H1].
    intros [] s2 H2.
    apply wp_bind. eapply wp_mono;
      [| apply instructions_marking; exact H2].
    intros [] s3 H3.
    apply wp_bind. eapply wp_mono;
      [| apply measurement_marking; [exact HC | exact H3]].
    intros [] s4 H4.
    apply post_measurement_marking. rewrite Ht. exact H4.
Qed.

End Delay.


End cycles.

(** * Training: holding the shape and stopping the start beep *)
Module training.
Import enums trial_protocol hoare event_order.

(** One frame of the hold: the read of the flag, the redraw, the flip. On a
    plain frame the flip runs no callback; on the stop frame it runs the
    callback that stops the start beep. *)
Definition plain_frame (a : RunArgs) : list Event :=
  [EvAbortCheck 201 false; EvDrawShape (shape_name a); EvFlip []].

Definition stop_frame (a : RunArgs) : list Event :=
  [EvAbortCheck 201 false; EvDrawShape (shape_name a);
   EvFlip [CbAudioStop "start_imagine"]].

Section Hold.
Variables (self : TrialProtocol) (env : Env) (a : RunArgs).
Variable T : list Event.

(** After [k] frames of the hold, [b] being the frame of the stop. *)
Definition held (b k : nat) (beep_stopped : bool) (s : State) : Prop :=
  on_flip_queue s = []
  /\ ((k < b)%nat ->
      beep_stopped = false /\ trace s = T ++ times k (plain_frame a))
  /\ ((b <= k)%nat ->
      beep_stopped = true
      /\ trace s = T ++ times (b - 1) (plain_frame a) ++ stop_frame a
                     ++ times (k - b) (plain_frame a)).

Lemma hold_frame k beep_stopped s :
  1 <= _n_start_beep self ->
  held (Z.to_nat (_n_start_beep self)) k beep_stopped s ->
  wp (check_abort env 201
        (when_ (negb beep_stopped) (audio_stop "start_imagine")) ;;
      beep_stopped' <-
        (if 1 + Z.of_nat k =? _n_start_beep self
         then call_on_flip (CbAudioStop "start_imagine") ;; ret true
         else ret beep_stopped) ;;
      draw_shape (shape_name a) ;;
      flip ;;
      ret beep_stopped')
    (fun acc' s' => held (Z.to_nat (_n_start_beep self)) (S k) acc' s')
    (fun _ _ => True) (fun _ _ => True) s.
Proof.
  intros Hb (Hq & Hlt & Hge). wp_step. wp_step.
  - eapply wp_cleanup; [emits_solve | auto].
  - destruct (1 + Z.of_nat k =? _n_start_beep self) eqn:E.
    + apply Z.eqb_eq in E. repeat wp_step.
      destruct Hlt as [_ Ht]; [lia|].
      split; [reflexivity|]. split; [intros; lia|]. intros _.
      split; [reflexivity|]. autorewrite with state. rewrite Hq, Ht.
      replace (S k - Z.to_nat (_n_start_beep self))%nat with 0%nat by lia.
      replace (Z.to_nat (_n_start_beep self) - 1)%nat with k by lia.
      unfold stop_frame. simpl. rewrite <- !app_assoc. reflexivity.
    + apply Z.eqb_neq in E. repeat wp_step.
      split; [reflexivity|]. split.
      * intros Hk. destruct Hlt as [Ha Ht]; [lia|]. split; [exact Ha|].
        autorewrite with state. rewrite Hq, Ht, times_succ.
        unfold plain_frame. rewrite <- !app_assoc. reflexivity.
      * intros Hk. destruct Hge as [Ha Ht]; [lia|]. split; [exact Ha|].
        autorewrite with state. rewrite Hq, Ht.
        replace (S k - Z.to_nat (_n_start_beep self))%nat
          with (S (k - Z.to_nat (_n_start_beep self))) by lia.
        rewrite times_succ. unfold plain_frame at 3.
        rewrite <- !app_assoc. reflexivity.
Qed.

End Hold.


End training.

(** * The post-measurement instruction *)
Module post.
Import enums trial_protocol hoare event_order.

Definition is_flip (e : Event) : bool :=
  match e with
  | EvFlip _ => true
  | _ => false
  end.

Lemma py_max_lower_bound (x : Q) : (5 <= py_max 5 x)%Q.
Proof.
  unfold py_max, fgt. destruct (Qle_bool x 5) eqn:E; simpl.
  - apply Qle_refl.
  - apply Qlt_le_weak. apply Qnot_le_lt. intros H.
    apply Qle_bool_iff in H. congruence.
Qed.

Lemma positive_wait (d : Q) : (5 <= d)%Q -> fle d 0 = false.
Proof.
  intros H. unfold fle. destruct (Qle_bool d 0) eqn:E; [|reflexivity].
  apply Qle_bool_iff in E. exfalso.
  apply (Qle_not_lt _ _ (Qle_trans _ _ _ H E)). reflexivity.
Qed.

(** What lines 406-431 add to the calls of a run: the phase and stimulus
    callbacks when present, the spoken cue, its row, the wall-clock wait,
    and the TRIAL_END row. *)
Definition post_calls (self : TrialProtocol) (a : RunArgs) (p : EnumMember)
    (stim cue marker : string) (wait : Q) (total : Z) : list Event :=
  (if on_phase_change a then [EvPhaseChange p 5] else [])
  ++ (if on_stimulus_update a then [EvStimulusUpdate stim] else [])
  ++ [EvPlayInstruction cue; EvLog (log_row a marker ""); EvSleep wait]
  ++ (if on_stimulus_update a then [EvStimulusUpdate "idle"] else [])
  ++ [EvLog (log_row a "TRIAL_END"
               ("total_frames=" ++ str_of_int total ++ " cycles="
                ++ str_of_int (imagination_cycles (_timing self))))].

(** C6: the post-measurement block plays exactly one spoken cue, chosen by
    the two flags: "open_your_eyes" when [is_last_shape] is false,
    "experiment_completed" when both flags are true,
    "next_participant_please" when [is_last_shape] is true and
    [is_last_queue_item] is false. It then waits with [precise_sleep] (a
    wall-clock wait: the block makes no flip) for 5 seconds, or for
    [max(5, cue duration + 1)] seconds in the completion case, which is at
    least 5 seconds in every case, logs TRIAL_END and returns [True]. *)
Theorem post_measurement_cue_and_wait cls self env a st p :
  getattr cls "INSTRUCTION_POST" = Some p ->
  exists st' stim cue marker wait,
    post_measurement cls self env a st = (Return true, st')
    /\ trace st'
       = trace st
         ++ post_calls self a p stim cue marker wait (total_frames_recorded st)
    /\ existsb is_flip
         (post_calls self a p stim cue marker wait (total_frames_recorded st))
       = false
    /\ (5 <= wait)%Q
    /\ (is_last_shape a = false ->
        cue = "open_your_eyes" /\ marker = "INSTRUCTION_OPEN_EYES"
        /\ stim = "instruction:open_your_eyes" /\ wait = 5%Q)
    /\ (is_last_shape a = true -> is_last_queue_item a = true ->
        cue = "experiment_completed" /\ marker = "INSTRUCTION_COMPLETED"
        /\ stim = "instruction:experiment_completed"
        /\ wait = py_max 5 (instruction_duration env "experiment_completed" + 1))
    /\ (is_last_shape a = true -> is_last_queue_item a = false ->
        cue = "next_participant_please"
        /\ marker = "INSTRUCTION_NEXT_PARTICIPANT"
        /\ stim = "instruction:next_participant" /\ wait = 5%Q).
Proof.
  intros Hp.
  pose proof (py_max_lower_bound
                (instruction_duration env "experiment_completed" + 1)) as Hmax.
  pose proof (positive_wait _ Hmax) as Hpos.
  assert (H5 : fle 5 0 = false) by reflexivity.
  assert (W : wp (post_measurement cls self env a) (fun _ _ => False)
                (fun b s' =>
                   b = true
                   /\ exists stim cue marker wait,
                        trace s'
                        = trace st
                          ++ post_calls self a p stim cue marker wait
                               (total_frames_recorded st)
                        /\ (5 <= wait)%Q
                        /\ (is_last_shape a = false ->
                            cue = "open_your_eyes"
                            /\ marker = "INSTRUCTION_OPEN_EYES"
                            /\ stim = "instruction:open_your_eyes"
                            /\ wait = 5%Q)
                        /\ (is_last_shape a = true ->
                            is_last_queue_item a = true ->
                            cue = "experiment_completed"
                            /\ marker = "INSTRUCTION_COMPLETED"
                            /\ stim = "instruction:experiment_completed"
                            /\ wait
                               = py_max 5
                                   (instruction_duration env
                                      "experiment_completed" + 1))
                        /\ (is_last_shape a = true ->
                            is_last_queue_item a = false ->
                            cue = "next_participant_please"
                            /\ marker = "INSTRUCTION_NEXT_PARTICIPANT"
                            /\ stim = "instruction:next_participant"
                            /\ wait = 5%Q))
                (fun _ _ => False) st).
  { unfold post_measurement. apply wp_bind. apply wp_attr. rewrite Hp.
    destruct (is_last_shape a), (is_last_queue_item a); simpl negb; cbv iota;
      repeat wp_step;
      (split; [reflexivity|]);
      autorewrite with state; rewrite ?Hpos, ?H5; simpl negb; cbv iota;
      do 4 eexists;
      (split; [unfold post_calls; rewrite <- ?app_assoc; reflexivity|]);
      (split; [first [exact Hmax | apply Qle_refl]|]);
      repeat split; intros; try discriminate; reflexivity. }
  unfold wp in W.
  destruct (post_measurement cls self env a st) as [[[]|b|e] st'];
    try contradiction.
  destruct W as (-> & stim & cue & marker & wait & Ht & Hw & H1 & H2 & H3).
  exists st', stim, cue, marker, wait.
  split; [reflexivity|]. split; [exact Ht|]. split.
  - unfold post_calls.
    destruct (on_phase_change a), (on_stimulus_update a); reflexivity.
  - auto.
Qed.

End post.

(** * The phases [run] names and the phases [core/enums.py] defines *)
Module phases.
Import enums trial_protocol hoare.

(** The members of [TrialPhase] that [run] evaluates in a measurement cycle
    (lines 313, 337, 354, 373, 398). *)
Definition measurement_phase_names : list string :=
  ["MEASUREMENT_START_BEEP"; "MEASUREMENT_RECORDING_DELAY";
   "MEASUREMENT_IMAGINING"; "MEASUREMENT_END_BEEP"; "MEASUREMENT_INTER_DELAY"].

Section EnumsPy.
Variables (self : TrialProtocol) (env : Env) (a : RunArgs).

(** With the class of [core/enums.py], a run ends by returning [False] or by
    raising AttributeError on the first name the class lacks. *)
Definition aborted (b : bool) (_ : State) : Prop := b = false.

Definition missing_member (e : Exn) (_ : State) : Prop :=
  e = AttributeError "MEASUREMENT_START_BEEP".

Lemma check_any line cleanup tail s :
  emits cleanup tail ->
  wp (check_abort env line cleanup) (fun _ _ => True) aborted missing_member s.
Proof.
  intros Hc. wp_step.
  - eapply wp_cleanup; [exact Hc|]. intros; reflexivity.
  - exact I.
Qed.

Lemma wait_any line n cleanup tail s :
  emits cleanup tail ->
  wp (wait_frames env line n cleanup) (fun _ _ => True) aborted missing_member s.
Proof.
  intros Hc. apply wp_wait_frames with (I := fun _ _ => True); auto.
  intros k s0 _ _. eapply wp_mono; [| eapply check_any; exact Hc]. auto.
Qed.

Ltac any_step :=
  lazymatch goal with
  | |- wp (bind (check_abort _ _ _) _) _ _ _ _ =>
      apply wp_bind; eapply wp_mono;
      [| eapply check_any; emits_solve]; intros [] ? _
  | |- wp (check_abort _ _ _) _ _ _ _ =>
      eapply wp_mono; [| eapply check_any; emits_solve]; intros [] ? _
  | |- wp (bind (wait_frames _ _ _ _) _) _ _ _ _ =>
      apply wp_bind; eapply wp_mono;
      [| eapply wait_any; emits_solve]; intros [] ? _
  | |- wp (wait_frames _ _ _ _) _ _ _ _ =>
      eapply wp_mono; [| eapply wait_any; emits_solve]; intros [] ? _
  | |- wp (bind (hold_shape _ _ _) _) _ _ _ _ => fail
  | |- wp (bind (for_each _ _) _) _ _ _ _ => fail
  | |- wp (for_each _ _) _ _ _ _ => fail
  | |- wp _ _ _ _ _ => wp_step
  | |- if _ then _ else _ => wp_step
  | |- True => exact I
  | Eattr : getattr _ _ = None |- missing_member _ _ =>
      first [ reflexivity | vm_compute in Eattr; discriminate Eattr ]
  end.

Lemma hold_any s :
  wp (hold_shape self env a) (fun _ _ => True) aborted missing_member s.
Proof.
  unfold hold_shape. apply wp_bind.
  apply wp_for_acc_range_from with (I := fun _ _ _ => True).
  - exact I.
  - intros k acc s0 _ _. destruct (_ =? _); repeat any_step.
  - intros acc s0 _. repeat any_step.
Qed.

Lemma training_any i s :
  wp (training_repetition TrialPhase self env a i) (fun _ _ => True)
    aborted missing_member s.
Proof.
  unfold training_repetition. repeat any_step.
  apply wp_bind. eapply wp_mono; [| apply hold_any].
  intros [] s1 _. repeat any_step.
Qed.

Lemma to_measurement_any s :
  wp (training_to_measurement TrialPhase self env a) (fun _ _ => True)
    aborted missing_member s.
Proof.
  unfold training_to_measurement.
  destruct (0 <? _n_train_to_meas_delay self); repeat any_step.
Qed.

Lemma instructions_any s :
  wp (instruction_sequence TrialPhase self env a) (fun _ _ => True)
    aborted missing_member s.
Proof. unfold instruction_sequence. repeat any_step. Qed.

Lemma first_cycle_never_ends i s :
  wp (measurement_cycle TrialPhase self env a i) (fun _ _ => False)
    aborted missing_member s.
Proof.
  unfold measurement_cycle. any_step. apply wp_bind. apply wp_attr.
  change (getattr TrialPhase "MEASUREMENT_START_BEEP") with (@None EnumMember).
  reflexivity.
Qed.

Lemma measurement_never_ends s :
  1 <= imagination_cycles (_timing self) ->
  wp (measurement_phase TrialPhase self env a) (fun _ _ => False)
    aborted missing_member s.
Proof.
  intros HC. unfold measurement_phase. repeat any_step.
  apply wp_for_range with (I := fun k _ => k = 0%nat).
  - reflexivity.
  - intros k s1 _ _. eapply wp_mono; [| apply first_cycle_never_ends].
    intros [] s2 [].
  - intros s1 Hk. lia.
Qed.

Lemma run_with_enums_py s :
  1 <= imagination_cycles (_timing self) ->
  wp (run TrialPhase self env a) (fun _ _ => False) aborted missing_member s.
Proof.
  intros HC. unfold run. apply wp_bind. unfold wp at 1. cbv beta iota.
  generalize (set_abort false s). intros s0.
  repeat any_step.
  apply wp_bind. apply wp_for_range with (I := fun _ _ => True).
  - exact I.
  - intros k s1 _ _. apply training_any.
  - intros s1 _.
    apply wp_bind. eapply wp_mono; [| apply to_measurement_any].
    intros [] s2 _.
    apply wp_bind. eapply wp_mono; [| apply instructions_any].
    intros [] s3 _.
    apply wp_bind. eapply wp_mono; [| apply measurement_never_ends; exact HC].
    intros [] s4 [].
Qed.

End EnumsPy.

(** With [TrialPhase] as [core/enums.py] defines it, no run configured with
    at least one imagination cycle returns [True]: it returns [False] on an
    abort, and otherwise raises AttributeError for MEASUREMENT_START_BEEP
    when it enters the first cycle. *)
Lemma run_with_enums_py_never_completes self env a st :
  1 <= imagination_cycles (_timing self) ->
  exists st',
    run TrialPhase self env a st = (Return false, st')
    \/ run TrialPhase self env a st
       = (Raise (AttributeError "MEASUREMENT_START_BEEP"), st').
Proof.
  intros HC. pose proof (run_with_enums_py self env a st HC) as W.
  unfold wp in W.
  destruct (run TrialPhase self env a st) as [[[]|b|e] st']; [destruct W | |].
  - exists st'. left. unfold aborted in W. subst b. reflexivity.
  - exists st'. right. unfold missing_member in W. subst e. reflexivity.
Qed.

End phases.

(** * data/event_logger.py *)
Module event_logger.

(** The file behind the logger: the rows that have reached the disk, the
    rows written but still in the buffer, and whether it has been closed. *)
Record File := mkFile {
  flushed : list (list string);
  buffered : list (list string);
  closed : bool
}.

Record EventLogger := mkLogger {
  _path : string;
  _start_time : option Q;
  _file : File
}.

Inductive Error :=
| ValueError.    (* I/O operation on closed file *)

(** [EventLogger.HEADER], lines 20-23. *)
Definition HEADER : list string :=
  ["timestamp_s"; "elapsed_ms"; "event_type"; "subject"; "shape"; "rep";
   "detail"].

(** [csv.writer.writerow] and [file.flush]. *)
Definition writerow (row : list string) (f : File) : Error + File :=
  if closed f then inl ValueError
  else inr (mkFile (flushed f) (buffered f ++ [row]) false).

Definition flush (f : File) : Error + File :=
  if closed f then inl ValueError
  else inr (mkFile (flushed f ++ buffered f) [] false).

(** [open(path, "w")]: a new, empty file. *)
Definition open_w : File := mkFile [] [] false.

Section Logger.
(** [f"{x:.Nf}"]: Python's fixed-point formatting of a float, taken as
    given. *)
Variable format_fixed : nat -> Q -> string.

(** [EventLogger.__init__], lines 25-32. *)
Definition __init__ (path : string) : Error + EventLogger :=
  match writerow HEADER open_w with
  | inl e => inl e
  | inr f =>
      match flush f with
      | inl e => inl e
      | inr f' => inr (mkLogger path None f')
      end
  end.

(** [start_clock], with the reading of [time.perf_counter()]. *)
Definition start_clock (now : Q) (self : EventLogger) : EventLogger :=
  mkLogger (_path self) (Some now) (_file self).

(** Line 48: [(now - self._start_time) * 1000 if self._start_time else 0.0];
    a start time of [None] or [0.0] is falsy. *)
Definition elapsed_ms (now : Q) (self : EventLogger) : Q :=
  match _start_time self with
  | Some t0 => if Qeq_bool t0 0 then 0 else (now - t0) * 1000
  | None => 0
  end.

(** The row of lines 50-58. *)
Definition row_of (now : Q) (self : EventLogger)
    (event_type subject shape rep detail : string) : list string :=
  [format_fixed 6 now; format_fixed 3 (elapsed_ms now self);
   event_type; subject; shape; rep; detail].

(** [EventLogger.log], lines 38-59, with the reading of
    [time.perf_counter()]; the lock is held around the write and the
    flush. *)
Definition log (now : Q) (event_type subject shape rep detail : string)
    (self : EventLogger) : Error + EventLogger :=
  match writerow (row_of now self event_type subject shape rep detail)
          (_file self) with
  | inl e => inl e
  | inr f =>
      match flush f with
      | inl e => inl e
      | inr f' => inr (mkLogger (_path self) (_start_time self) f')
      end
  end.

(** [EventLogger.close] *)
Definition close (self : EventLogger) : EventLogger :=
  mkLogger (_path self) (_start_time self)
    (mkFile (flushed (_file self)) (buffered (_file self)) true).

(** The constructor leaves the header on disk and nothing in the buffer. *)
Lemma init_writes_header path :
  exists self,
    __init__ path = inr self
    /\ flushed (_file self) = [HEADER] /\ buffered (_file self) = []
    /\ closed (_file self) = false.
Proof. eexists. repeat split. Qed.


End Logger.


End event_logger.

(** * hardware/camera_webcam.py: starting and stopping a recording *)
Module camera_webcam.

(** The recording thread of [start_recording]: still in its loop, or
    finished. *)
Inductive Thread := Running | Finished.

(** What the module's [logging] logger receives from the recording thread. *)
Inductive LogRecord :=
| ErrorWriterNotOpened (path : string)
| InfoRecordingStarted (path : string)
| InfoRecordingStopped (frames : Z).

(** The attributes that [start_recording], [_record_loop], [stop_recording]
    and [is_recording] use; the capture device and the preview frames play
    no part in them. *)
Record WebcamCamera := mkCamera {
  _recording : bool;
  _record_thread : option Thread;
  _frames_captured : Z;
  _stop_event : bool;
  logged : list LogRecord
}.

(** [WebcamCamera.__init__], lines 23-34. *)
Definition __init__ : WebcamCamera := mkCamera false None 0 false [].

(** [is_recording], lines 157-158. *)
Definition is_recording (self : WebcamCamera) : bool := _recording self.

(** [start_recording], lines 99-110, together with the first lines of the
    thread it starts (lines 112-130): [writer_opens] says whether the
    VideoWriter could be opened; if not, the thread logs an error, clears
    [_recording] and ends. *)
Definition start_recording (output_path : string) (fps : Q)
    (writer_opens : bool) (self : WebcamCamera) : WebcamCamera :=
  if _recording self then self
  else if writer_opens then
    mkCamera true (Some Running) 0 false
      (logged self ++ [InfoRecordingStarted output_path])
  else
    mkCamera false (Some Finished) 0 false
      (logged self ++ [ErrorWriterNotOpened output_path]).

(** The loop of the recording thread (lines 133-143) writing [n] more
    frames. *)
Definition capture (n : Z) (self : WebcamCamera) : WebcamCamera :=
  match _record_thread self with
  | Some Running =>
      mkCamera (_recording self) (_record_thread self)
        (_frames_captured self + n) (_stop_event self) (logged self)
  | _ => self
  end.

(** [stop_recording], lines 151-155: set the stop event, join the thread if
    there is one, return the count. A running thread, seeing the event,
    leaves its loop after [late] more frames, clears [_recording] and logs
    (lines 144-149); joining a finished thread returns at once. The join is
    taken to end within its timeout. *)
Definition stop_recording (late : Z) (self : WebcamCamera)
  : Z * WebcamCamera :=
  let signalled :=
    mkCamera (_recording self) (_record_thread self) (_frames_captured self)
      true (logged self) in
  match _record_thread self with
  | Some Running =>
      let frames := _frames_captured self + late in
      (frames,
       mkCamera false (Some Finished) frames true
         (logged self ++ [InfoRecordingStopped frames]))
  | _ => (_frames_captured signalled, signalled)
  end.

(** The cameras that the constructor and these methods lead to. *)
Inductive reachable : WebcamCamera -> Prop :=
| reach_init : reachable __init__
| reach_start path fps opens s :
    reachable s -> reachable (start_recording path fps opens s)
| reach_capture n s : reachable s -> reachable (capture n s)
| reach_stop late s : reachable s -> reachable (snd (stop_recording late s)).

(** The recording flag is set exactly while the thread is in its loop. *)
Lemma recording_iff_thread_running s :
  reachable s -> (_recording s = true <-> _record_thread s = Some Running).
Proof.
  induction 1 as [|path fps opens s H IH|n s H IH|late s H IH].
  - simpl. split; discriminate.
  - unfold start_recording. destruct (_recording s) eqn:E;
      [rewrite E; exact IH|].
    destruct opens; simpl; split; auto; discriminate.
  - unfold capture.
    destruct (_record_thread s) as [[]|] eqn:E; simpl; rewrite ?E; exact IH.
  - unfold stop_recording.
    destruct (_record_thread s) as [[]|] eqn:E; simpl; rewrite ?E.
    + split; discriminate.
    + exact IH.
    + exact IH.
Qed.

End camera_webcam.

(** * The audio manager *)
Module audio_manager.

(** Modelled from the spec: audio/audio_manager.py is absent. The Audio Cue
    Player plays and stops named pre-rendered cues; [play] starts the cue
    and [stop] stops it, and stopping a cue that is not playing is a no-op
    that raises nothing and logs nothing. The model keeps the cues that are
    sounding and the records the manager has logged. *)
Record AudioManager := mkAudioManager {
  playing : list string;
  audio_logged : list string
}.

Definition is_playing (name : string) (self : AudioManager) : bool :=
  existsb (String.eqb name) (playing self).

Definition play (name : string) (self : AudioManager) : AudioManager :=
  if is_playing name self then self
  else mkAudioManager (playing self ++ [name]) (audio_logged self).

Definition stop (name : string) (self : AudioManager) : AudioManager :=
  if is_playing name self
  then mkAudioManager
         (filter (fun n => negb (String.eqb name n)) (playing self))
         (audio_logged self)
  else self.

End audio_manager.

(** * Stopping what is not running *)
Module idempotence.
Import camera_webcam audio_manager.



End idempotence.

(** * Concrete trials *)
Module scenario.
Import enums trial_protocol hoare.

(** Modelled from the spec: stimulus/stimulus_window.py is absent. A window
    refreshing [hz] times a second rounds a duration to the nearest whole
    number of refresh intervals. *)
Definition window_at (hz : Z) : StimulusWindow :=
  mkWindow (fun d => Qfloor (d * inject_Z hz + (1 # 2))) (1 / inject_Z hz).

(** A short trial on a 2 Hz window: one training flash of 2 s with 1 s of
    blank, three imagination cycles of 4 s with a 1 s recording delay and
    1 s between cycles, beeps of 1 s. *)
Definition timing3 : TimingSettings := mkTiming 2 1 1 0 1 4 1 3.
Definition audio1 : AudioSettings := mkAudio 1 1.
Definition protocol3 : TrialProtocol := fst (__init__ timing3 audio1 (window_at 2)).

(** The same trial with no imagination cycle. *)
Definition timing0 : TimingSettings := mkTiming 2 1 1 0 1 4 1 0.
Definition protocol0 : TrialProtocol := fst (__init__ timing0 audio1 (window_at 2)).

Definition args1 : RunArgs :=
  mkArgs (ShapeMember CIRCLE) "s1" 1
    (fun c => ("cycle_" ++ str_of_int c ++ ".avi")%string)
    false false true true true.

(** Nobody asks for an abort; the [k]-th recording captures [100 + k]
    frames. *)
Definition env_quiet : Env :=
  mkEnv (fun _ => false) (fun k => 100 + Z.of_nat k) (fun _ => 3%Q) None.

(** [request_abort] arrives just before read number 36 of the flag, which is
    the second frame of the recording wait of cycle 2. *)
Definition env_abort_in_cycle2 : Env :=
  mkEnv (fun k => Nat.eqb k 36) (fun k => 100 + Z.of_nat k) (fun _ => 3%Q) None.

Definition fresh : State := mkState false [] [] 0 0 0 0.

Lemma outcome_and_state {A} (r : Outcome A * State) (o : Outcome A) :
  fst r = o -> r = (o, snd r).
Proof. intros <-. destruct r; reflexivity. Qed.

(** The spec's first example: at 60 Hz a shape of 1.0 s and a blank of 0.5 s
    are 60 and 30 frames; its second: an imagination of 10 s with a start
    beep of 0.5 s and a recording delay of 1 s records 510 frames (8.5 s).
    A recording delay longer than the imagination clamps to 1 frame. *)
Example frame_counts_at_60_hz :
  let p := fst (__init__ (mkTiming 1 (1 # 2) 2 0 1 10 1 3) (mkAudio (1 # 2) (1 # 2))
                  (window_at 60)) in
  let q := fst (__init__ (mkTiming 1 (1 # 2) 2 0 20 10 1 3) (mkAudio (1 # 2) (1 # 2))
                  (window_at 60)) in
  (_n_shape p, _n_blank p, _n_recording_frames p) = (60, 30, 510)
  /\ _n_recording_frames q = 1.
Proof. vm_compute. split; reflexivity. Qed.

(** C1: [core/enums.py] defines none of the five members that [run]
    evaluates in a measurement cycle, although [ProgressPanel.set_phase]
    keys its table with all of them; so a trial with three cycles that
    nobody aborts raises AttributeError on entering its first cycle, after
    the training and the instructions and before any recording. *)
Theorem enums_py_lacks_measurement_phases :
  map (defines TrialPhase) phases.measurement_phase_names
  = [false; false; false; false; false]
  /\ map (defines TrialPhase_of_progress_panel) phases.measurement_phase_names
     = [true; true; true; true; true]
  /\ fst (run TrialPhase protocol3 env_quiet args1 fresh)
     = Raise (AttributeError "MEASUREMENT_START_BEEP")
  /\ event_order.logged_types
       (trace (snd (run TrialPhase protocol3 env_quiet args1 fresh)))
     = ["TRIAL_START"; "TRAINING_START_BEEP"; "TRAINING_SHAPE_ON";
        "TRAINING_END_BEEP"; "TRAINING_SHAPE_OFF"; "INSTRUCTION_CLOSE_EYES";
        "INSTRUCTION_STARTING"]
  /\ fst (run TrialPhase_of_progress_panel protocol3 env_quiet args1 fresh)
     = Return true.
Proof. vm_compute. repeat split; reflexivity. Qed.




(** Counterexample to C4 as stated: completed runs whose log is not the
    sequence of the claim, once with the class of [core/enums.py] (and no
    cycle, the only way such a run completes), once with the class the rest
    of the repository uses and three cycles. Both logs start with
    TRIAL_START, carry the shape-on and shape-off markers, and have the
    post-measurement marker before TRIAL_END. *)
Lemma log_differs_from_claimed_order :
  (let r := run TrialPhase protocol0 env_quiet args1 fresh in
   fst r = Return true
   /\ event_order.logged_types (trace (snd r))
      = ["TRIAL_START"; "TRAINING_START_BEEP"; "TRAINING_SHAPE_ON";
         "TRAINING_END_BEEP"; "TRAINING_SHAPE_OFF"; "INSTRUCTION_CLOSE_EYES";
         "INSTRUCTION_STARTING"; "INSTRUCTION_OPEN_EYES"; "TRIAL_END"]
   /\ event_order.claimed_order protocol0
      = ["TRAINING_START_BEEP"; "TRAINING_END_BEEP"; "INSTRUCTION_CLOSE_EYES";
         "INSTRUCTION_STARTING"; "TRIAL_END"]
   /\ event_order.logged_types (trace (snd r))
      <> event_order.claimed_order protocol0)
  /\ (let r := run TrialPhase_of_progress_panel protocol3 env_quiet args1 fresh in
      fst r = Return true
      /\ event_order.logged_types (trace (snd r))
         <> event_order.claimed_order protocol3).
Proof.
  cbv zeta. vm_compute.
  repeat split; try reflexivity; intros H; discriminate H.
Qed.

(** Witness of C4. *)
Lemma three_cycles_log_canonical_order :
  let r := run TrialPhase_of_progress_panel protocol3 env_quiet args1 fresh in
  on_flip_queue fresh = []
  /\ fst r = Return true
  /\ event_order.logged_types (trace (snd r))
     = event_order.logged_types (trace fresh)
       ++ event_order.canonical_order protocol3 args1.
Proof.
  cbv zeta.
  eassert (E : run TrialPhase_of_progress_panel protocol3 env_quiet args1 fresh
               = _) by (vm_compute; reflexivity).
  rewrite E. cbn [fst snd].
  split; [reflexivity|]. split; [reflexivity|].
  exact (event_order.completed_run_logs_canonical_order
           TrialPhase_of_progress_panel protocol3 env_quiet args1 fresh _
           eq_refl E).
Defined.



(** Witness of C6, with the class of [core/enums.py]. *)
Lemma post_measurement_after_last_item :
  let a := mkArgs (ShapeMember CIRCLE) "s1" 1 (fun _ => "v.avi") true true
             true true true in
  getattr TrialPhase "INSTRUCTION_POST" = Some (mkMember "INSTRUCTION_POST" 9)
  /\ exists st' stim cue marker wait,
       post_measurement TrialPhase protocol3 env_quiet a fresh
       = (Return true, st')
       /\ trace st'
          = trace fresh
            ++ post.post_calls protocol3 a (mkMember "INSTRUCTION_POST" 9)
                 stim cue marker wait (total_frames_recorded fresh)
       /\ existsb post.is_flip
            (post.post_calls protocol3 a (mkMember "INSTRUCTION_POST" 9)
               stim cue marker wait (total_frames_recorded fresh))
          = false
       /\ (5 <= wait)%Q
       /\ (is_last_shape a = false ->
           cue = "open_your_eyes" /\ marker = "INSTRUCTION_OPEN_EYES"
           /\ stim = "instruction:open_your_eyes" /\ wait = 5%Q)
       /\ (is_last_shape a = true -> is_last_queue_item a = true ->
           cue = "experiment_completed" /\ marker = "INSTRUCTION_COMPLETED"
           /\ stim = "instruction:experiment_completed"
           /\ wait
              = py_max 5
                  (instruction_duration env_quiet "experiment_completed" + 1))
       /\ (is_last_shape a = true -> is_last_queue_item a = false ->
           cue = "next_participant_please"
           /\ marker = "INSTRUCTION_NEXT_PARTICIPANT"
           /\ stim = "instruction:next_participant" /\ wait = 5%Q).
Proof.
  cbv zeta.
  assert (Hp : getattr TrialPhase "INSTRUCTION_POST"
               = Some (mkMember "INSTRUCTION_POST" 9)) by reflexivity.
  split; [exact Hp|].
  exact (post.post_measurement_cue_and_wait TrialPhase protocol3 env_quiet _
           fresh _ Hp).
Defined.

(** With the class of [core/enums.py], the trial of three cycles ends in
    one of the two ways that are left to it. *)
Lemma three_cycles_with_enums_py :
  1 <= imagination_cycles (_timing protocol3)
  /\ exists st',
       run TrialPhase protocol3 env_quiet args1 fresh = (Return false, st')
       \/ run TrialPhase protocol3 env_quiet args1 fresh
          = (Raise (AttributeError "MEASUREMENT_START_BEEP"), st').
Proof.
  assert (HC : 1 <= imagination_cycles (_timing protocol3))
    by (vm_compute; discriminate).
  split; [exact HC|].
  exact (phases.run_with_enums_py_never_completes protocol3 env_quiet args1
           fresh HC).
Defined.

(** A [request_abort] made before the call is wiped by the reset at entry:
    the trial completes. One that arrives during the trial makes it return
    [False]. *)
Example request_before_run_is_ignored :
  fst (run TrialPhase_of_progress_panel protocol3 env_quiet args1
         (request_abort fresh))
  = Return true
  /\ fst (run TrialPhase_of_progress_panel protocol3 env_abort_in_cycle2 args1
            fresh)
     = Return false.
Proof. vm_compute. split; reflexivity. Qed.

(** A start beep of no frame at all is outside the theorem on the hold: the
    loop index starts at 1 and never equals 0, so no flip stops the beep and
    it is stopped after the loop. *)
Example beep_of_no_frame_is_stopped_after_the_hold :
  let p := fst (__init__ timing3 (mkAudio 0 1) (window_at 2)) in
  (_n_start_beep p, _n_shape p) = (0, 4)
  /\ trace (snd (hold_shape p env_quiet args1 fresh))
     = event_order.times 3 (training.plain_frame args1)
       ++ [EvAudioStop "start_imagine"].
Proof. vm_compute. split; reflexivity. Qed.

End scenario.

(** * Further properties of the sources

    The modules below go beyond the statements above. [release],
    [schedule], [progress], [polling] and [announcements] follow whole runs
    of [TrialProtocol.run]; [camera_lifecycle] and [event_session] compose
    the methods of hardware/camera_webcam.py and data/event_logger.py;
    [app_memory], [session_manager], [timing], [shape_names],
    [excel_logger], [main_experiment_monitor], [estimate], [progress_panel]
    and [audio] embed data/app_memory.py, data/session_manager.py,
    utils/timing.py, [Shape.from_string] of core/enums.py,
    data/excel_logger.py, data/main_experiment_monitor.py, the two duration
    estimates of gui/main_window.py and
    gui/dialogs/experiment_settings_dialog.py, [set_phase] of
    gui/panels/progress_panel.py and audio/__init__.py. *)

(** * What a run still holds when it returns *)
Module release.
Import enums trial_protocol hoare abort event_order.

(** What the calls of a run have left behind: the camera mode (as
    [camera_after]), the cues that were played and not stopped since, whether
    a TRIAL_END row was logged, and whether the last row logged is a
    RECORDING_START. *)
Record Held := mkHeld {
  camera : option bool;
  sounding : list string;
  ended : bool;
  at_recording_start : bool
}.

Definition silence (name : string) (l : list string) : list string :=
  filter (fun n => negb (String.eqb n name)) l.

Definition row_step (h : Held) (r : LogCall) : Held :=
  mkHeld (camera h) (sounding h)
    (ended h || String.eqb (row_event_type r) "TRIAL_END")
    (String.eqb (row_event_type r) "RECORDING_START").

Definition callback_step (h : Held) (cb : Callback) : Held :=
  match cb with
  | CbAudioPlay name =>
      mkHeld (camera h) (name :: silence name (sounding h)) (ended h)
        (at_recording_start h)
  | CbAudioStop name =>
      mkHeld (camera h) (silence name (sounding h)) (ended h)
        (at_recording_start h)
  | CbLog r => row_step h r
  end.

Definition held_step (h : Held) (e : Event) : Held :=
  match e with
  | EvFlip fired => fold_left callback_step fired h
  | EvAudioStop name => callback_step h (CbAudioStop name)
  | EvLog r => row_step h r
  | EvStartRecording _ _ | EvStopRecording _ =>
      mkHeld (camera_step (camera h) e) (sounding h) (ended h)
        (at_recording_start h)
  | _ => h
  end.

Definition nothing_held : Held := mkHeld (Some false) [] false false.

Definition held (evs : list Event) : Held := fold_left held_step evs nothing_held.

(** The cues a run has played and not stopped. *)
Definition still_sounding (evs : list Event) : list string := sounding (held evs).

(** What a run does after a read that saw the flag: nothing, or one stop. *)
Definition cleanup_only (tail : list Event) : bool :=
  match tail with
  | [] | [EvAudioStop _] | [EvStopRecording _] => true
  | _ => false
  end.

(** ** The record against the trace *)

Lemma camera_callbacks fired h :
  camera (fold_left callback_step fired h) = camera h.
Proof.
  revert h. induction fired as [|cb fired IH]; intros h; simpl; [reflexivity|].
  rewrite IH. destruct cb; reflexivity.
Qed.

Lemma camera_held_from evs h :
  camera (fold_left held_step evs h) = fold_left camera_step evs (camera h).
Proof.
  revert h. induction evs as [|e evs IH]; intros h; simpl; [reflexivity|].
  rewrite IH. f_equal. destruct e; try reflexivity. apply camera_callbacks.
Qed.

Lemma camera_held evs : camera (held evs) = camera_after evs.
Proof. apply camera_held_from. Qed.

Definition is_trial_end (t : string) : bool := String.eqb t "TRIAL_END".

Lemma ended_callbacks fired h :
  ended (fold_left callback_step fired h)
  = (ended h
     || existsb is_trial_end
          (map row_event_type (flat_map callback_rows fired)))%bool.
Proof.
  revert h. induction fired as [|cb fired IH]; intros h; simpl.
  - rewrite orb_false_r. reflexivity.
  - rewrite IH. destruct cb; simpl; rewrite ?orb_assoc; reflexivity.
Qed.

Lemma ended_held_from evs h :
  ended (fold_left held_step evs h)
  = (ended h || existsb is_trial_end (logged_types evs))%bool.
Proof.
  revert h. induction evs as [|e evs IH]; intros h.
  - simpl. rewrite orb_false_r. reflexivity.
  - change (e :: evs) with ([e] ++ evs). rewrite logged_types_app, existsb_app.
    simpl fold_left. rewrite IH, orb_assoc. f_equal.
    unfold logged_types, logged. simpl flat_map. rewrite app_nil_r.
    destruct e; simpl; rewrite ?orb_false_r; try reflexivity.
    apply ended_callbacks.
Qed.

Lemma not_ended_no_trial_end evs :
  ended (held evs) = false -> ~ In "TRIAL_END" (logged_types evs).
Proof.
  unfold held. rewrite ended_held_from. simpl. intros H Hin.
  assert (E : existsb is_trial_end (logged_types evs) = true).
  { apply existsb_exists. exists "TRIAL_END". split; [exact Hin | reflexivity]. }
  congruence.
Qed.

(** The type of the last row, when there is a row. *)
Definition last_type (types : list string) (d : bool) : bool :=
  match rev types with
  | [] => d
  | t :: _ => String.eqb t "RECORDING_START"
  end.

Lemma last_type_app l1 l2 d : last_type (l1 ++ l2) d = last_type l2 (last_type l1 d).
Proof.
  unfold last_type. rewrite rev_app_distr.
  destruct (rev l2) as [|t r]; simpl; reflexivity.
Qed.

Lemma at_start_callbacks fired h :
  at_recording_start (fold_left callback_step fired h)
  = last_type (map row_event_type (flat_map callback_rows fired))
      (at_recording_start h).
Proof.
  revert h. induction fired as [|cb fired IH]; intros h; simpl; [reflexivity|].
  rewrite IH. destruct cb; simpl; try reflexivity.
  change (row_event_type row :: map row_event_type (flat_map callback_rows fired))
    with ([row_event_type row] ++ map row_event_type (flat_map callback_rows fired)).
  rewrite last_type_app. reflexivity.
Qed.

Lemma at_start_held_from evs h :
  at_recording_start (fold_left held_step evs h)
  = last_type (logged_types evs) (at_recording_start h).
Proof.
  revert h. induction evs as [|e evs IH]; intros h; [reflexivity|].
  change (e :: evs) with ([e] ++ evs). rewrite logged_types_app, last_type_app.
  simpl fold_left. rewrite IH. f_equal.
  unfold logged_types, logged. simpl flat_map. rewrite app_nil_r.
  destruct e; try reflexivity. apply at_start_callbacks.
Qed.

Lemma eqb_true_eq (s t : string) : String.eqb s t = true -> s = t.
Proof. apply String.eqb_eq. Qed.

Lemma at_start_last_row evs :
  at_recording_start (held evs) = true ->
  last (logged_types evs) "" = "RECORDING_START".
Proof.
  unfold held. rewrite at_start_held_from. simpl. unfold last_type.
  destruct (rev (logged_types evs)) as [|t r] eqn:E; [discriminate|].
  intros H. apply eqb_true_eq in H. subst t.
  apply (f_equal (@rev string)) in E. rewrite rev_involutive in E. rewrite E.
  simpl. apply last_last.
Qed.

Lemma held_snoc evs e : held (evs ++ [e]) = held_step (held evs) e.
Proof. unfold held. rewrite fold_left_app. reflexivity. Qed.

Lemma held_app evs tail : held (evs ++ tail) = fold_left held_step tail (held evs).
Proof. unfold held. rewrite fold_left_app. reflexivity. Qed.

(** ** Cleanups that leave the flip queue alone *)
Section Cleans.
Variable env : Env.

Definition cleans (c : M unit) (tail : State -> list Event) : Prop :=
  forall s, exists s',
    c s = (Normal tt, s') /\ trace s' = trace s ++ tail s
    /\ on_flip_queue s' = on_flip_queue s.

Lemma cleans_nothing : cleans (ret tt) (fun _ => []).
Proof. intros s. exists s. rewrite app_nil_r. auto. Qed.

Lemma cleans_audio_stop name : cleans (audio_stop name) (fun _ => [EvAudioStop name]).
Proof. intros s. eexists. repeat split; reflexivity. Qed.

Lemma cleans_audio_stop_when c name :
  cleans (when_ c (audio_stop name)) (fun _ => if c then [EvAudioStop name] else []).
Proof. destruct c; [apply cleans_audio_stop | apply cleans_nothing]. Qed.

Lemma cleans_stop_recording :
  cleans (_ <- stop_recording env ;; ret tt)
    (fun s => [EvStopRecording (frames_captured env (n_stops s))]).
Proof. intros s. eexists. repeat split; reflexivity. Qed.

End Cleans.

Section Tracking.
Variables (cls : EnumClass) (self : TrialProtocol) (env : Env) (a : RunArgs).
Variable T0 : list Event.

(** So far no read saw the flag set, the calls of the run have left [h],
    and [q] waits for the next flip. *)
Definition tracking (h : Held) (q : list Callback) (s : State) : Prop :=
  exists new,
    trace s = T0 ++ new /\ existsb saw_abort new = false
    /\ held new = h /\ on_flip_queue s = q.

(** How a run returns: the camera idle with every recording stopped once, no
    cue left sounding, no callback waiting; TRIAL_END logged exactly when it
    returns [True]; and when it returns [False], nothing but the cleanup
    after the one read that saw the flag set. *)
Definition returned_clean (b : bool) (s : State) : Prop :=
  exists new,
    trace s = T0 ++ new
    /\ on_flip_queue s = []
    /\ camera (held new) = Some false
    /\ sounding (held new) = []
    /\ ended (held new) = b
    /\ (b = false ->
        exists pre line tail,
          new = pre ++ EvAbortCheck line true :: tail
          /\ existsb saw_abort pre = false
          /\ cleanup_only tail = true
          /\ (line = 358%nat -> at_recording_start (held new) = true)).

Definition raised_unseen (_ : Exn) (s : State) : Prop :=
  exists new, trace s = T0 ++ new /\ existsb saw_abort new = false.

Lemma tracking_eq h h' q q' s :
  h = h' -> q = q' -> tracking h q s -> tracking h' q' s.
Proof. intros -> ->. auto. Qed.

Lemma tracking_emitted h q e s :
  saw_abort e = false ->
  tracking h q s -> tracking (held_step h e) q (emitted e s).
Proof.
  intros N (new & E & Q & H & Hq). exists (new ++ [e]).
  rewrite trace_emitted, E, app_assoc, existsb_snoc, Q, N, held_snoc, H.
  auto.
Qed.

Lemma tracking_unseen h q c e s :
  (forall h', held_step h' e = h') -> saw_abort e = false ->
  tracking h q s -> tracking h q (emitted_if c e s).
Proof.
  intros He N H. destruct c; [| exact H].
  rewrite <- (He h). apply tracking_emitted; assumption.
Qed.

Lemma tracking_same h q s s' :
  on_flip_queue s' = on_flip_queue s -> trace s' = trace s ->
  tracking h q s -> tracking h q s'.
Proof. intros Eq Et (new & E & H). exists new. rewrite Eq, Et. auto. Qed.

Lemma tracking_beeped h q t s : tracking h q s -> tracking h q (beeped a t s).
Proof.
  intros H. unfold beeped. apply tracking_unseen; [reflexivity | reflexivity |].
  revert H. apply tracking_same; reflexivity.
Qed.

Lemma tracking_checked h q line s :
  tracking h q s -> tracking h q (checked line false s).
Proof. apply (tracking_emitted h q (EvAbortCheck line false)). reflexivity. Qed.

Lemma tracking_stopped h q s :
  tracking h q s ->
  tracking (held_step h (EvStopRecording 0)) q (stopped env s).
Proof.
  intros (new & E & Q & H & Hq).
  exists (new ++ [EvStopRecording (frames_captured env (n_stops s))]).
  rewrite trace_stopped, E, app_assoc, existsb_snoc, Q, held_snoc, H.
  auto.
Qed.

Lemma tracking_with_beep_counter h q v s :
  tracking h q s -> tracking h q (with_beep_counter v s).
Proof. apply tracking_same; reflexivity. Qed.

Lemma tracking_with_total_frames h q v s :
  tracking h q s -> tracking h q (with_total_frames v s).
Proof. apply tracking_same; reflexivity. Qed.

Lemma tracking_queued h q cb s :
  tracking h q s -> tracking h (q ++ [cb]) (queued cb s).
Proof.
  intros (new & E & Q & H & Hq). exists new.
  rewrite queue_queued, Hq. auto.
Qed.

Lemma tracking_flipped h q s :
  tracking h q s -> tracking (fold_left callback_step q h) [] (flipped s).
Proof.
  intros (new & E & Q & H & Hq). exists (new ++ [EvFlip q]).
  rewrite trace_flipped, E, Hq, app_assoc, existsb_snoc, Q, held_snoc, H.
  auto.
Qed.

Lemma raised_of_tracking h q e s : tracking h q s -> raised_unseen e s.
Proof. intros (new & E & Q & _). exists new. auto. Qed.

Ltac track_peel :=
  lazymatch goal with
  | |- tracking _ _ (emitted_if _ _ _) =>
      eapply tracking_unseen; [reflexivity | reflexivity | track_peel]
  | |- tracking _ _ (emitted _ _) =>
      eapply tracking_emitted; [reflexivity | track_peel]
  | |- tracking _ _ (flipped _) => eapply tracking_flipped; track_peel
  | |- tracking _ _ (queued _ _) => eapply tracking_queued; track_peel
  | |- tracking _ _ (beeped _ _ _) => eapply tracking_beeped; track_peel
  | |- tracking _ _ (checked _ false _) => eapply tracking_checked; track_peel
  | |- tracking _ _ (stopped _ _) => eapply tracking_stopped; track_peel
  | |- tracking _ _ (with_beep_counter _ _) =>
      eapply tracking_with_beep_counter; track_peel
  | |- tracking _ _ (with_total_frames _ _) =>
      eapply tracking_with_total_frames; track_peel
  | |- tracking _ _ _ => eassumption
  end.

Ltac track_goal :=
  lazymatch goal with
  | |- tracking _ _ _ =>
      eapply tracking_eq; cycle 2; [track_peel | reflexivity | reflexivity]
  | |- raised_unseen _ _ => eapply raised_of_tracking; track_peel
  | |- True => exact I
  end.

(** A read of the flag, at a point where the calls so far have left [h] and
    no callback waits: if it sees the flag, the cleanup releases what [h]
    holds. *)
Lemma check_tracking h line cleanup tail s :
  tracking h [] s ->
  cleans cleanup tail ->
  (forall s', cleanup_only (tail s') = true
              /\ camera (fold_left held_step (tail s') h) = Some false
              /\ sounding (fold_left held_step (tail s') h) = []
              /\ ended (fold_left held_step (tail s') h) = false
              /\ at_recording_start (fold_left held_step (tail s') h)
                 = at_recording_start h) ->
  (line = 358%nat -> at_recording_start h = true) ->
  wp (check_abort env line cleanup) (fun _ s' => tracking h [] s')
    returned_clean raised_unseen s.
Proof.
  intros (new & E & Q & H & Hq) Hc Ht H358. wp_step.
  - destruct (Hc (checked line true s)) as (s' & Ec & Et & Eq).
    unfold wp. rewrite Ec.
    destruct (Ht (checked line true s)) as (T1 & T2 & T3 & T4 & T5).
    exists (new ++ EvAbortCheck line true :: tail (checked line true s)).
    assert (Hh : held (new ++ EvAbortCheck line true :: tail (checked line true s))
                 = fold_left held_step (tail (checked line true s)) h).
    { change (EvAbortCheck line true :: tail (checked line true s))
        with ([EvAbortCheck line true] ++ tail (checked line true s)).
      rewrite app_assoc, held_app, held_snoc, H. reflexivity. }
    rewrite Hh. repeat split; auto.
    + rewrite Et, trace_checked, E, <- !app_assoc. reflexivity.
    + rewrite Eq. exact Hq.
    + intros _. exists new, line, (tail (checked line true s)).
      repeat split; auto. intros L. rewrite T5. auto.
  - apply tracking_checked. exists new. auto.
Qed.

Lemma wait_tracking h line n cleanup tail s :
  tracking h [] s ->
  cleans cleanup tail ->
  (forall s', cleanup_only (tail s') = true
              /\ camera (fold_left held_step (tail s') h) = Some false
              /\ sounding (fold_left held_step (tail s') h) = []
              /\ ended (fold_left held_step (tail s') h) = false
              /\ at_recording_start (fold_left held_step (tail s') h)
                 = at_recording_start h) ->
  (line = 358%nat -> at_recording_start h = true) ->
  wp (wait_frames env line n cleanup) (fun _ s' => tracking h [] s')
    returned_clean raised_unseen s.
Proof.
  intros H Hc Ht H358. apply wp_wait_frames with (I := fun _ => tracking h []); auto.
  intros k s0 _ Hs. eapply wp_mono;
    [| apply (check_tracking h line cleanup tail); eauto].
  intros [] s1 H1. apply (tracking_flipped h [] s1 H1).
Qed.

Ltac cleans_solve :=
  first
    [ apply cleans_nothing | apply cleans_audio_stop
    | apply cleans_audio_stop_when | apply cleans_stop_recording ].

Ltac track_side :=
  first
    [ solve [intros; repeat split; reflexivity]
    | solve [intros E358; discriminate E358]
    | solve [intros _; reflexivity] ].

Ltac track_check lem :=
  eapply wp_mono;
  [| eapply lem; [track_goal | cleans_solve | track_side | track_side]];
  intros [] ? ?.

Ltac track_step :=
  lazymatch goal with
  | |- wp (bind (check_abort _ _ _) _) _ _ _ _ =>
      apply wp_bind; track_check check_tracking
  | |- wp (check_abort _ _ _) _ _ _ _ => track_check check_tracking
  | |- wp (bind (wait_frames _ _ _ _) _) _ _ _ _ =>
      apply wp_bind; track_check wait_tracking
  | |- wp (wait_frames _ _ _ _) _ _ _ _ => track_check wait_tracking
  | |- wp (bind (hold_shape _ _ _) _) _ _ _ _ => fail
  | |- wp (bind (for_each _ _) _) _ _ _ _ => fail
  | |- wp (for_each _ _) _ _ _ _ => fail
  | |- wp _ _ _ _ _ => wp_step
  | |- if _ then _ else _ => wp_step
  | |- _ => track_goal
  end.

Definition start_beep_held (stopped : bool) : Held :=
  mkHeld (Some false) (if stopped then [] else ["start_imagine"]) false false.

Lemma hold_tracking s :
  tracking (start_beep_held false) [] s ->
  wp (hold_shape self env a) (fun _ s' => tracking nothing_held [] s')
    returned_clean raised_unseen s.
Proof.
  intros H. unfold hold_shape. apply wp_bind.
  apply wp_for_acc_range_from
    with (I := fun _ acc s' => tracking (start_beep_held acc) [] s').
  - exact H.
  - intros k acc s0 _ Hs.
    destruct (_ =? _), acc; repeat track_step.
  - intros acc s0 Hs.
    destruct acc; apply wp_when; simpl negb; cbv iota; repeat track_step.
Qed.

Lemma training_tracking i s :
  tracking nothing_held [] s ->
  wp (training_repetition cls self env a i)
    (fun _ s' => tracking nothing_held [] s') returned_clean raised_unseen s.
Proof.
  intros H. unfold training_repetition. repeat track_step.
  apply wp_bind. eapply wp_mono; [| apply hold_tracking; track_goal].
  intros [] s1 H1. repeat track_step.
Qed.

Lemma to_measurement_tracking s :
  tracking nothing_held [] s ->
  wp (training_to_measurement cls self env a)
    (fun _ s' => tracking nothing_held [] s') returned_clean raised_unseen s.
Proof.
  intros H. unfold training_to_measurement.
  destruct (0 <? _n_train_to_meas_delay self); repeat track_step.
Qed.

Lemma instructions_tracking s :
  tracking nothing_held [] s ->
  wp (instruction_sequence cls self env a)
    (fun _ s' => tracking nothing_held [] s') returned_clean raised_unseen s.
Proof. intros H. unfold instruction_sequence. repeat track_step. Qed.

Lemma cycle_tracking i s :
  tracking nothing_held [] s ->
  wp (measurement_cycle cls self env a i)
    (fun _ s' => tracking nothing_held [] s') returned_clean raised_unseen s.
Proof.
  intros H. unfold measurement_cycle.
  destruct (i <? imagination_cycles (_timing self) - 1); repeat track_step.
Qed.

Lemma measurement_tracking s :
  tracking nothing_held [] s ->
  wp (measurement_phase cls self env a)
    (fun _ s' => tracking nothing_held [] s') returned_clean raised_unseen s.
Proof.
  intros H. unfold measurement_phase. repeat track_step.
  apply wp_for_range with (I := fun _ => tracking nothing_held []).
  - track_goal.
  - intros k s1 _ H1. apply cycle_tracking. exact H1.
  - auto.
Qed.

Lemma returned_of_tracking s :
  tracking (mkHeld (Some false) [] true false) [] s -> returned_clean true s.
Proof.
  intros (new & E & Q & H & Hq). exists new. rewrite H.
  repeat split; auto. intros Hb. discriminate Hb.
Qed.

Lemma post_measurement_tracking s :
  tracking nothing_held [] s ->
  wp (post_measurement cls self env a) (fun _ _ => False)
    returned_clean raised_unseen s.
Proof.
  intros H. unfold post_measurement.
  destruct (is_last_shape a), (is_last_queue_item a); simpl negb; cbv iota;
    repeat first
      [ wp_step
      | apply returned_of_tracking; track_goal
      | track_goal ].
Qed.

Lemma run_tracking s :
  trace s = T0 -> on_flip_queue s = [] ->
  wp (run cls self env a) (fun _ _ => False) returned_clean raised_unseen s.
Proof.
  intros E0 Hq. unfold run. apply wp_bind. unfold wp at 1. cbv beta iota.
  assert (H : tracking nothing_held [] (set_abort false s)).
  { exists []. simpl. rewrite app_nil_r. auto. }
  revert H. generalize (set_abort false s). intros s0 H0.
  repeat track_step.
  apply wp_bind.
  apply wp_for_range with (I := fun _ => tracking nothing_held []).
  - track_goal.
  - intros k s1 _ H1. apply training_tracking. exact H1.
  - intros s1 H1.
    apply wp_bind. eapply wp_mono;
      [| apply to_measurement_tracking; exact H1].
    intros [] s2 H2.
    apply wp_bind. eapply wp_mono;
      [| apply instructions_tracking; exact H2].
    intros [] s3 H3.
    apply wp_bind. eapply wp_mono;
      [| apply measurement_tracking; exact H3].
    intros [] s4 H4.
    apply post_measurement_tracking. exact H4.
Qed.

End Tracking.

(** Whenever [run] returns, with [True] or with [False], and wherever an
    abort was seen, it holds nothing: every recording it started has been
    stopped by exactly one [stop_recording] and the camera is idle, every
    cue it played has been stopped, and no callback is left waiting for a
    flip that will not come. The run is started with no callback waiting. *)
Theorem run_returns_with_nothing_held cls self env a st b st' new :
  on_flip_queue st = [] ->
  run cls self env a st = (Return b, st') ->
  trace st' = trace st ++ new ->
  camera_after new = Some false
  /\ still_sounding new = []
  /\ on_flip_queue st' = [].
Proof.
  intros Hq E Et.
  pose proof (run_tracking cls self env a (trace st) st eq_refl Hq) as W.
  unfold wp in W. rewrite E in W.
  destruct W as (new' & Et' & Hq' & C & S & _).
  rewrite Et in Et'. apply app_inv_head in Et'. subst new'.
  rewrite <- camera_held. auto.
Qed.

(** A run that returns [False] stops at once: what it did is what it did
    up to the first read of [self._abort] that saw the flag set, that read,
    and at most one call after it, which stops a cue or the camera. It makes
    no further flip and logs no further row; in particular its log has no
    TRIAL_END row. *)
Theorem aborted_run_stops_at_once cls self env a st st' new :
  on_flip_queue st = [] ->
  run cls self env a st = (Return false, st') ->
  trace st' = trace st ++ new ->
  (exists pre line tail,
     new = pre ++ EvAbortCheck line true :: tail
     /\ existsb saw_abort pre = false
     /\ cleanup_only tail = true)
  /\ ~ In "TRIAL_END" (logged_types new).
Proof.
  intros Hq E Et.
  pose proof (run_tracking cls self env a (trace st) st eq_refl Hq) as W.
  unfold wp in W. rewrite E in W.
  destruct W as (new' & Et' & _ & _ & _ & Hend & Hf).
  rewrite Et in Et'. apply app_inv_head in Et'. subst new'.
  destruct (Hf eq_refl) as (pre & line & tail & En & Qp & Hc & _).
  split.
  - exists pre, line, tail. auto.
  - apply not_ended_no_trial_end. exact Hend.
Qed.

(** When the abort is seen in the recording wait (line 358), the camera is
    stopped but the RECORDING_STOP row of that cycle is never written: the
    last row the run has logged is the RECORDING_START of the interrupted
    recording. *)
Theorem abort_while_recording_logs_no_stop cls self env a st out st' new :
  on_flip_queue st = [] ->
  run cls self env a st = (out, st') ->
  trace st' = trace st ++ new ->
  In (EvAbortCheck 358 true) new ->
  out = Return false
  /\ last (logged_types new) "" = "RECORDING_START".
Proof.
  intros Hq E Et Hin.
  pose proof (run_tracking cls self env a (trace st) st eq_refl Hq) as W.
  unfold wp in W. rewrite E in W.
  pose proof (in_existsb_saw_abort _ _ Hin) as Hex.
  destruct out as [[]|b|e].
  - destruct W.
  - destruct W as (new' & Et' & _ & _ & _ & Hend & Hf).
    rewrite Et in Et'. apply app_inv_head in Et'. subst new'.
    destruct b.
    + exfalso. clear Hf.
      pose proof (run_while_running cls self env a (trace st) st eq_refl) as W2.
      unfold wp in W2. rewrite E in W2.
      destruct W2 as (new' & Et' & [[_ Q] | (Hb & _)]); [| discriminate Hb].
      rewrite Et in Et'. apply app_inv_head in Et'. subst new'. congruence.
    + destruct (Hf eq_refl) as (pre & line & tail & En & Qp & Hc & H358).
      split; [reflexivity|]. apply at_start_last_row. apply H358.
      rewrite En in Hin. apply in_app_or in Hin.
      destruct Hin as [Hin | [Hin | Hin]].
      * apply in_existsb_saw_abort in Hin. congruence.
      * congruence.
      * destruct tail as [|[] [|]]; try discriminate Hc; simpl in Hin;
          intuition discriminate.
  - destruct W as (new' & Et' & Q).
    rewrite Et in Et'. apply app_inv_head in Et'. subst new'. congruence.
Qed.

End release.

Module release_trials.
Import enums trial_protocol hoare scenario.

(** [request_abort] arrives just before read number 1 of the flag: the
    first frame of the training hold, while the start beep sounds. *)
Definition env_abort_in_start_beep : Env :=
  mkEnv (fun k => Nat.eqb k 1) (fun k => 100 + Z.of_nat k) (fun _ => 3%Q) None.

Lemma completed_trial_holds_nothing :
  let r := run TrialPhase_of_progress_panel protocol3 env_quiet args1 fresh in
  on_flip_queue fresh = []
  /\ fst r = Return true
  /\ abort.camera_after (trace (snd r)) = Some false
  /\ release.still_sounding (trace (snd r)) = []
  /\ on_flip_queue (snd r) = [].
Proof.
  cbv zeta.
  eassert (E : run TrialPhase_of_progress_panel protocol3 env_quiet args1 fresh
               = _) by (vm_compute; reflexivity).
  rewrite E. cbn [fst snd].
  split; [reflexivity|]. split; [reflexivity|].
  match type of E with
  | _ = (_, ?s) =>
      exact (release.run_returns_with_nothing_held
               TrialPhase_of_progress_panel protocol3 env_quiet args1 fresh
               true s (trace s) eq_refl E eq_refl)
  end.
Defined.

Lemma abort_in_start_beep_stops_at_once :
  let r := run TrialPhase_of_progress_panel protocol3 env_abort_in_start_beep
             args1 fresh in
  on_flip_queue fresh = []
  /\ r = (Return false, snd r)
  /\ trace (snd r)
     = [EvLog (Row "TRIAL_START" "s1" "circle" "1" "");
        EvAbortCheck 176 false;
        EvPhaseChange (mkMember "TRAINING_SHAPE" 1) 2;
        EvStimulusUpdate "shape:circle"; EvDrawShape "circle";
        EvFlip
          [CbAudioPlay "start_imagine";
           CbLog (Row "TRAINING_START_BEEP" "s1" "circle" "1" "flash_1");
           CbLog (Row "TRAINING_SHAPE_ON" "s1" "circle" "1" "flash_1")];
        EvBeepProgress 1 8; EvAbortCheck 201 true;
        EvAudioStop "start_imagine"]
  /\ ((exists pre line tail,
         trace (snd r) = pre ++ EvAbortCheck line true :: tail
         /\ existsb abort.saw_abort pre = false
         /\ release.cleanup_only tail = true)
      /\ ~ In "TRIAL_END" (event_order.logged_types (trace (snd r)))).
Proof.
  cbv zeta.
  eassert (E : run TrialPhase_of_progress_panel protocol3
                 env_abort_in_start_beep args1 fresh = _)
    by (vm_compute; reflexivity).
  rewrite E. cbn [fst snd].
  split; [reflexivity|]. split; [reflexivity|]. split; [reflexivity|].
  match type of E with
  | _ = (_, ?s) =>
      exact (release.aborted_run_stops_at_once
               TrialPhase_of_progress_panel protocol3 env_abort_in_start_beep
               args1 fresh s (trace s) eq_refl E eq_refl)
  end.
Defined.

Lemma abort_in_second_cycle_logs_no_stop :
  let r := run TrialPhase_of_progress_panel protocol3 env_abort_in_cycle2
             args1 fresh in
  on_flip_queue fresh = []
  /\ In (EvAbortCheck 358 true) (trace (snd r))
  /\ event_order.logged_types (trace (snd r))
     = ["TRIAL_START"; "TRAINING_START_BEEP"; "TRAINING_SHAPE_ON";
        "TRAINING_END_BEEP"; "TRAINING_SHAPE_OFF"; "INSTRUCTION_CLOSE_EYES";
        "INSTRUCTION_STARTING"; "IMAGINATION_START_BEEP"; "RECORDING_START";
        "RECORDING_STOP"; "IMAGINATION_END_BEEP"; "IMAGINATION_START_BEEP";
        "RECORDING_START"]
  /\ fst r = Return false
  /\ last (event_order.logged_types (trace (snd r))) "" = "RECORDING_START".
Proof.
  cbv zeta.
  eassert (E : run TrialPhase_of_progress_panel protocol3 env_abort_in_cycle2
                 args1 fresh = _) by (vm_compute; reflexivity).
  rewrite E. cbn [fst snd].
  split; [reflexivity|].
  match type of E with
  | _ = (?o, ?s) =>
      assert (Hin : In (EvAbortCheck 358 true) (trace s))
        by (cbn [trace]; repeat (first [left; reflexivity | right]));
      split; [exact Hin|]; split; [vm_compute; reflexivity|];
      exact (release.abort_while_recording_logs_no_stop
               TrialPhase_of_progress_panel protocol3 env_abort_in_cycle2
               args1 fresh o s (trace s) eq_refl E eq_refl Hin)
  end.
Defined.

End release_trials.

(** * The frame schedule of a completed run *)
Module schedule.
Import enums trial_protocol hoare event_order.

(** What the display and the camera see of a run: the shape drawn into
    the back buffer, the buffer swaps, and the calls that start and stop a
    recording. A swap that no drawing precedes shows a blank screen. *)
Inductive Tick :=
| Shown (name : string)
| Frame
| CameraStart (path : string) (fps : Q)
| CameraStop (frames : Z).

Definition event_ticks (e : Event) : list Tick :=
  match e with
  | EvDrawShape name => [Shown name]
  | EvFlip _ => [Frame]
  | EvStartRecording path fps => [CameraStart path fps]
  | EvStopRecording frames => [CameraStop frames]
  | _ => []
  end.

Definition timeline (evs : list Event) : list Tick := flat_map event_ticks evs.

Definition ticks (n : nat) : list Tick := repeat Frame n.

(** The sum of what the camera returns for [k] recordings, the first of
    them being its recording number [n0]. *)
Definition recorded (env : Env) (n0 k : nat) : Z :=
  fold_right Z.add 0 (map (fun i => frames_captured env (n0 + i)) (seq 0 k)).

Section Schedule.
Variables (self : TrialProtocol) (env : Env) (a : RunArgs).

(** A frame that shows the shape. *)
Definition shape_frame : list Tick := [Shown (shape_name a); Frame].

(** One training repetition: the onset frame and the rest of the shape,
    each frame with the shape drawn; then, on a blank screen, the flip that
    starts the end beep and the rest of that beep, the flip that stops it
    and the rest of the blank. *)
Definition training_ticks : list Tick :=
  shape_frame
  ++ times (Z.to_nat (_n_shape self - 1)) shape_frame
  ++ ticks (1 + Z.to_nat (_n_end_beep self - 1)
            + 1 + Z.to_nat (_n_blank self - 1)).

(** The frames of one training repetition. *)
Definition training_frames : nat :=
  (1 + Z.to_nat (_n_shape self - 1)
   + 1 + Z.to_nat (_n_end_beep self - 1)
   + 1 + Z.to_nat (_n_blank self - 1))%nat.

(** Cycle [k] (from 0), on a camera that has made [n0] recordings before
    the run. *)
Definition cycle_ticks (n0 : nat) (k : nat) : list Tick :=
  ticks (1 + Z.to_nat (_n_start_beep self - 1)
         + 1 + Z.to_nat (_n_recording_delay self - 1))
  ++ [CameraStart (video_path_factory a (Z.of_nat k + 1)) (fps env)]
  ++ ticks (Z.to_nat (_n_recording_frames self))
  ++ [CameraStop (frames_captured env (n0 + k))]
  ++ ticks (1 + Z.to_nat (_n_end_beep self - 1) + 1)
  ++ (if Z.of_nat k <? imagination_cycles (_timing self) - 1
      then ticks (Z.to_nat (_n_inter_delay self)) else []).

Definition completed_timeline (n0 : nat) : list Tick :=
  times (Z.to_nat (training_repetitions (_timing self))) training_ticks
  ++ ticks (Z.to_nat (_n_train_to_meas_delay self))
  ++ ticks (Z.to_nat (_n_close_eyes_wait self)
            + Z.to_nat (_n_starting_wait self))
  ++ flat_map (cycle_ticks n0)
       (seq 0 (Z.to_nat (imagination_cycles (_timing self)))).

(** The detail of the TRIAL_END row of a run whose camera had made [n0]
    recordings before. *)
Definition trial_end_row (n0 : nat) : LogCall :=
  log_row a "TRIAL_END"
    ("total_frames="
     ++ str_of_int
          (recorded env n0 (Z.to_nat (imagination_cycles (_timing self))))
     ++ " cycles=" ++ str_of_int (imagination_cycles (_timing self))).

End Schedule.

Lemma timeline_app l1 l2 : timeline (l1 ++ l2) = timeline l1 ++ timeline l2.
Proof. apply flat_map_app. Qed.

Lemma ticks_add n m : ticks (n + m) = ticks n ++ ticks m.
Proof. apply repeat_app. Qed.

Lemma ticks_succ n : ticks (S n) = ticks n ++ [Frame].
Proof. rewrite <- Nat.add_1_r. apply ticks_add. Qed.

Lemma recorded_succ env n0 k :
  recorded env n0 (S k) = recorded env n0 k + frames_captured env (n0 + k).
Proof.
  unfold recorded. rewrite seq_S, map_app. simpl.
  generalize (map (fun i => frames_captured env (n0 + i)%nat) (seq 0 k)).
  intros l. induction l as [|x l IH]; simpl; [lia | rewrite IH; lia].
Qed.

Section Timed.
Variables (cls : EnumClass) (self : TrialProtocol) (env : Env) (a : RunArgs).
Variable T0 : list Event.

(** The run has shown and recorded [X] so far, the camera has made [j]
    recordings, and the local [total_frames_recorded] is [F]. *)
Definition timed (X : list Tick) (j : nat) (F : Z) (s : State) : Prop :=
  exists new,
    trace s = T0 ++ new /\ timeline new = X
    /\ n_stops s = j /\ total_frames_recorded s = F.

Lemma timed_eq X X' j j' F F' s :
  X = X' -> j = j' -> F = F' -> timed X j F s -> timed X' j' F' s.
Proof. intros -> -> ->. auto. Qed.

Lemma timed_n_stops X j F s : timed X j F s -> n_stops s = j.
Proof. intros (new & _ & _ & H & _). exact H. Qed.

Lemma timed_total X j F s : timed X j F s -> total_frames_recorded s = F.
Proof. intros (new & _ & _ & _ & H). exact H. Qed.

Lemma timed_emitted X j F e s :
  timed X j F s -> timed (X ++ event_ticks e) j F (emitted e s).
Proof.
  intros (new & E & HX & Hj & HF). exists (new ++ [e]).
  rewrite trace_emitted, E, app_assoc, timeline_app, HX. simpl.
  rewrite app_nil_r. auto.
Qed.

Lemma timed_unseen X j F c e s :
  event_ticks e = [] -> timed X j F s -> timed X j F (emitted_if c e s).
Proof.
  intros He H. destruct c; [| exact H].
  apply (timed_emitted X j F e) in H. rewrite He, app_nil_r in H. exact H.
Qed.

Lemma timed_same X j F s s' :
  trace s' = trace s -> n_stops s' = n_stops s ->
  total_frames_recorded s' = total_frames_recorded s ->
  timed X j F s -> timed X j F s'.
Proof. intros Et Ej Ef (new & E & H). exists new. rewrite Et, Ej, Ef. auto. Qed.

Lemma timed_beeped X j F t s : timed X j F s -> timed X j F (beeped a t s).
Proof.
  intros H. unfold beeped. apply timed_unseen; [reflexivity|].
  revert H. apply timed_same; reflexivity.
Qed.

Lemma timed_checked X j F line b s :
  timed X j F s -> timed X j F (checked line b s).
Proof.
  intros H. apply (timed_emitted X j F (EvAbortCheck line b)) in H.
  simpl in H. rewrite app_nil_r in H.
  revert H. apply timed_same; reflexivity.
Qed.

Lemma timed_stopped X j F s :
  timed X j F s ->
  timed (X ++ [CameraStop (frames_captured env j)]) (S j) F (stopped env s).
Proof.
  intros (new & E & HX & Hj & HF).
  exists (new ++ [EvStopRecording (frames_captured env (n_stops s))]).
  rewrite trace_stopped, E, app_assoc, timeline_app, HX, Hj. simpl. auto.
Qed.

Lemma timed_with_beep_counter X j F v s :
  timed X j F s -> timed X j F (with_beep_counter v s).
Proof. apply timed_same; reflexivity. Qed.

Lemma timed_with_total_frames X j F v s :
  timed X j F s -> timed X j v (with_total_frames v s).
Proof. intros (new & E & HX & Hj & HF). exists new. auto. Qed.

Lemma timed_queued X j F cb s : timed X j F s -> timed X j F (queued cb s).
Proof. apply timed_same; reflexivity. Qed.

Lemma timed_flipped X j F s :
  timed X j F s -> timed (X ++ [Frame]) j F (flipped s).
Proof.
  intros (new & E & HX & Hj & HF). exists (new ++ [EvFlip (on_flip_queue s)]).
  rewrite trace_flipped, E, app_assoc, timeline_app, HX. simpl. auto.
Qed.

(** A run that returns [True] has the schedule [target] and ends on the
    row [last_row]; nothing is said here of a run that returns [False]. *)
Variable target : list Tick.
Variable last_row : LogCall.

Definition on_schedule (b : bool) (s : State) : Prop :=
  b = true ->
  exists new,
    trace s = T0 ++ new /\ timeline new = target
    /\ exists pre, new = pre ++ [EvLog last_row].

#[local] Abbreviation Qe6 := (fun (_ : Exn) (_ : State) => True).

Ltac time_peel :=
  lazymatch goal with
  | |- timed _ _ _ (emitted_if _ _ _) =>
      eapply timed_unseen; [reflexivity | time_peel]
  | |- timed _ _ _ (emitted _ _) => eapply timed_emitted; time_peel
  | |- timed _ _ _ (flipped _) => eapply timed_flipped; time_peel
  | |- timed _ _ _ (queued _ _) => eapply timed_queued; time_peel
  | |- timed _ _ _ (beeped _ _ _) => eapply timed_beeped; time_peel
  | |- timed _ _ _ (checked _ _ _) => eapply timed_checked; time_peel
  | |- timed _ _ _ (stopped _ _) => eapply timed_stopped; time_peel
  | |- timed _ _ _ (with_beep_counter _ _) =>
      eapply timed_with_beep_counter; time_peel
  | |- timed _ _ _ (with_total_frames _ _) =>
      eapply timed_with_total_frames; time_peel
  | |- timed _ _ _ _ => eassumption
  end.

(** Lists of ticks are compared piece by piece. *)
Ltac ticks_eq :=
  cbn [event_ticks];
  rewrite ?ticks_add, ?ticks_succ;
  change (ticks 0) with (@nil Tick);
  change (ticks 1) with [Frame];
  rewrite ?app_nil_r; rewrite <- ?app_assoc; cbn [app];
  reflexivity.

Ltac total_eq :=
  repeat match goal with
  | |- context [n_stops ?e] =>
      erewrite (timed_n_stops _ _ _ e) by time_peel
  | |- context [total_frames_recorded ?e] =>
      erewrite (timed_total _ _ _ e) by time_peel
  end;
  reflexivity.

Ltac time_goal :=
  lazymatch goal with
  | |- timed _ _ _ _ =>
      eapply timed_eq; cycle 3;
      [time_peel | first [reflexivity | ticks_eq] | reflexivity
      | first [reflexivity | total_eq]]
  | |- on_schedule false _ => intros Hb; discriminate Hb
  | |- True => exact I
  end.

Lemma check_timed X j F line cleanup tail s :
  emits cleanup tail ->
  timed X j F s ->
  wp (check_abort env line cleanup) (fun _ s' => timed X j F s') on_schedule Qe6 s.
Proof.
  intros Hc H. wp_step.
  - eapply wp_cleanup; [exact Hc|]. intros s' _ Hb. discriminate Hb.
  - time_goal.
Qed.

Lemma wait_timed X j F line n cleanup tail s :
  emits cleanup tail ->
  timed X j F s ->
  wp (wait_frames env line n cleanup)
    (fun _ s' => timed (X ++ ticks (Z.to_nat n)) j F s') on_schedule Qe6 s.
Proof.
  intros Hc H.
  apply wp_wait_frames with (I := fun k => timed (X ++ ticks k) j F).
  - revert H. apply timed_eq; auto. simpl. rewrite app_nil_r. reflexivity.
  - intros k s0 _ Hs. eapply wp_mono; [| eapply check_timed; eauto].
    intros [] s1 H1. apply timed_flipped in H1. revert H1.
    apply timed_eq; auto. rewrite ticks_succ, app_assoc. reflexivity.
  - auto.
Qed.

Ltac time_step :=
  lazymatch goal with
  | |- wp (bind (check_abort _ _ _) _) _ _ _ _ =>
      apply wp_bind; eapply wp_mono;
      [| eapply check_timed; [emits_solve | time_goal]]; intros [] ? ?
  | |- wp (check_abort _ _ _) _ _ _ _ =>
      eapply wp_mono;
      [| eapply check_timed; [emits_solve | time_goal]]; intros [] ? ?
  | |- wp (bind (wait_frames _ _ _ _) _) _ _ _ _ =>
      apply wp_bind; eapply wp_mono;
      [| eapply wait_timed; [emits_solve | time_goal]]; intros [] ? ?
  | |- wp (wait_frames _ _ _ _) _ _ _ _ =>
      eapply wp_mono;
      [| eapply wait_timed; [emits_solve | time_goal]]; intros [] ? ?
  | |- wp (bind (hold_shape _ _ _) _) _ _ _ _ => fail
  | |- wp (bind (for_each _ _) _) _ _ _ _ => fail
  | |- wp (for_each _ _) _ _ _ _ => fail
  | |- wp _ _ _ _ _ => wp_step
  | |- if _ then _ else _ => wp_step
  | |- _ => time_goal
  end.

Lemma hold_timed X j F s :
  timed X j F s ->
  wp (hold_shape self env a)
    (fun _ s' =>
       timed (X ++ times (Z.to_nat (_n_shape self - 1)) (shape_frame a)) j F s')
    on_schedule Qe6 s.
Proof.
  intros H. unfold hold_shape. apply wp_bind.
  apply wp_for_acc_range_from
    with (I := fun k _ s' => timed (X ++ times k (shape_frame a)) j F s').
  - revert H. apply timed_eq; auto. simpl. rewrite app_nil_r. reflexivity.
  - intros k acc s0 _ Hs. rewrite times_succ. unfold shape_frame at 2.
    destruct (_ =? _); repeat time_step.
  - intros acc s0 Hs. repeat time_step.
Qed.

Lemma training_timed X j F i s :
  timed X j F s ->
  wp (training_repetition cls self env a i)
    (fun _ s' => timed (X ++ training_ticks self a) j F s')
    on_schedule Qe6 s.
Proof.
  intros H. unfold training_repetition, training_ticks.
  unfold shape_frame at 1. repeat time_step.
  apply wp_bind. eapply wp_mono; [| eapply hold_timed; time_goal].
  intros [] s1 H1. repeat time_step.
Qed.

Lemma to_measurement_timed X j F s :
  timed X j F s ->
  wp (training_to_measurement cls self env a)
    (fun _ s' =>
       timed (X ++ ticks (Z.to_nat (_n_train_to_meas_delay self))) j F s')
    on_schedule Qe6 s.
Proof.
  intros H. unfold training_to_measurement.
  destruct (0 <? _n_train_to_meas_delay self) eqn:E; repeat time_step.
  apply Z.ltb_ge in E.
  replace (Z.to_nat (_n_train_to_meas_delay self)) with 0%nat by lia.
  time_goal.
Qed.

Lemma instructions_timed X j F s :
  timed X j F s ->
  wp (instruction_sequence cls self env a)
    (fun _ s' =>
       timed (X ++ ticks (Z.to_nat (_n_close_eyes_wait self)
                          + Z.to_nat (_n_starting_wait self))) j F s')
    on_schedule Qe6 s.
Proof. intros H. unfold instruction_sequence. repeat time_step. Qed.

Lemma cycle_timed X n0 k s :
  timed X (n0 + k) (recorded env n0 k) s ->
  wp (measurement_cycle cls self env a (Z.of_nat k))
    (fun _ s' =>
       timed (X ++ cycle_ticks self env a n0 k) (S (n0 + k))
         (recorded env n0 (S k)) s')
    on_schedule Qe6 s.
Proof.
  intros H. unfold measurement_cycle, cycle_ticks.
  rewrite recorded_succ.
  destruct (Z.of_nat k <? imagination_cycles (_timing self) - 1);
    repeat time_step.
Qed.

Lemma measurement_timed X n0 F s :
  timed X n0 F s ->
  wp (measurement_phase cls self env a)
    (fun _ s' =>
       let C := Z.to_nat (imagination_cycles (_timing self)) in
       timed (X ++ flat_map (cycle_ticks self env a n0) (seq 0 C)) (n0 + C)
         (recorded env n0 C) s')
    on_schedule Qe6 s.
Proof.
  intros H. unfold measurement_phase. repeat time_step.
  apply wp_for_range
    with (I := fun k =>
                 timed (X ++ flat_map (cycle_ticks self env a n0) (seq 0 k))
                   (n0 + k) (recorded env n0 k)).
  - eapply timed_eq; cycle 3; [time_peel | | |]; simpl; auto.
    rewrite app_nil_r. reflexivity.
  - intros k s1 _ H1. eapply wp_mono; [| apply cycle_timed; exact H1].
    intros [] s2 H2. revert H2. apply timed_eq; auto.
    rewrite seq_S, flat_map_app. simpl. rewrite app_nil_r, app_assoc.
    reflexivity.
  - auto.
Qed.

Lemma post_measurement_timed j s :
  last_row
  = log_row a "TRIAL_END"
      ("total_frames=" ++ str_of_int (total_frames_recorded s) ++ " cycles="
       ++ str_of_int (imagination_cycles (_timing self))) ->
  timed target j (total_frames_recorded s) s ->
  wp (post_measurement cls self env a) (fun _ _ => False) on_schedule Qe6 s.
Proof.
  intros Hl H. unfold post_measurement.
  assert (G : forall s',
            timed target j (total_frames_recorded s) s' ->
            on_schedule true
              (emitted
                 (EvLog
                    (log_row a "TRIAL_END"
                       ("total_frames="
                        ++ str_of_int (total_frames_recorded s')
                        ++ " cycles="
                        ++ str_of_int (imagination_cycles (_timing self)))))
                 s')).
  { intros s' (new & E & HX & Hj & HF) _. rewrite HF, <- Hl.
    exists (new ++ [EvLog last_row]). repeat split.
    - rewrite trace_emitted, E, app_assoc. reflexivity.
    - rewrite timeline_app, HX. simpl. apply app_nil_r.
    - exists new. reflexivity. }
  destruct (is_last_shape a), (is_last_queue_item a); simpl negb; cbv iota;
    repeat first
      [ wp_step
      | exact I
      | apply G; time_goal ].
Qed.

Lemma run_timed s :
  trace s = T0 ->
  target = completed_timeline self env a (n_stops s) ->
  last_row = trial_end_row self env a (n_stops s) ->
  wp (run cls self env a) (fun _ _ => False) on_schedule Qe6 s.
Proof.
  intros E0 Ht Hl. unfold run. apply wp_bind. unfold wp at 1. cbv beta iota.
  assert (H : timed [] (n_stops s) (total_frames_recorded s) (set_abort false s)).
  { exists []. simpl. rewrite app_nil_r. auto. }
  revert H. generalize (set_abort false s). intros s0 H0.
  repeat time_step.
  apply wp_bind.
  apply wp_for_range
    with (I := fun k =>
                 timed (times k (training_ticks self a)) (n_stops s)
                   (total_frames_recorded s)).
  - time_goal.
  - intros k s1 _ H1. eapply wp_mono; [| eapply training_timed; exact H1].
    intros [] s2 H2. revert H2. apply timed_eq; auto.
    rewrite times_succ. reflexivity.
  - intros s1 H1.
    apply wp_bind. eapply wp_mono;
      [| eapply to_measurement_timed; exact H1].
    intros [] s2 H2.
    apply wp_bind. eapply wp_mono;
      [| eapply instructions_timed; exact H2].
    intros [] s3 H3.
    apply wp_bind. eapply wp_mono;
      [| eapply measurement_timed; exact H3].
    cbv zeta. intros [] s4 H4.
    apply (post_measurement_timed
             (n_stops s + Z.to_nat (imagination_cycles (_timing self)))%nat).
    + rewrite Hl, (timed_total _ _ _ _ H4). reflexivity.
    + rewrite (timed_total _ _ _ _ H4).
      eapply timed_eq; [| | | exact H4]; try reflexivity.
      rewrite Ht. unfold completed_timeline. rewrite <- !app_assoc. reflexivity.
Qed.

End Timed.

Lemma completed_run_on_schedule cls self env a st st' new :
  run cls self env a st = (Return true, st') ->
  trace st' = trace st ++ new ->
  timeline new = completed_timeline self env a (n_stops st)
  /\ exists pre, new = pre ++ [EvLog (trial_end_row self env a (n_stops st))].
Proof.
  intros E Et.
  pose proof (run_timed cls self env a (trace st) _ _ st eq_refl eq_refl eq_refl)
    as W.
  unfold wp in W. rewrite E in W.
  destruct (W eq_refl) as (new' & Et' & HX & Hp).
  rewrite Et in Et'. apply app_inv_head in Et'. subst new'. auto.
Qed.

(** ** Counting the frames *)

Definition is_frame (t : Tick) : bool :=
  match t with
  | Frame => true
  | _ => false
  end.

Definition frame_count (l : list Tick) : nat := List.length (filter is_frame l).

Lemma frame_count_app l1 l2 :
  frame_count (l1 ++ l2) = (frame_count l1 + frame_count l2)%nat.
Proof. unfold frame_count. rewrite filter_app, length_app. reflexivity. Qed.

Lemma frame_count_ticks n : frame_count (ticks n) = n.
Proof.
  unfold frame_count, ticks. induction n as [|n IH]; simpl; [reflexivity|].
  rewrite IH. reflexivity.
Qed.

Lemma frame_count_times n l : frame_count (times n l) = (n * frame_count l)%nat.
Proof.
  induction n as [|n IH]; [reflexivity|].
  rewrite times_succ, frame_count_app, IH. lia.
Qed.

(** A cycle without the delay that may follow it: the start beep, the
    recording delay, the recording, the end beep and the flip that stops
    it. *)
Definition cycle_frames (self : TrialProtocol) : nat :=
  (1 + Z.to_nat (_n_start_beep self - 1)
   + 1 + Z.to_nat (_n_recording_delay self - 1)
   + Z.to_nat (_n_recording_frames self)
   + (1 + Z.to_nat (_n_end_beep self - 1) + 1))%nat.

Lemma frame_count_cycles self env a n0 m :
  (m <= Z.to_nat (imagination_cycles (_timing self)))%nat ->
  frame_count (flat_map (cycle_ticks self env a n0) (seq 0 m))
  = (m * cycle_frames self
     + Nat.min m (Z.to_nat (imagination_cycles (_timing self)) - 1)
       * Z.to_nat (_n_inter_delay self))%nat.
Proof.
  induction m as [|m IH]; intros Hm; [reflexivity|].
  rewrite seq_S, flat_map_app, frame_count_app, IH by lia.
  cbn [flat_map Nat.add]. rewrite app_nil_r. unfold cycle_ticks, cycle_frames.
  rewrite !frame_count_app, !frame_count_ticks.
  change (frame_count [CameraStart (video_path_factory a (Z.of_nat m + 1)) (fps env)])
    with 0%nat.
  change (frame_count [CameraStop (frames_captured env (n0 + m))]) with 0%nat.
  destruct (Z.of_nat m <? imagination_cycles (_timing self) - 1) eqn:E.
  - apply Z.ltb_lt in E. rewrite frame_count_ticks.
    replace (Nat.min (S m) (Z.to_nat (imagination_cycles (_timing self)) - 1))
      with (S m) by lia.
    replace (Nat.min m (Z.to_nat (imagination_cycles (_timing self)) - 1))
      with m by lia.
    lia.
  - apply Z.ltb_ge in E.
    replace (Nat.min (S m) (Z.to_nat (imagination_cycles (_timing self)) - 1))
      with m by lia.
    replace (Nat.min m (Z.to_nat (imagination_cycles (_timing self)) - 1))
      with m by lia.
    change (frame_count []) with 0%nat. lia.
Qed.

(** The frame counts are those of durations of at least one frame, the
    waits are not negative, and there is at least one cycle. *)
Definition whole_counts (self : TrialProtocol) : Prop :=
  1 <= _n_shape self /\ 1 <= _n_blank self
  /\ 1 <= _n_start_beep self /\ 1 <= _n_end_beep self
  /\ 1 <= _n_recording_delay self /\ 0 <= _n_recording_frames self
  /\ 0 <= _n_inter_delay self /\ 0 <= _n_train_to_meas_delay self
  /\ 0 <= _n_close_eyes_wait self /\ 0 <= _n_starting_wait self
  /\ 0 <= training_repetitions (_timing self)
  /\ 1 <= imagination_cycles (_timing self).

(** The number of buffer swaps of a trial, from its frame counts. *)
Definition trial_frames (self : TrialProtocol) : Z :=
  training_repetitions (_timing self)
  * (_n_shape self + _n_end_beep self + _n_blank self)
  + _n_train_to_meas_delay self
  + _n_close_eyes_wait self + _n_starting_wait self
  + imagination_cycles (_timing self)
    * (_n_start_beep self + _n_recording_delay self + _n_recording_frames self
       + _n_end_beep self + 1)
  + (imagination_cycles (_timing self) - 1) * _n_inter_delay self.

Lemma frame_count_training self a :
  frame_count (training_ticks self a) = training_frames self.
Proof.
  unfold training_ticks, training_frames.
  rewrite !frame_count_app, frame_count_times, frame_count_ticks.
  change (frame_count (shape_frame a)) with 1%nat. lia.
Qed.

(** The frames of the schedule of a completed run. *)
Lemma frames_of_completed_timeline self env a n0 :
  whole_counts self ->
  Z.of_nat (frame_count (completed_timeline self env a n0)) = trial_frames self.
Proof.
  intros (H1 & H2 & H3 & H4 & H5 & H6 & H7 & H8 & H9 & H10 & H11 & H12).
  unfold completed_timeline, trial_frames.
  rewrite !frame_count_app, frame_count_times, frame_count_training,
    !frame_count_ticks, frame_count_cycles by lia.
  rewrite Nat.min_r by lia.
  rewrite !Nat2Z.inj_add, !Nat2Z.inj_mul.
  replace (Z.of_nat (training_frames self))
    with (_n_shape self + _n_end_beep self + _n_blank self)
    by (unfold training_frames; lia).
  replace (Z.of_nat (cycle_frames self))
    with (_n_start_beep self + _n_recording_delay self
          + _n_recording_frames self + _n_end_beep self + 1)
    by (unfold cycle_frames; lia).
  replace (Z.of_nat (Z.to_nat (imagination_cycles (_timing self)) - 1))
    with (imagination_cycles (_timing self) - 1) by lia.
  rewrite !Z2Nat.id by lia. ring.
Qed.

(** A run that returns [True] has drawn the shape, swapped buffers and
    called the camera exactly as [completed_timeline] says, in that order,
    whatever the frame counts. In each training repetition the shape is
    drawn before the onset flip and before each of the [n_shape - 1] flips
    that follow, and before no other flip of the run: the flip that starts
    the end beep, the [n_end_beep - 1] frames after it, the flip that stops
    the beep and the [n_blank - 1] frames of blank show an empty screen,
    and so do the waits and all of the measurement. In cycle [k] the
    camera is started on the path the factory gives for [k + 1], after the
    start beep and the recording delay, is stopped after exactly
    [n_recording_frames] frames, and the delay between cycles follows
    every cycle but the last. A count below its minimum gives no frame:
    [range] of a negative number is empty. *)
Theorem completed_run_keeps_schedule cls self env a st st' new :
  run cls self env a st = (Return true, st') ->
  trace st' = trace st ++ new ->
  timeline new = completed_timeline self env a (n_stops st).
Proof.
  intros E Et. apply (completed_run_on_schedule cls self env a st st' new E Et).
Qed.

(** The last call of a run that returns [True] logs the TRIAL_END row, and
    the total it reports is the sum of the frame counts that the camera
    returned for the recordings of this run, one for each cycle; with no
    cycle it is 0. *)
Theorem trial_end_reports_recorded_frames cls self env a st st' new :
  run cls self env a st = (Return true, st') ->
  trace st' = trace st ++ new ->
  exists pre, new = pre ++ [EvLog (trial_end_row self env a (n_stops st))].
Proof.
  intros E Et. apply (completed_run_on_schedule cls self env a st st' new E Et).
Qed.

(** With frame counts of at least one frame and at least one cycle, a run
    that returns [True] has swapped buffers exactly [trial_frames] times:
    [n_shape + n_end_beep + n_blank] frames for each training repetition
    (the flips that start and stop the beeps are frames of the beep and of
    the blank), and [n_start_beep + n_recording_delay + n_recording_frames
    + n_end_beep + 1] frames for each cycle, the one extra frame being the
    flip that stops the end beep. *)
Theorem completed_run_frame_count cls self env a st st' new :
  whole_counts self ->
  run cls self env a st = (Return true, st') ->
  trace st' = trace st ++ new ->
  Z.of_nat (frame_count (timeline new)) = trial_frames self.
Proof.
  intros W E Et.
  destruct (completed_run_on_schedule cls self env a st st' new E Et) as [-> _].
  apply frames_of_completed_timeline. exact W.
Qed.

End schedule.

Module schedule_trials.
Import enums trial_protocol hoare scenario schedule.

Lemma three_cycles_on_schedule :
  let r := run TrialPhase_of_progress_panel protocol3 env_quiet args1 fresh in
  fst r = Return true
  /\ completed_timeline protocol3 env_quiet args1 0
     = event_order.times 4 [Shown "circle"; Frame] ++ ticks 4 ++ ticks 14
       ++ ticks 4 ++ [CameraStart "cycle_1.avi" 500] ++ ticks 4
       ++ [CameraStop 100] ++ ticks 3 ++ ticks 2
       ++ ticks 4 ++ [CameraStart "cycle_2.avi" 500] ++ ticks 4
       ++ [CameraStop 101] ++ ticks 3 ++ ticks 2
       ++ ticks 4 ++ [CameraStart "cycle_3.avi" 500] ++ ticks 4
       ++ [CameraStop 102] ++ ticks 3
  /\ timeline (trace (snd r)) = completed_timeline protocol3 env_quiet args1 0.
Proof.
  cbv zeta.
  eassert (E : run TrialPhase_of_progress_panel protocol3 env_quiet args1 fresh
               = _) by (vm_compute; reflexivity).
  rewrite E. cbn [fst snd].
  split; [reflexivity|]. split; [vm_compute; reflexivity|].
  match type of E with
  | _ = (_, ?s) =>
      exact (completed_run_keeps_schedule
               TrialPhase_of_progress_panel protocol3 env_quiet args1 fresh
               s (trace s) E eq_refl)
  end.
Defined.

Lemma three_cycles_report_303_frames :
  let r := run TrialPhase_of_progress_panel protocol3 env_quiet args1 fresh in
  fst r = Return true
  /\ trial_end_row protocol3 env_quiet args1 0
     = Row "TRIAL_END" "s1" "circle" "1" "total_frames=303 cycles=3"
  /\ exists pre,
       trace (snd r)
       = pre ++ [EvLog (trial_end_row protocol3 env_quiet args1 0)].
Proof.
  cbv zeta.
  eassert (E : run TrialPhase_of_progress_panel protocol3 env_quiet args1 fresh
               = _) by (vm_compute; reflexivity).
  rewrite E. cbn [fst snd].
  split; [reflexivity|]. split; [vm_compute; reflexivity|].
  match type of E with
  | _ = (_, ?s) =>
      exact (trial_end_reports_recorded_frames
               TrialPhase_of_progress_panel protocol3 env_quiet args1 fresh
               s (trace s) E eq_refl)
  end.
Defined.

Lemma three_cycles_last_59_frames :
  let r := run TrialPhase_of_progress_panel protocol3 env_quiet args1 fresh in
  whole_counts protocol3
  /\ fst r = Return true
  /\ trial_frames protocol3 = 59
  /\ Z.of_nat (frame_count (timeline (trace (snd r)))) = trial_frames protocol3.
Proof.
  cbv zeta.
  eassert (E : run TrialPhase_of_progress_panel protocol3 env_quiet args1 fresh
               = _) by (vm_compute; reflexivity).
  rewrite E. cbn [fst snd].
  assert (W : whole_counts protocol3)
    by (vm_compute; repeat split; intros H; discriminate H).
  split; [exact W|]. split; [reflexivity|]. split; [vm_compute; reflexivity|].
  match type of E with
  | _ = (_, ?s) =>
      exact (completed_run_frame_count
               TrialPhase_of_progress_panel protocol3 env_quiet args1 fresh
               s (trace s) W E eq_refl)
  end.
Defined.

End schedule_trials.

(** * The beep counter *)
Module progress.
Import enums trial_protocol hoare.

(** The arguments of the calls of [on_beep_progress], in order. *)
Definition event_beeps (e : Event) : list (Z * Z) :=
  match e with
  | EvBeepProgress current total => [(current, total)]
  | _ => []
  end.

Definition beep_calls (evs : list Event) : list (Z * Z) :=
  flat_map event_beeps evs.

(** The calls for the first [k] beeps of a trial, when the caller passed
    the callback. *)
Definition announced (self : TrialProtocol) (a : RunArgs) (k : nat)
  : list (Z * Z) :=
  if on_beep_progress a
  then map (fun j => (Z.of_nat j, total_beeps self)) (seq 1 k)
  else [].

Lemma beep_calls_app l1 l2 : beep_calls (l1 ++ l2) = beep_calls l1 ++ beep_calls l2.
Proof. apply flat_map_app. Qed.

Lemma announced_succ self a k :
  announced self a (S k)
  = announced self a k
    ++ (if on_beep_progress a then [(Z.of_nat k + 1, total_beeps self)] else []).
Proof.
  unfold announced. destruct (on_beep_progress a); [| reflexivity].
  rewrite seq_S, map_app. simpl. repeat f_equal. lia.
Qed.

Section Counting.
Variables (cls : EnumClass) (self : TrialProtocol) (env : Env) (a : RunArgs).
Variable T0 : list Event.

(** [k] beeps have been played and announced, and [beep_counter] is [k]. *)
Definition counted (k : nat) (s : State) : Prop :=
  exists new,
    trace s = T0 ++ new /\ beep_calls new = announced self a k
    /\ beep_counter s = Z.of_nat k.

(** The beeps of a whole trial. *)
Definition all_beeps : nat :=
  (2 * (Z.to_nat (training_repetitions (_timing self))
        + Z.to_nat (imagination_cycles (_timing self))))%nat.

(** However a run returns, it has announced the beeps 1 to [k] for some
    [k] that is not above [all_beeps], and is [all_beeps] when it returns
    [True]. *)
Definition announced_so_far (b : bool) (s : State) : Prop :=
  exists new k,
    trace s = T0 ++ new /\ beep_calls new = announced self a k
    /\ (k <= all_beeps)%nat /\ (b = true -> k = all_beeps).

#[local] Abbreviation Qe5 := (fun (_ : Exn) (_ : State) => True).

Lemma counted_eq k k' s : k = k' -> counted k s -> counted k' s.
Proof. intros ->. auto. Qed.

Lemma counted_emitted k e s :
  event_beeps e = [] -> counted k s -> counted k (emitted e s).
Proof.
  intros He (new & E & HB & Hc). exists (new ++ [e]).
  rewrite trace_emitted, E, app_assoc, beep_calls_app, HB. simpl.
  rewrite He, !app_nil_r. auto.
Qed.

Lemma counted_unseen k c e s :
  event_beeps e = [] -> counted k s -> counted k (emitted_if c e s).
Proof. destruct c; [apply counted_emitted | auto]. Qed.

Lemma counted_same k s s' :
  trace s' = trace s -> beep_counter s' = beep_counter s ->
  counted k s -> counted k s'.
Proof. intros Et Ec (new & E & H). exists new. rewrite Et, Ec. auto. Qed.

Lemma counted_beeped k s :
  counted k s -> counted (S k) (beeped a (total_beeps self) s).
Proof.
  intros (new & E & HB & Hc).
  exists (new ++ (if on_beep_progress a
                  then [EvBeepProgress (beep_counter s + 1) (total_beeps self)]
                  else [])).
  rewrite trace_beeped, E, app_assoc, beep_calls_app, HB, announced_succ, Hc.
  repeat split.
  - destruct (on_beep_progress a); reflexivity.
  - unfold beeped. destruct (on_beep_progress a); simpl; lia.
Qed.

Lemma counted_checked k line b s : counted k s -> counted k (checked line b s).
Proof.
  intros H. apply (counted_emitted k (EvAbortCheck line b)) in H; [| reflexivity].
  revert H. apply counted_same; reflexivity.
Qed.

Lemma counted_stopped k s : counted k s -> counted k (stopped env s).
Proof.
  intros H.
  apply (counted_emitted k (EvStopRecording (frames_captured env (n_stops s))))
    in H; [| reflexivity].
  revert H. apply counted_same; reflexivity.
Qed.

Lemma counted_with_total_frames k v s :
  counted k s -> counted k (with_total_frames v s).
Proof. apply counted_same; reflexivity. Qed.

Lemma counted_queued k cb s : counted k s -> counted k (queued cb s).
Proof. apply counted_same; reflexivity. Qed.

Lemma counted_flipped k s : counted k s -> counted k (flipped s).
Proof.
  intros H. apply (counted_emitted k (EvFlip (on_flip_queue s))) in H;
    [| reflexivity].
  revert H. apply counted_same; reflexivity.
Qed.

Ltac count_peel :=
  lazymatch goal with
  | |- counted _ (emitted_if _ _ _) =>
      eapply counted_unseen; [reflexivity | count_peel]
  | |- counted _ (emitted _ _) =>
      eapply counted_emitted; [reflexivity | count_peel]
  | |- counted _ (flipped _) => eapply counted_flipped; count_peel
  | |- counted _ (queued _ _) => eapply counted_queued; count_peel
  | |- counted _ (beeped _ _ _) => eapply counted_beeped; count_peel
  | |- counted _ (checked _ _ _) => eapply counted_checked; count_peel
  | |- counted _ (stopped _ _) => eapply counted_stopped; count_peel
  | |- counted _ (with_total_frames _ _) =>
      eapply counted_with_total_frames; count_peel
  | |- counted _ _ => eassumption
  end.

Ltac count_goal :=
  lazymatch goal with
  | |- counted _ _ =>
      eapply counted_eq; cycle 1; [count_peel | first [reflexivity | lia]]
  | |- True => exact I
  end.

Lemma beep_calls_of_cleanup c tail s k :
  emits c tail ->
  (forall s', beep_calls (tail s') = []) ->
  (k <= all_beeps)%nat ->
  counted k s ->
  wp c (fun _ s' => announced_so_far false s') announced_so_far Qe5 s.
Proof.
  intros Hc Ht Hk (new & E & HB & _).
  eapply wp_cleanup; [exact Hc|]. intros s' Es'.
  exists (new ++ tail s), k. rewrite Es', E, app_assoc, beep_calls_app, HB, Ht.
  rewrite app_nil_r. repeat split; auto. intros Hb. discriminate Hb.
Qed.

Lemma check_counted k line cleanup tail s :
  counted k s ->
  emits cleanup tail ->
  (forall s', beep_calls (tail s') = []) ->
  (k <= all_beeps)%nat ->
  wp (check_abort env line cleanup) (fun _ s' => counted k s')
    announced_so_far Qe5 s.
Proof.
  intros H Hc Ht Hk. wp_step.
  - eapply beep_calls_of_cleanup; eauto. apply counted_checked. exact H.
  - count_goal.
Qed.

Lemma wait_counted k line n cleanup tail s :
  counted k s ->
  emits cleanup tail ->
  (forall s', beep_calls (tail s') = []) ->
  (k <= all_beeps)%nat ->
  wp (wait_frames env line n cleanup) (fun _ s' => counted k s')
    announced_so_far Qe5 s.
Proof.
  intros H Hc Ht Hk. apply wp_wait_frames with (I := fun _ => counted k); auto.
  intros j s0 _ Hs. eapply wp_mono; [| eapply check_counted; eauto].
  intros [] s1 H1. count_goal.
Qed.

Ltac count_side :=
  first
    [ solve [intros; reflexivity]
    | solve [intros; destruct (negb _); reflexivity]
    | lia ].

Ltac count_check lem :=
  eapply wp_mono;
  [| eapply lem; [count_goal | emits_solve | count_side | count_side]];
  intros [] ? ?.

Ltac count_step :=
  lazymatch goal with
  | |- wp (bind (check_abort _ _ _) _) _ _ _ _ =>
      apply wp_bind; count_check check_counted
  | |- wp (check_abort _ _ _) _ _ _ _ => count_check check_counted
  | |- wp (bind (wait_frames _ _ _ _) _) _ _ _ _ =>
      apply wp_bind; count_check wait_counted
  | |- wp (wait_frames _ _ _ _) _ _ _ _ => count_check wait_counted
  | |- wp (bind (hold_shape _ _ _) _) _ _ _ _ => fail
  | |- wp (bind (for_each _ _) _) _ _ _ _ => fail
  | |- wp (for_each _ _) _ _ _ _ => fail
  | |- wp _ _ _ _ _ => wp_step
  | |- if _ then _ else _ => wp_step
  | |- _ => count_goal
  end.

Lemma hold_counted k s :
  (k <= all_beeps)%nat ->
  counted k s ->
  wp (hold_shape self env a) (fun _ s' => counted k s') announced_so_far Qe5 s.
Proof.
  intros Hk H. unfold hold_shape. apply wp_bind.
  apply wp_for_acc_range_from with (I := fun _ _ s' => counted k s').
  - exact H.
  - intros j acc s0 _ Hs. destruct (_ =? _); repeat count_step.
  - intros acc s0 Hs. repeat count_step.
Qed.

Lemma training_counted k i s :
  (k + 2 <= all_beeps)%nat ->
  counted k s ->
  wp (training_repetition cls self env a i) (fun _ s' => counted (k + 2) s')
    announced_so_far Qe5 s.
Proof.
  intros Hk H. unfold training_repetition. repeat count_step.
  apply wp_bind. eapply wp_mono; [| eapply hold_counted; [| count_goal]; lia].
  intros [] s1 H1. repeat count_step.
Qed.

Lemma to_measurement_counted k s :
  (k <= all_beeps)%nat ->
  counted k s ->
  wp (training_to_measurement cls self env a) (fun _ s' => counted k s')
    announced_so_far Qe5 s.
Proof.
  intros Hk H. unfold training_to_measurement.
  destruct (0 <? _n_train_to_meas_delay self); repeat count_step.
Qed.

Lemma instructions_counted k s :
  (k <= all_beeps)%nat ->
  counted k s ->
  wp (instruction_sequence cls self env a) (fun _ s' => counted k s')
    announced_so_far Qe5 s.
Proof. intros Hk H. unfold instruction_sequence. repeat count_step. Qed.

Lemma cycle_counted k i s :
  (k + 2 <= all_beeps)%nat ->
  counted k s ->
  wp (measurement_cycle cls self env a i) (fun _ s' => counted (k + 2) s')
    announced_so_far Qe5 s.
Proof.
  intros Hk H. unfold measurement_cycle.
  destruct (i <? imagination_cycles (_timing self) - 1); repeat count_step.
Qed.

Lemma measurement_counted s :
  counted (2 * Z.to_nat (training_repetitions (_timing self))) s ->
  wp (measurement_phase cls self env a) (fun _ s' => counted all_beeps s')
    announced_so_far Qe5 s.
Proof.
  intros H. unfold measurement_phase.
  assert (B : (2 * Z.to_nat (training_repetitions (_timing self))
               <= all_beeps)%nat) by (unfold all_beeps; lia).
  repeat count_step.
  apply wp_for_range
    with (I := fun j =>
                 counted (2 * Z.to_nat (training_repetitions (_timing self))
                          + 2 * j)).
  - count_goal.
  - intros j s1 Hj H1. eapply wp_mono;
      [| eapply cycle_counted; [| exact H1]; unfold all_beeps; lia].
    intros [] s2 H2. revert H2. apply counted_eq. lia.
  - intros s1 H1. revert H1. apply counted_eq. unfold all_beeps. lia.
Qed.

Lemma post_measurement_counted s :
  counted all_beeps s ->
  wp (post_measurement cls self env a) (fun _ _ => False)
    announced_so_far Qe5 s.
Proof.
  intros H. unfold post_measurement.
  assert (G : forall s', counted all_beeps s' -> announced_so_far true s').
  { intros s' (new & E & HB & _). exists new, all_beeps. auto. }
  destruct (is_last_shape a), (is_last_queue_item a); simpl negb; cbv iota;
    repeat first
      [ wp_step
      | exact I
      | apply G; count_goal ].
Qed.

Lemma run_counted s :
  trace s = T0 ->
  wp (run cls self env a) (fun _ _ => False) announced_so_far Qe5 s.
Proof.
  intros E0. unfold run. apply wp_bind. unfold wp at 1. cbv beta iota.
  apply wp_bind. apply wp_set_beep_counter.
  assert (H : counted 0 (with_beep_counter 0 (set_abort false s))).
  { exists []. simpl. rewrite app_nil_r. unfold announced.
    destruct (on_beep_progress a); auto. }
  revert H. generalize (with_beep_counter 0 (set_abort false s)). intros s0 H0.
  repeat count_step.
  apply wp_bind.
  apply wp_for_range with (I := fun j => counted (2 * j)).
  - count_goal.
  - intros j s1 Hj H1. eapply wp_mono;
      [| eapply training_counted; [| exact H1]; unfold all_beeps; lia].
    intros [] s2 H2. revert H2. apply counted_eq. lia.
  - intros s1 H1.
    assert (B : (2 * Z.to_nat (training_repetitions (_timing self))
                 <= all_beeps)%nat) by (unfold all_beeps; lia).
    apply wp_bind. eapply wp_mono;
      [| apply to_measurement_counted; [exact B | exact H1]].
    intros [] s2 H2.
    apply wp_bind. eapply wp_mono;
      [| apply instructions_counted; [exact B | exact H2]].
    intros [] s3 H3.
    apply wp_bind. eapply wp_mono;
      [| apply measurement_counted; exact H3].
    intros [] s4 H4.
    apply post_measurement_counted. exact H4.
Qed.

End Counting.

(** However [run] returns, the calls it made of [on_beep_progress] are
    (1, total), (2, total), ..., (k, total), in this order and without a
    gap, where total is [total_beeps] (two beeps for each training
    repetition and for each cycle): [k] never exceeds the total, and is the
    total when the run returns [True]. Without the callback there is no
    call. The repetition and cycle counts are not negative. *)
Theorem beeps_are_announced_in_order cls self env a st b st' new :
  0 <= training_repetitions (_timing self) ->
  0 <= imagination_cycles (_timing self) ->
  run cls self env a st = (Return b, st') ->
  trace st' = trace st ++ new ->
  exists k,
    beep_calls new = announced self a k
    /\ Z.of_nat k <= total_beeps self
    /\ (b = true -> Z.of_nat k = total_beeps self).
Proof.
  intros HR HC E Et.
  pose proof (run_counted cls self env a (trace st) st eq_refl) as W.
  unfold wp in W. rewrite E in W.
  destruct W as (new' & k & Et' & HB & Hk & Hb).
  rewrite Et in Et'. apply app_inv_head in Et'. subst new'.
  assert (T : Z.of_nat (all_beeps self) = total_beeps self)
    by (unfold all_beeps, total_beeps; lia).
  exists k. repeat split; [exact HB | lia |].
  intros B. rewrite (Hb B). exact T.
Qed.

End progress.

Module progress_trials.
Import enums trial_protocol hoare scenario progress.

Lemma abort_after_five_beeps :
  let r := run TrialPhase_of_progress_panel protocol3 env_abort_in_cycle2
             args1 fresh in
  0 <= training_repetitions (_timing protocol3)
  /\ 0 <= imagination_cycles (_timing protocol3)
  /\ fst r = Return false
  /\ beep_calls (trace (snd r)) = [(1, 8); (2, 8); (3, 8); (4, 8); (5, 8)]
  /\ exists k,
       beep_calls (trace (snd r)) = announced protocol3 args1 k
       /\ Z.of_nat k <= total_beeps protocol3
       /\ (false = true -> Z.of_nat k = total_beeps protocol3).
Proof.
  cbv zeta.
  eassert (E : run TrialPhase_of_progress_panel protocol3 env_abort_in_cycle2
                 args1 fresh = _) by (vm_compute; reflexivity).
  rewrite E. cbn [fst snd].
  assert (HR : 0 <= training_repetitions (_timing protocol3))
    by (vm_compute; intros H; discriminate H).
  assert (HC : 0 <= imagination_cycles (_timing protocol3))
    by (vm_compute; intros H; discriminate H).
  split; [exact HR|]. split; [exact HC|]. split; [reflexivity|].
  split; [vm_compute; reflexivity|].
  match type of E with
  | _ = (_, ?s) =>
      exact (beeps_are_announced_in_order
               TrialPhase_of_progress_panel protocol3 env_abort_in_cycle2
               args1 fresh false s (trace s) HR HC E eq_refl)
  end.
Defined.

End progress_trials.

(** * How often a run reads the abort flag *)
Module polling.
Import enums trial_protocol hoare.

(** The flips made since the last read of [self._abort], and the largest
    number of flips that were made in a row with no read between them. *)
Definition poll_step (st : nat * nat) (e : Event) : nat * nat :=
  match e with
  | EvAbortCheck _ _ => (0%nat, snd st)
  | EvFlip _ => (S (fst st), Nat.max (snd st) (S (fst st)))
  | _ => st
  end.

Definition polls (evs : list Event) : nat * nat :=
  fold_left poll_step evs (0%nat, 0%nat).

Definition flips_since_read (evs : list Event) : nat := fst (polls evs).
Definition unread_flips (evs : list Event) : nat := snd (polls evs).

Definition is_flip (e : Event) : bool :=
  match e with
  | EvFlip _ => true
  | _ => false
  end.

Definition no_flip (evs : list Event) : bool :=
  forallb (fun e => negb (is_flip e)) evs.

Lemma polls_snoc evs e : polls (evs ++ [e]) = poll_step (polls evs) e.
Proof. unfold polls. rewrite fold_left_app. reflexivity. Qed.

Lemma polls_app evs tail : polls (evs ++ tail) = fold_left poll_step tail (polls evs).
Proof. unfold polls. rewrite fold_left_app. reflexivity. Qed.

Lemma no_flip_keeps tail :
  no_flip tail = true ->
  forall st, snd (fold_left poll_step tail st) = snd st.
Proof.
  induction tail as [|e tail IH]; intros H st; [reflexivity|].
  simpl in H. apply andb_prop in H. destruct H as [He Ht].
  simpl fold_left. rewrite (IH Ht). destruct e; try reflexivity.
  discriminate He.
Qed.

Section Polling.
Variables (cls : EnumClass) (self : TrialProtocol) (env : Env) (a : RunArgs).
Variable T0 : list Event.
Hypothesis end_beep_frames : 2 <= _n_end_beep self.
Hypothesis recording_frames : 1 <= _n_recording_frames self.

(** At most [u] flips since the last read, and never more than two in a
    row. *)
Definition polled (u : nat) (s : State) : Prop :=
  exists new,
    trace s = T0 ++ new
    /\ (flips_since_read new <= u)%nat /\ (unread_flips new <= 2)%nat.

Definition bounded {X} (_ : X) (s : State) : Prop :=
  exists new, trace s = T0 ++ new /\ (unread_flips new <= 2)%nat.

Lemma polled_le u u' s : (u <= u')%nat -> polled u s -> polled u' s.
Proof. intros L (new & E & H1 & H2). exists new. repeat split; auto. lia. Qed.

Lemma polled_emitted u e s :
  (forall st, poll_step st e = st) -> polled u s -> polled u (emitted e s).
Proof.
  intros He (new & E & H1 & H2). exists (new ++ [e]).
  unfold flips_since_read, unread_flips in *.
  rewrite trace_emitted, E, app_assoc, polls_snoc, He. auto.
Qed.

Lemma polled_unseen u c e s :
  (forall st, poll_step st e = st) -> polled u s -> polled u (emitted_if c e s).
Proof. destruct c; [apply polled_emitted | auto]. Qed.

Lemma polled_same u s s' : trace s' = trace s -> polled u s -> polled u s'.
Proof. intros Et (new & E & H). exists new. rewrite Et. auto. Qed.

Lemma polled_beeped u t s : polled u s -> polled u (beeped a t s).
Proof.
  intros H. unfold beeped. apply polled_unseen; [reflexivity|].
  revert H. apply polled_same. reflexivity.
Qed.

Lemma polled_checked u line b s : polled u s -> polled 0 (checked line b s).
Proof.
  intros (new & E & H1 & H2). exists (new ++ [EvAbortCheck line b]).
  unfold flips_since_read, unread_flips in *.
  rewrite trace_checked, E, app_assoc, polls_snoc. simpl. auto.
Qed.

Lemma polled_stopped u s : polled u s -> polled u (stopped env s).
Proof.
  intros H.
  apply (polled_emitted u (EvStopRecording (frames_captured env (n_stops s))))
    in H; [| reflexivity].
  revert H. apply polled_same. reflexivity.
Qed.

Lemma polled_with_beep_counter u v s :
  polled u s -> polled u (with_beep_counter v s).
Proof. apply polled_same. reflexivity. Qed.

Lemma polled_with_total_frames u v s :
  polled u s -> polled u (with_total_frames v s).
Proof. apply polled_same. reflexivity. Qed.

Lemma polled_queued u cb s : polled u s -> polled u (queued cb s).
Proof. apply polled_same. reflexivity. Qed.

Lemma polled_flipped u s :
  polled u s -> (S u <= 2)%nat -> polled (S u) (flipped s).
Proof.
  intros (new & E & H1 & H2) L. exists (new ++ [EvFlip (on_flip_queue s)]).
  unfold flips_since_read, unread_flips in *.
  rewrite trace_flipped, E, app_assoc, polls_snoc. simpl.
  repeat split; auto; lia.
Qed.

Lemma bounded_of_polled {X} u (x : X) s : polled u s -> bounded x s.
Proof. intros (new & E & _ & H). exists new. auto. Qed.

Ltac poll_peel :=
  lazymatch goal with
  | |- polled _ (emitted_if _ _ _) =>
      eapply polled_unseen; [reflexivity | poll_peel]
  | |- polled _ (emitted _ _) =>
      eapply polled_emitted; [reflexivity | poll_peel]
  | |- polled _ (flipped _) => eapply polled_flipped; [poll_peel | lia]
  | |- polled _ (queued _ _) => eapply polled_queued; poll_peel
  | |- polled _ (beeped _ _ _) => eapply polled_beeped; poll_peel
  | |- polled _ (checked _ _ _) => eapply polled_checked; poll_peel
  | |- polled _ (stopped _ _) => eapply polled_stopped; poll_peel
  | |- polled _ (with_beep_counter _ _) =>
      eapply polled_with_beep_counter; poll_peel
  | |- polled _ (with_total_frames _ _) =>
      eapply polled_with_total_frames; poll_peel
  | |- polled _ _ => eassumption
  end.

Ltac poll_goal :=
  lazymatch goal with
  | |- polled _ _ => eapply polled_le; cycle 1; [poll_peel | lia]
  | |- bounded _ _ => eapply bounded_of_polled; poll_peel
  | |- True => exact I
  end.

(** A read of the flag: the count of flips starts again, and the cleanup
    after a read that saw the flag makes no flip. *)
Lemma check_polled u line cleanup tail s :
  polled u s ->
  emits cleanup tail ->
  (forall s', no_flip (tail s') = true) ->
  wp (check_abort env line cleanup) (fun _ s' => polled 0 s') bounded bounded s.
Proof.
  intros H Hc Ht. wp_step.
  - eapply wp_cleanup; [exact Hc|]. intros s' Es'.
    destruct (polled_checked u line true s H) as (new & E & _ & H2).
    exists (new ++ tail (checked line true s)).
    rewrite Es', E, app_assoc. split; [reflexivity|].
    unfold unread_flips in *. rewrite polls_app, no_flip_keeps; auto.
  - poll_peel.
Qed.

(** A wait of any length: one flip since the last read when it has turned,
    what there was when it has not. *)
Lemma wait_polled u line n cleanup tail s :
  polled u s ->
  emits cleanup tail ->
  (forall s', no_flip (tail s') = true) ->
  wp (wait_frames env line n cleanup) (fun _ s' => polled (Nat.max u 1) s')
    bounded bounded s.
Proof.
  intros H Hc Ht.
  apply wp_wait_frames with (I := fun _ => polled (Nat.max u 1)).
  - revert H. apply polled_le. lia.
  - intros k s0 _ Hs. eapply wp_mono; [| eapply check_polled; eauto].
    intros [] s1 H1. poll_goal.
  - auto.
Qed.

(** A wait of at least one frame ends one flip after a read. *)
Lemma wait_polled_entered u line n cleanup tail s :
  0 < n ->
  polled u s ->
  emits cleanup tail ->
  (forall s', no_flip (tail s') = true) ->
  wp (wait_frames env line n cleanup) (fun _ s' => polled 1 s') bounded bounded s.
Proof.
  intros Hn H Hc Ht.
  apply wp_wait_frames
    with (I := fun k => polled (match k with O => u | S _ => 1%nat end)).
  - exact H.
  - intros k s0 _ Hs. eapply wp_mono; [| eapply check_polled; eauto].
    intros [] s1 H1. poll_goal.
  - intros s0. destruct (Z.to_nat n) eqn:E; [lia | auto].
Qed.

Ltac poll_side :=
  first
    [ solve [intros; reflexivity]
    | solve [intros; destruct (negb _); reflexivity] ].

Ltac poll_check :=
  eapply wp_mono;
  [| eapply check_polled; [poll_peel | emits_solve | poll_side]];
  intros [] ? ?.

Ltac poll_wait :=
  first
    [ eapply wp_mono;
      [| eapply wait_polled_entered; [lia | poll_peel | emits_solve | poll_side]]
    | eapply wp_mono;
      [| eapply wait_polled; [poll_peel | emits_solve | poll_side]] ];
  intros [] ? ?.

Ltac poll_step_tac :=
  lazymatch goal with
  | |- wp (bind (check_abort _ _ _) _) _ _ _ _ => apply wp_bind; poll_check
  | |- wp (check_abort _ _ _) _ _ _ _ => poll_check
  | |- wp (bind (wait_frames _ _ _ _) _) _ _ _ _ => apply wp_bind; poll_wait
  | |- wp (wait_frames _ _ _ _) _ _ _ _ => poll_wait
  | |- wp (bind (hold_shape _ _ _) _) _ _ _ _ => fail
  | |- wp (bind (for_each _ _) _) _ _ _ _ => fail
  | |- wp (for_each _ _) _ _ _ _ => fail
  | |- wp _ _ _ _ _ => wp_step
  | |- if _ then _ else _ => wp_step
  | |- _ => poll_goal
  end.

Lemma hold_polled s :
  polled 1 s ->
  wp (hold_shape self env a) (fun _ s' => polled 1 s') bounded bounded s.
Proof.
  intros H. unfold hold_shape. apply wp_bind.
  apply wp_for_acc_range_from with (I := fun _ _ s' => polled 1 s').
  - exact H.
  - intros j acc s0 _ Hs. destruct (_ =? _); repeat poll_step_tac.
  - intros acc s0 Hs. repeat poll_step_tac.
Qed.

Lemma training_polled i s :
  polled 2 s ->
  wp (training_repetition cls self env a i) (fun _ s' => polled 2 s')
    bounded bounded s.
Proof.
  intros H. unfold training_repetition. repeat poll_step_tac.
  apply wp_bind. eapply wp_mono; [| eapply hold_polled; poll_goal].
  intros [] s1 H1. repeat poll_step_tac.
Qed.

Lemma to_measurement_polled s :
  polled 2 s ->
  wp (training_to_measurement cls self env a) (fun _ s' => polled 2 s')
    bounded bounded s.
Proof.
  intros H. unfold training_to_measurement.
  destruct (0 <? _n_train_to_meas_delay self); repeat poll_step_tac.
Qed.

Lemma instructions_polled s :
  polled 2 s ->
  wp (instruction_sequence cls self env a) (fun _ s' => polled 2 s')
    bounded bounded s.
Proof. intros H. unfold instruction_sequence. repeat poll_step_tac. Qed.

Lemma cycle_polled i s :
  polled 2 s ->
  wp (measurement_cycle cls self env a i) (fun _ s' => polled 2 s')
    bounded bounded s.
Proof.
  intros H. unfold measurement_cycle.
  destruct (i <? imagination_cycles (_timing self) - 1); repeat poll_step_tac.
Qed.

Lemma measurement_polled s :
  polled 2 s ->
  wp (measurement_phase cls self env a) (fun _ s' => polled 2 s')
    bounded bounded s.
Proof.
  intros H. unfold measurement_phase. repeat poll_step_tac.
  apply wp_for_range with (I := fun _ => polled 2).
  - poll_goal.
  - intros j s1 _ H1. apply cycle_polled. exact H1.
  - auto.
Qed.

Lemma post_measurement_polled s :
  polled 2 s ->
  wp (post_measurement cls self env a) (fun _ _ => False) bounded bounded s.
Proof.
  intros H. unfold post_measurement.
  destruct (is_last_shape a), (is_last_queue_item a); simpl negb; cbv iota;
    repeat first [ wp_step | poll_goal ].
Qed.

Lemma run_polled s :
  trace s = T0 ->
  wp (run cls self env a) (fun _ _ => False) bounded bounded s.
Proof.
  intros E0. unfold run. apply wp_bind. unfold wp at 1. cbv beta iota.
  assert (H : polled 2 (set_abort false s)).
  { exists []. simpl. rewrite app_nil_r. repeat split; auto; cbn; lia. }
  revert H. generalize (set_abort false s). intros s0 H0.
  repeat poll_step_tac.
  apply wp_bind.
  apply wp_for_range with (I := fun _ => polled 2).
  - poll_goal.
  - intros j s1 _ H1. apply training_polled. exact H1.
  - intros s1 H1.
    apply wp_bind. eapply wp_mono; [| apply to_measurement_polled; exact H1].
    intros [] s2 H2.
    apply wp_bind. eapply wp_mono; [| apply instructions_polled; exact H2].
    intros [] s3 H3.
    apply wp_bind. eapply wp_mono; [| apply measurement_polled; exact H3].
    intros [] s4 H4.
    apply post_measurement_polled. exact H4.
Qed.

End Polling.

(** The abort flag is not read before every flip: the flip that plays the
    end beep and the flips that stop a beep come with no read of
    [self._abort] before them. But with an end beep of at least two frames
    and a recording of at least one frame, however the run ends, it never
    makes more than two flips in a row without reading the flag between
    them: a request to abort is seen after two more frames at most, as
    long as a read is still to come. *)
Theorem flag_is_read_every_second_flip cls self env a st out st' new :
  2 <= _n_end_beep self ->
  1 <= _n_recording_frames self ->
  run cls self env a st = (out, st') ->
  trace st' = trace st ++ new ->
  (unread_flips new <= 2)%nat.
Proof.
  intros Heb Hrec E Et.
  pose proof (run_polled cls self env a (trace st) Heb Hrec st eq_refl) as W.
  unfold wp in W. rewrite E in W.
  destruct out as [[]|b|e]; [destruct W | |];
    destruct W as (new' & Et' & H);
    rewrite Et in Et'; apply app_inv_head in Et'; subst new'; exact H.
Qed.

End polling.

Module polling_trials.
Import enums trial_protocol hoare scenario polling.

(** The same trial with beeps of one frame: the onset flip, the flip of
    the end beep and the flip that stops it follow one another. *)
Definition protocol_short_beeps : TrialProtocol :=
  fst (__init__ timing3 (mkAudio (1 # 2) (1 # 2)) (window_at 2)).

Example three_flips_without_a_read :
  _n_end_beep protocol_short_beeps = 1
  /\ unread_flips
       (trace (snd (run TrialPhase_of_progress_panel protocol_short_beeps
                      env_quiet args1 fresh)))
     = 3%nat.
Proof. vm_compute. split; reflexivity. Qed.

Lemma three_cycles_two_flips_in_a_row :
  let r := run TrialPhase_of_progress_panel protocol3 env_quiet args1 fresh in
  2 <= _n_end_beep protocol3
  /\ 1 <= _n_recording_frames protocol3
  /\ fst r = Return true
  /\ unread_flips (trace (snd r)) = 2%nat
  /\ (unread_flips (trace (snd r)) <= 2)%nat.
Proof.
  cbv zeta.
  eassert (E : run TrialPhase_of_progress_panel protocol3 env_quiet args1 fresh
               = _) by (vm_compute; reflexivity).
  rewrite E. cbn [fst snd].
  assert (H1 : 2 <= _n_end_beep protocol3)
    by (vm_compute; intros H; discriminate H).
  assert (H2 : 1 <= _n_recording_frames protocol3)
    by (vm_compute; intros H; discriminate H).
  split; [exact H1|]. split; [exact H2|]. split; [reflexivity|].
  split; [vm_compute; reflexivity|].
  match type of E with
  | _ = (?o, ?s) =>
      exact (flag_is_read_every_second_flip
               TrialPhase_of_progress_panel protocol3 env_quiet args1 fresh
               o s (trace s) H1 H2 E eq_refl)
  end.
Defined.

End polling_trials.

(** * The phases a run announces *)
Module announcements.
Import enums trial_protocol hoare.

(** The calls of [on_phase_change], in order: the name of the phase and
    the seconds it is announced with. *)
Definition event_phase (e : Event) : list (string * Q) :=
  match e with
  | EvPhaseChange phase remaining => [(member_name phase, remaining)]
  | _ => []
  end.

Definition phase_calls (evs : list Event) : list (string * Q) :=
  flat_map event_phase evs.

(** [l] is a beginning of [t]. *)
Definition begins (l t : list (string * Q)) : Prop := exists rest, t = l ++ rest.

Lemma phase_calls_app l1 l2 :
  phase_calls (l1 ++ l2) = phase_calls l1 ++ phase_calls l2.
Proof. apply flat_map_app. Qed.

Lemma getattr_name cls name p : getattr cls name = Some p -> member_name p = name.
Proof.
  unfold getattr. intros H. apply find_some in H. destruct H as [_ H].
  apply String.eqb_eq in H. exact H.
Qed.

Lemma concat_repeat_succ {X} (x : list X) k :
  List.concat (repeat x (S k)) = List.concat (repeat x k) ++ x.
Proof.
  change (repeat x (S k)) with (x :: repeat x k).
  rewrite repeat_cons, List.concat_app. simpl. rewrite app_nil_r. reflexivity.
Qed.

Lemma concat_repeat_split {X} (x : list X) k n :
  (k < n)%nat ->
  List.concat (repeat x n)
  = (List.concat (repeat x k) ++ x) ++ List.concat (repeat x (n - S k)).
Proof.
  intros H. rewrite <- concat_repeat_succ, <- List.concat_app, <- repeat_app.
  f_equal. f_equal. lia.
Qed.

Lemma flat_map_range_succ {X} (f : Z -> list X) k :
  flat_map f (map Z.of_nat (seq 0 (S k)))
  = flat_map f (map Z.of_nat (seq 0 k)) ++ f (Z.of_nat k).
Proof.
  rewrite seq_S, map_app, flat_map_app. simpl. rewrite app_nil_r. reflexivity.
Qed.

Lemma flat_map_range_split {X} (f : Z -> list X) k n :
  (k < n)%nat ->
  flat_map f (map Z.of_nat (seq 0 n))
  = (flat_map f (map Z.of_nat (seq 0 k)) ++ f (Z.of_nat k))
    ++ flat_map f (map Z.of_nat (seq (S k) (n - S k))).
Proof.
  intros H. rewrite <- flat_map_range_succ, <- flat_map_app, <- map_app.
  replace n with (S k + (n - S k))%nat at 1 by lia.
  rewrite seq_app. reflexivity.
Qed.

Section Announcing.
Variables (cls : EnumClass) (self : TrialProtocol) (env : Env) (a : RunArgs).
Variable T0 : list Event.

(** A call, when the caller passed the callback. *)
Definition ann (name : string) (remaining : Q) : list (string * Q) :=
  if on_phase_change a then [(name, remaining)] else [].

(** Lines 180, 216 and 244 *)
Definition training_calls : list (string * Q) :=
  ann "TRAINING_SHAPE" (training_shape_duration (_timing self))
  ++ ann "TRAINING_BLANK" (end_imagine_duration (_audio_settings self))
  ++ ann "TRAINING_BLANK" (training_blank_duration (_timing self)).

(** Line 254 *)
Definition to_measurement_calls : list (string * Q) :=
  if 0 <? _n_train_to_meas_delay self
  then ann "INTER_TRIAL" (training_to_measurement_delay (_timing self))
  else [].

(** Lines 265, 271, 278 and 284 *)
Definition instruction_calls : list (string * Q) :=
  ann "INSTRUCTION_CLOSE_EYES" 5 ++ ann "INSTRUCTION_WAIT" 5
  ++ ann "INSTRUCTION_STARTING" 2 ++ ann "INSTRUCTION_READY" 2.

(** Lines 312, 336, 353, 372 and 397 *)
Definition cycle_calls (i : Z) : list (string * Q) :=
  ann "MEASUREMENT_START_BEEP" (start_imagine_duration (_audio_settings self))
  ++ ann "MEASUREMENT_RECORDING_DELAY" (recording_delay (_timing self))
  ++ ann "MEASUREMENT_IMAGINING"
       (inject_Z (_n_recording_frames self) * frame_duration (_win self))
  ++ ann "MEASUREMENT_END_BEEP" (end_imagine_duration (_audio_settings self))
  ++ (if i <? imagination_cycles (_timing self) - 1
      then ann "MEASUREMENT_INTER_DELAY" (inter_imagination_delay (_timing self))
      else []).

(** Line 407 *)
Definition post_calls : list (string * Q) := ann "INSTRUCTION_POST" 5.

(** The calls of a whole trial. *)
Definition trial_calls : list (string * Q) :=
  List.concat (repeat training_calls (Z.to_nat (training_repetitions (_timing self))))
  ++ to_measurement_calls
  ++ instruction_calls
  ++ flat_map cycle_calls (range (imagination_cycles (_timing self)))
  ++ post_calls.

Definition phased (l : list (string * Q)) (s : State) : Prop :=
  exists new, trace s = T0 ++ new /\ phase_calls new = l.

(** When a run returns it has announced a beginning of [trial_calls], and
    all of it when it returns [True]. *)
Definition announced (b : bool) (s : State) : Prop :=
  exists new,
    trace s = T0 ++ new
    /\ begins (phase_calls new) trial_calls
    /\ (b = true -> phase_calls new = trial_calls).

#[local] Abbreviation Qe6 := (fun (_ : Exn) (_ : State) => True).

Lemma phased_eq l l' s : l = l' -> phased l s -> phased l' s.
Proof. intros ->. auto. Qed.

Lemma phased_emitted l e s :
  event_phase e = [] -> phased l s -> phased l (emitted e s).
Proof.
  intros He (new & E & H). exists (new ++ [e]).
  rewrite trace_emitted, E, app_assoc, phase_calls_app, H. simpl.
  rewrite He, !app_nil_r. auto.
Qed.

Lemma phased_unseen l c e s :
  event_phase e = [] -> phased l s -> phased l (emitted_if c e s).
Proof. destruct c; [apply phased_emitted | auto]. Qed.

Lemma phased_announced l name p r s :
  getattr cls name = Some p ->
  phased l s ->
  phased (l ++ ann name r) (emitted_if (on_phase_change a) (EvPhaseChange p r) s).
Proof.
  intros G (new & E & H). apply getattr_name in G. unfold ann.
  destruct (on_phase_change a); unfold emitted_if.
  - exists (new ++ [EvPhaseChange p r]).
    rewrite trace_emitted, E, app_assoc, phase_calls_app, H. simpl.
    rewrite G. auto.
  - exists new. rewrite app_nil_r. auto.
Qed.

Lemma phased_same l s s' : trace s' = trace s -> phased l s -> phased l s'.
Proof. intros Et (new & E & H). exists new. rewrite Et. auto. Qed.

Lemma phased_beeped l t s : phased l s -> phased l (beeped a t s).
Proof.
  intros H. unfold beeped. apply phased_unseen; [reflexivity|].
  revert H. apply phased_same. reflexivity.
Qed.

Lemma phased_checked l line b s : phased l s -> phased l (checked line b s).
Proof.
  intros H. apply (phased_emitted l (EvAbortCheck line b)) in H; [| reflexivity].
  revert H. apply phased_same. reflexivity.
Qed.

Lemma phased_stopped l s : phased l s -> phased l (stopped env s).
Proof.
  intros H.
  apply (phased_emitted l (EvStopRecording (frames_captured env (n_stops s))))
    in H; [| reflexivity].
  revert H. apply phased_same. reflexivity.
Qed.

Lemma phased_with_beep_counter l v s :
  phased l s -> phased l (with_beep_counter v s).
Proof. apply phased_same. reflexivity. Qed.

Lemma phased_with_total_frames l v s :
  phased l s -> phased l (with_total_frames v s).
Proof. apply phased_same. reflexivity. Qed.

Lemma phased_queued l cb s : phased l s -> phased l (queued cb s).
Proof. apply phased_same. reflexivity. Qed.

Lemma phased_flipped l s : phased l s -> phased l (flipped s).
Proof.
  intros H. apply (phased_emitted l (EvFlip (on_flip_queue s))) in H;
    [| reflexivity].
  revert H. apply phased_same. reflexivity.
Qed.

Ltac phase_peel :=
  lazymatch goal with
  | |- phased _ (emitted_if _ (EvPhaseChange _ _) _) =>
      eapply phased_announced; [eassumption | phase_peel]
  | |- phased _ (emitted_if _ _ _) =>
      eapply phased_unseen; [reflexivity | phase_peel]
  | |- phased _ (emitted _ _) =>
      eapply phased_emitted; [reflexivity | phase_peel]
  | |- phased _ (flipped _) => eapply phased_flipped; phase_peel
  | |- phased _ (queued _ _) => eapply phased_queued; phase_peel
  | |- phased _ (beeped _ _ _) => eapply phased_beeped; phase_peel
  | |- phased _ (checked _ _ _) => eapply phased_checked; phase_peel
  | |- phased _ (stopped _ _) => eapply phased_stopped; phase_peel
  | |- phased _ (with_beep_counter _ _) =>
      eapply phased_with_beep_counter; phase_peel
  | |- phased _ (with_total_frames _ _) =>
      eapply phased_with_total_frames; phase_peel
  | |- phased _ _ => eassumption
  end.

Ltac unfold_calls :=
  unfold training_calls, to_measurement_calls, instruction_calls, cycle_calls,
    post_calls in *;
  repeat match goal with
         | E : (_ <? _) = _ |- _ => rewrite E in *; clear E
         end;
  cbv iota in *.

Ltac lists_agree :=
  unfold_calls; rewrite <- ?app_assoc, ?app_nil_r; reflexivity.

(** What has been announced is a beginning of the calls of the trial:
    from the beginning that the block will have announced at its end. *)
Ltac begins_solve :=
  lazymatch goal with
  | Hp : begins _ trial_calls |- begins _ trial_calls =>
      let rest := fresh "rest" in
      let H := fresh "H" in
      pose proof Hp as H; destruct H as [rest H];
      unfold begins; rewrite <- ?app_assoc, ?app_nil_r;
      rewrite <- ?app_assoc, ?app_nil_r in H;
      eexists; rewrite H; clear H; rewrite <- ?app_assoc; reflexivity
  end.

Ltac phase_goal :=
  lazymatch goal with
  | |- phased _ _ => eapply phased_eq; cycle 1; [phase_peel | lists_agree]
  | |- True => exact I
  end.

Lemma announced_of_cleanup c tail s l :
  emits c tail ->
  (forall s', phase_calls (tail s') = []) ->
  begins l trial_calls ->
  phased l s ->
  wp c (fun _ s' => announced false s') announced Qe6 s.
Proof.
  intros Hc Ht Hb (new & E & H).
  eapply wp_cleanup; [exact Hc|]. intros s' Es'.
  exists (new ++ tail s). rewrite Es', E, app_assoc, phase_calls_app, H, Ht.
  rewrite app_nil_r. repeat split; auto. intros Hf. discriminate Hf.
Qed.

Lemma check_phased l line cleanup tail s :
  phased l s ->
  emits cleanup tail ->
  (forall s', phase_calls (tail s') = []) ->
  begins l trial_calls ->
  wp (check_abort env line cleanup) (fun _ s' => phased l s') announced Qe6 s.
Proof.
  intros H Hc Ht Hb. wp_step.
  - eapply announced_of_cleanup; eauto. apply phased_checked. exact H.
  - apply phased_checked. exact H.
Qed.

Lemma wait_phased l line n cleanup tail s :
  phased l s ->
  emits cleanup tail ->
  (forall s', phase_calls (tail s') = []) ->
  begins l trial_calls ->
  wp (wait_frames env line n cleanup) (fun _ s' => phased l s') announced Qe6 s.
Proof.
  intros H Hc Ht Hb. apply wp_wait_frames with (I := fun _ => phased l); auto.
  intros j s0 _ Hs. eapply wp_mono; [| eapply check_phased; eauto].
  intros [] s1 H1. apply phased_flipped. exact H1.
Qed.

Ltac phase_side :=
  first
    [ solve [intros; reflexivity]
    | solve [intros; destruct (negb _); reflexivity] ].

Ltac phase_check lem :=
  eapply wp_mono;
  [| eapply lem; [phase_peel | emits_solve | phase_side | begins_solve]];
  intros [] ? ?.

Ltac phase_step :=
  lazymatch goal with
  | |- wp (bind (check_abort _ _ _) _) _ _ _ _ =>
      apply wp_bind; phase_check check_phased
  | |- wp (check_abort _ _ _) _ _ _ _ => phase_check check_phased
  | |- wp (bind (wait_frames _ _ _ _) _) _ _ _ _ =>
      apply wp_bind; phase_check wait_phased
  | |- wp (wait_frames _ _ _ _) _ _ _ _ => phase_check wait_phased
  | |- wp (bind (hold_shape _ _ _) _) _ _ _ _ => fail
  | |- wp (bind (for_each _ _) _) _ _ _ _ => fail
  | |- wp (for_each _ _) _ _ _ _ => fail
  | |- wp _ _ _ _ _ => wp_step
  | |- if _ then _ else _ => wp_step
  | |- _ => phase_goal
  end.

Lemma hold_phased l s :
  begins l trial_calls ->
  phased l s ->
  wp (hold_shape self env a) (fun _ s' => phased l s') announced Qe6 s.
Proof.
  intros Hb H. unfold hold_shape. apply wp_bind.
  apply wp_for_acc_range_from with (I := fun _ _ s' => phased l s').
  - exact H.
  - intros j acc s0 _ Hs. destruct (_ =? _); repeat phase_step.
  - intros acc s0 Hs. repeat phase_step.
Qed.

Lemma training_phased l i s :
  begins (l ++ training_calls) trial_calls ->
  phased l s ->
  wp (training_repetition cls self env a i)
    (fun _ s' => phased (l ++ training_calls) s') announced Qe6 s.
Proof.
  intros Hb H. unfold training_repetition. unfold_calls. repeat phase_step.
  apply wp_bind. eapply wp_mono;
    [| eapply hold_phased; cycle 1; [phase_peel | begins_solve]].
  intros [] s1 H1. repeat phase_step.
Qed.

Lemma to_measurement_phased l s :
  begins (l ++ to_measurement_calls) trial_calls ->
  phased l s ->
  wp (training_to_measurement cls self env a)
    (fun _ s' => phased (l ++ to_measurement_calls) s') announced Qe6 s.
Proof.
  intros Hb H. unfold training_to_measurement.
  destruct (0 <? _n_train_to_meas_delay self) eqn:D; unfold_calls;
    repeat phase_step.
Qed.

Lemma instructions_phased l s :
  begins (l ++ instruction_calls) trial_calls ->
  phased l s ->
  wp (instruction_sequence cls self env a)
    (fun _ s' => phased (l ++ instruction_calls) s') announced Qe6 s.
Proof.
  intros Hb H. unfold instruction_sequence. unfold_calls. repeat phase_step.
Qed.

Lemma cycle_phased l i s :
  begins (l ++ cycle_calls i) trial_calls ->
  phased l s ->
  wp (measurement_cycle cls self env a i)
    (fun _ s' => phased (l ++ cycle_calls i) s') announced Qe6 s.
Proof.
  intros Hb H. unfold measurement_cycle.
  destruct (i <? imagination_cycles (_timing self) - 1) eqn:D; unfold_calls;
    repeat phase_step.
Qed.

Definition before_cycles : list (string * Q) :=
  List.concat (repeat training_calls (Z.to_nat (training_repetitions (_timing self))))
  ++ to_measurement_calls ++ instruction_calls.

Lemma trial_calls_eq :
  trial_calls
  = (before_cycles
     ++ flat_map cycle_calls (range (imagination_cycles (_timing self))))
    ++ post_calls.
Proof. unfold trial_calls, before_cycles. rewrite <- !app_assoc. reflexivity. Qed.

Lemma measurement_phased s :
  phased before_cycles s ->
  wp (measurement_phase cls self env a)
    (fun _ s' =>
       phased
         (before_cycles
          ++ flat_map cycle_calls (range (imagination_cycles (_timing self))))
         s')
    announced Qe6 s.
Proof.
  intros H. unfold measurement_phase.
  assert (Hb : begins before_cycles trial_calls).
  { eexists. rewrite trial_calls_eq, <- app_assoc. reflexivity. }
  apply wp_bind. eapply wp_mono;
    [| eapply check_phased; [exact H | emits_solve | phase_side | exact Hb]].
  intros [] s0 H0. repeat wp_step.
  apply wp_for_range
    with (I := fun j =>
                 phased (before_cycles
                         ++ flat_map cycle_calls (map Z.of_nat (seq 0 j)))).
  - eapply phased_eq; cycle 1; [phase_peel|]. simpl. rewrite app_nil_r.
    reflexivity.
  - intros j s1 Hj H1. eapply wp_mono; [| eapply cycle_phased; [| exact H1]].
    + intros [] s2 H2. revert H2. apply phased_eq.
      rewrite flat_map_range_succ, app_assoc. reflexivity.
    + eexists. rewrite trial_calls_eq. unfold range.
      rewrite (flat_map_range_split cycle_calls j _ Hj), <- !app_assoc.
      reflexivity.
  - auto.
Qed.

Lemma post_measurement_phased s :
  phased
    (before_cycles
     ++ flat_map cycle_calls (range (imagination_cycles (_timing self)))) s ->
  wp (post_measurement cls self env a) (fun _ _ => False) announced Qe6 s.
Proof.
  intros H. unfold post_measurement.
  assert (G : forall s', phased trial_calls s' -> announced true s').
  { intros s' (new & E & HB). exists new. rewrite HB.
    repeat split; auto. exists []. rewrite app_nil_r. reflexivity. }
  destruct (is_last_shape a), (is_last_queue_item a); simpl negb; cbv iota;
    repeat first
      [ wp_step
      | exact I
      | apply G; eapply phased_eq; cycle 1;
        [phase_peel | rewrite trial_calls_eq; reflexivity] ].
Qed.

Lemma run_phased s :
  trace s = T0 ->
  wp (run cls self env a) (fun _ _ => False) announced Qe6 s.
Proof.
  intros E0. unfold run. apply wp_bind. unfold wp at 1. cbv beta iota.
  assert (H : phased [] (set_abort false s)).
  { exists []. simpl. rewrite app_nil_r. auto. }
  revert H. generalize (set_abort false s). intros s0 H0.
  repeat wp_step.
  apply wp_for_range
    with (I := fun j => phased (List.concat (repeat training_calls j))).
  - phase_peel.
  - intros j s1 Hj H1. eapply wp_mono; [| eapply training_phased; [| exact H1]].
    + intros [] s2 H2. revert H2. apply phased_eq.
      symmetry. apply concat_repeat_succ.
    + eexists. unfold trial_calls.
      rewrite (concat_repeat_split training_calls j _ Hj), <- !app_assoc.
      reflexivity.
  - intros s1 H1.
    apply wp_bind. eapply wp_mono;
      [| apply to_measurement_phased; [| exact H1]].
    2: { eexists. unfold trial_calls. rewrite <- !app_assoc. reflexivity. }
    intros [] s2 H2.
    apply wp_bind. eapply wp_mono;
      [| apply instructions_phased; [| exact H2]].
    2: { eexists. unfold trial_calls. rewrite <- !app_assoc. reflexivity. }
    intros [] s3 H3.
    apply wp_bind. eapply wp_mono;
      [| apply measurement_phased; revert H3; apply phased_eq;
         unfold before_cycles; rewrite <- !app_assoc; reflexivity].
    intros [] s4 H4.
    apply post_measurement_phased. exact H4.
Qed.

End Announcing.

(** The phases a run announces to [on_phase_change] are those of
    [trial_calls], in that order and with those seconds: all of them when
    the run returns [True], a beginning of them when it returns [False].
    For each training repetition TRAINING_BLANK is announced twice, first
    with the length of the end beep, and there is no phase of its own for
    the beeps of the training; MEASUREMENT_IMAGINING comes with the time
    of the frames that are recorded, not with the imagination duration of
    the settings; the waits between cycles are announced between two
    cycles only. Without the callback there is no call. *)
Theorem phases_are_announced_in_order cls self env a st b st' new :
  run cls self env a st = (Return b, st') ->
  trace st' = trace st ++ new ->
  begins (phase_calls new) (trial_calls self a)
  /\ (b = true -> phase_calls new = trial_calls self a).
Proof.
  intros E Et.
  pose proof (run_phased cls self env a (trace st) st eq_refl) as W.
  unfold wp in W. rewrite E in W.
  destruct W as (new' & Et' & Hb & Ht).
  rewrite Et in Et'. apply app_inv_head in Et'. subst new'. auto.
Qed.

End announcements.

Module announcements_trials.
Import enums trial_protocol hoare scenario announcements.

Lemma phases_of_an_aborted_trial :
  let r := run TrialPhase_of_progress_panel protocol3 env_abort_in_cycle2
             args1 fresh in
  fst r = Return false
  /\ trial_calls protocol3 args1
     = [("TRAINING_SHAPE", 2%Q); ("TRAINING_BLANK", 1%Q); ("TRAINING_BLANK", 1%Q);
        ("INSTRUCTION_CLOSE_EYES", 5%Q); ("INSTRUCTION_WAIT", 5%Q);
        ("INSTRUCTION_STARTING", 2%Q); ("INSTRUCTION_READY", 2%Q);
        ("MEASUREMENT_START_BEEP", 1%Q); ("MEASUREMENT_RECORDING_DELAY", 1%Q);
        ("MEASUREMENT_IMAGINING", (inject_Z 4 * (1 / inject_Z 2))%Q);
        ("MEASUREMENT_END_BEEP", 1%Q); ("MEASUREMENT_INTER_DELAY", 1%Q);
        ("MEASUREMENT_START_BEEP", 1%Q); ("MEASUREMENT_RECORDING_DELAY", 1%Q);
        ("MEASUREMENT_IMAGINING", (inject_Z 4 * (1 / inject_Z 2))%Q);
        ("MEASUREMENT_END_BEEP", 1%Q); ("MEASUREMENT_INTER_DELAY", 1%Q);
        ("MEASUREMENT_START_BEEP", 1%Q); ("MEASUREMENT_RECORDING_DELAY", 1%Q);
        ("MEASUREMENT_IMAGINING", (inject_Z 4 * (1 / inject_Z 2))%Q);
        ("MEASUREMENT_END_BEEP", 1%Q); ("INSTRUCTION_POST", 5%Q)]
  /\ List.length (phase_calls (trace (snd r))) = 15%nat
  /\ begins (phase_calls (trace (snd r))) (trial_calls protocol3 args1)
  /\ (false = true -> phase_calls (trace (snd r)) = trial_calls protocol3 args1).
Proof.
  cbv zeta.
  eassert (E : run TrialPhase_of_progress_panel protocol3 env_abort_in_cycle2
                 args1 fresh = _) by (vm_compute; reflexivity).
  rewrite E. cbn [fst snd].
  split; [reflexivity|]. split; [reflexivity|]. split; [reflexivity|].
  match type of E with
  | _ = (_, ?s) =>
      exact (phases_are_announced_in_order
               TrialPhase_of_progress_panel protocol3 env_abort_in_cycle2
               args1 fresh false s (trace s) E eq_refl)
  end.
Defined.

End announcements_trials.

(** * The life of a webcam recording *)
Module camera_lifecycle.
Import camera_webcam.

Definition is_started (r : LogRecord) : bool :=
  match r with
  | InfoRecordingStarted _ => true
  | _ => false
  end.

Definition is_stopped (r : LogRecord) : bool :=
  match r with
  | InfoRecordingStopped _ => true
  | _ => false
  end.

Definition count (f : LogRecord -> bool) (l : list LogRecord) : nat :=
  List.length (filter f l).

Lemma count_snoc f l r :
  count f (l ++ [r]) = (count f l + (if f r then 1 else 0))%nat.
Proof.
  unfold count. rewrite filter_app, length_app. simpl.
  destruct (f r); reflexivity.
Qed.



(** On a camera that is not recording, a recording whose writer opens
    counts its frames from 0, whatever was recorded before. A second
    [start_recording] while it runs is ignored: it neither resets the count
    nor starts a second thread nor changes the file, so [stop_recording]
    returns the [n] frames written before the second start, the [m] written
    after it and the [late] ones written until the thread saw the stop
    event; the camera is idle again and the log has gained one "started"
    record, for the first path, and one "stopped" record with that count. *)
Theorem frames_count_from_the_first_start s p1 f1 p2 f2 opens n m late :
  is_recording s = false ->
  let s1 := capture n (start_recording p1 f1 true s) in
  start_recording p2 f2 opens s1 = s1
  /\ stop_recording late (capture m (start_recording p2 f2 opens s1))
     = (n + m + late,
        mkCamera false (Some Finished) (n + m + late) true
          (logged s ++ [InfoRecordingStarted p1;
                        InfoRecordingStopped (n + m + late)])).
Proof.
  unfold is_recording. intros Hi. cbv zeta.
  assert (E1 : start_recording p1 f1 true s
               = mkCamera true (Some Running) 0 false
                   (logged s ++ [InfoRecordingStarted p1])).
  { unfold start_recording. rewrite Hi. reflexivity. }
  rewrite E1. cbn. split; [reflexivity|].
  rewrite <- app_assoc. cbn. repeat f_equal; lia.
Qed.

Lemma second_start_is_ignored :
  let s := camera_webcam.__init__ in
  let s1 := capture 4 (start_recording "a.avi" 30 true s) in
  is_recording s = false
  /\ start_recording "b.avi" 60 true s1 = s1
  /\ stop_recording 1 (capture 3 (start_recording "b.avi" 60 true s1))
     = (4 + 3 + 1,
        mkCamera false (Some Finished) (4 + 3 + 1) true
          (logged s ++ [InfoRecordingStarted "a.avi";
                        InfoRecordingStopped (4 + 3 + 1)])).
Proof.
  cbv zeta. split; [reflexivity|].
  exact (frames_count_from_the_first_start camera_webcam.__init__
           "a.avi" 30 "b.avi" 60 true 4 3 1 eq_refl).
Defined.

(** When the VideoWriter cannot be opened, the recording thread logs the
    error and ends at once: the camera is not recording, nothing is
    captured, [stop_recording] returns 0 and the log has no "started" and
    no "stopped" record for that path, only the error. The caller of
    [start_recording] is told nothing. *)
Theorem failed_writer_leaves_camera_idle s path fps n late :
  is_recording s = false ->
  let s1 := start_recording path fps false s in
  is_recording s1 = false
  /\ capture n s1 = s1
  /\ fst (stop_recording late (capture n s1)) = 0
  /\ logged (snd (stop_recording late (capture n s1)))
     = logged s ++ [ErrorWriterNotOpened path].
Proof.
  unfold is_recording. intros Hi. cbv zeta.
  assert (E1 : start_recording path fps false s
               = mkCamera false (Some Finished) 0 false
                   (logged s ++ [ErrorWriterNotOpened path])).
  { unfold start_recording. rewrite Hi. reflexivity. }
  rewrite E1. cbn. repeat split.
Qed.

Lemma unopened_writer_records_nothing :
  let s := camera_webcam.__init__ in
  let s1 := start_recording "z.avi" 30 false s in
  is_recording s = false
  /\ is_recording s1 = false
  /\ capture 9 s1 = s1
  /\ fst (stop_recording 0 (capture 9 s1)) = 0
  /\ logged (snd (stop_recording 0 (capture 9 s1)))
     = logged s ++ [ErrorWriterNotOpened "z.avi"].
Proof.
  cbv zeta. split; [reflexivity|].
  exact (failed_writer_leaves_camera_idle camera_webcam.__init__ "z.avi" 30 9 0
           eq_refl).
Defined.

End camera_lifecycle.

(** * A session of the event logger *)
Module event_session.
Import event_logger.

(** What is done to a logger after its construction. *)
Inductive Op :=
| OpStartClock (now : Q)
| OpLog (now : Q) (event_type subject shape rep detail : string).

Section Session.
Variable format_fixed : nat -> Q -> string.

Definition apply_op (op : Op) (self : EventLogger) : Error + EventLogger :=
  match op with
  | OpStartClock now => inr (start_clock now self)
  | OpLog now event_type subject shape rep detail =>
      log format_fixed now event_type subject shape rep detail self
  end.

(** The calls one after the other; an exception ends the session. *)
Fixpoint apply_ops (ops : list Op) (self : EventLogger) : Error + EventLogger :=
  match ops with
  | [] => inr self
  | op :: rest =>
      match apply_op op self with
      | inl e => inl e
      | inr self' => apply_ops rest self'
      end
  end.

(** The rows the calls are to leave, the clock having been started at
    [start] or not at all. *)
Fixpoint rows_of (start : option Q) (ops : list Op) : list (list string) :=
  match ops with
  | [] => []
  | OpStartClock now :: rest => rows_of (Some now) rest
  | OpLog now event_type subject shape rep detail :: rest =>
      row_of format_fixed now (mkLogger "" start open_w)
        event_type subject shape rep detail
      :: rows_of start rest
  end.

Lemma apply_ops_appends ops :
  forall self,
    closed (_file self) = false ->
    buffered (_file self) = [] ->
    exists self',
      apply_ops ops self = inr self'
      /\ flushed (_file self')
         = flushed (_file self) ++ rows_of (_start_time self) ops
      /\ buffered (_file self') = []
      /\ closed (_file self') = false.
Proof.
  induction ops as [|op ops IH]; intros self Hc Hb.
  - exists self. simpl. rewrite app_nil_r. auto.
  - destruct op as [now|now event_type subject shape rep detail]; simpl.
    + destruct (IH (start_clock now self) Hc Hb) as (self' & E & F & B & C).
      exists self'. auto.
    + unfold log, writerow, flush. rewrite Hc. simpl.
      match goal with
      | |- exists _, apply_ops _ ?s = _ /\ _ =>
          destruct (IH s eq_refl eq_refl) as (self' & E & F & B & C)
      end.
      exists self'. split; [exact E|]. split; [| auto].
      rewrite F. simpl. rewrite Hb, <- app_assoc. simpl.
      repeat f_equal.
Qed.

(** The file of a session is its header and then one row for each call of
    [log], in the order of the calls: after the constructor and any
    sequence of [start_clock] and [log] calls, no call has failed, every
    row is on disk, and the buffer is empty. A row logged before the first
    [start_clock] carries an elapsed time of 0; a later one the time since
    the last [start_clock] before it. *)
Theorem session_file_is_header_then_rows path ops :
  exists self0 self',
    __init__ path = inr self0
    /\ apply_ops ops self0 = inr self'
    /\ flushed (_file self') = HEADER :: rows_of None ops
    /\ buffered (_file self') = []
    /\ List.length (flushed (_file self'))
       = S (List.length (filter (fun op => match op with
                                           | OpLog _ _ _ _ _ _ => true
                                           | _ => false
                                           end) ops)).
Proof.
  eexists.
  destruct (apply_ops_appends ops (mkLogger path None (mkFile [HEADER] [] false))
              eq_refl eq_refl) as (self' & E & F & B & C).
  exists self'. split; [reflexivity|]. split; [exact E|].
  split; [exact F|]. split; [exact B|].
  rewrite F. simpl. f_equal. clear.
  generalize (@None Q). induction ops as [|[now|now e s sh r d] ops IH];
    intros start; simpl; auto.
Qed.

(** [close] is final: on a closed logger every [log] raises ValueError,
    whatever its arguments, and a session that reaches such a call ends
    there; closing again changes nothing; and closing leaves on disk
    exactly the rows that were there. *)
Theorem log_after_close_raises now event_type subject shape rep detail ops self :
  log format_fixed now event_type subject shape rep detail (close self)
  = inl ValueError
  /\ apply_ops (OpLog now event_type subject shape rep detail :: ops)
       (close self)
     = inl ValueError
  /\ close (close self) = close self
  /\ flushed (_file (close self)) = flushed (_file self).
Proof. repeat split. Qed.

End Session.

End event_session.

(** * data/app_memory.py: what the application remembers between sessions *)
Module app_memory.

Section Memory.
(** A settings dictionary, as [json] reads and writes it; its content plays
    no part here. *)
Variable Dict : Type.
Variable empty_dict : Dict.

(** The attributes of an [AppMemory]. *)
Record AppMemory := mkMemory {
  last_output_folder : string;
  subject_history : list string;
  last_settings : Dict;
  last_camera_settings : Dict;
  last_audio_device : string;
  last_screen_index : Z
}.

(** The object in memory.json: each key is there or not, with a value of
    the type [save] writes. *)
Record Data := mkData {
  d_last_output_folder : option string;
  d_subject_history : option (list string);
  d_last_settings : option Dict;
  d_last_camera_settings : option Dict;
  d_last_audio_device : option string;
  d_last_screen_index : option Z
}.

(** memory.json: absent, unreadable (not JSON, or not an object), or an
    object. *)
Inductive MemoryFile :=
| Absent
| Unreadable
| Object (data : Data).

Inductive LogRecord :=
| InfoLoaded
| WarnLoadFailed
| DebugSaved
| WarnSaveFailed.

(** [dict.get(key, default)] *)
Definition get {V} (v : option V) (default : V) : V :=
  match v with
  | Some x => x
  | None => default
  end.

(** [AppMemory.load], lines 33-48 *)
Definition load (file : MemoryFile) (self : AppMemory)
  : AppMemory * list LogRecord :=
  match file with
  | Absent => (self, [])
  | Unreadable => (self, [WarnLoadFailed])
  | Object data =>
      (mkMemory (get (d_last_output_folder data) "")
         (get (d_subject_history data) [])
         (get (d_last_settings data) empty_dict)
         (get (d_last_camera_settings data) empty_dict)
         (get (d_last_audio_device data) "")
         (get (d_last_screen_index data) (-1)),
       [InfoLoaded])
  end.

(** [AppMemory.__init__], lines 24-31 *)
Definition __init__ (file : MemoryFile) : AppMemory * list LogRecord :=
  load file (mkMemory "" [] empty_dict empty_dict "" (-1)).

(** [AppMemory.save], lines 50-66; [writable] says whether the directory
    can be made and the file written. The method returns nothing: the
    result is the file and what is logged. *)
Definition save (writable : bool) (file : MemoryFile) (self : AppMemory)
  : MemoryFile * list LogRecord :=
  if writable then
    (Object
       (mkData (Some (last_output_folder self)) (Some (subject_history self))
          (Some (last_settings self)) (Some (last_camera_settings self))
          (Some (last_audio_device self)) (Some (last_screen_index self))),
     [DebugSaved])
  else (file, [WarnSaveFailed]).

(** [name not in seen] on the set [seen] *)
Definition not_in (name : string) (seen : list string) : bool :=
  negb (existsb (String.eqb name) seen).

(** [if name]: a string is true when it is not empty. *)
Definition truthy (name : string) : bool :=
  match name with
  | EmptyString => false
  | _ => true
  end.

(** The loop of [add_subjects], lines 70-74, on the history and the set
    [seen]. *)
Fixpoint add_loop (names : list string) (history seen : list string)
  : list string * list string :=
  match names with
  | [] => (history, seen)
  | name :: rest =>
      if truthy name && not_in name seen
      then add_loop rest (history ++ [name]) (name :: seen)
      else add_loop rest history seen
  end.

(** [AppMemory.add_subjects], lines 68-75 *)
Definition add_subjects (names : list string) (writable : bool)
    (file : MemoryFile) (self : AppMemory)
  : AppMemory * MemoryFile * list LogRecord :=
  let seen := subject_history self in
  let '(history, _) := add_loop names (subject_history self) seen in
  let self' :=
    mkMemory (last_output_folder self) history (last_settings self)
      (last_camera_settings self) (last_audio_device self)
      (last_screen_index self) in
  let '(file', logs) := save writable file self' in
  (self', file', logs).

(** [AppMemory.get_subject_history], lines 77-79: a new list. *)
Definition get_subject_history (self : AppMemory) : list string :=
  subject_history self.

(** [AppMemory.update_settings], lines 81-84 *)
Definition update_settings (config_dict : Dict) (writable : bool)
    (file : MemoryFile) (self : AppMemory)
  : AppMemory * MemoryFile * list LogRecord :=
  let self' :=
    mkMemory (last_output_folder self) (subject_history self) config_dict
      (last_camera_settings self) (last_audio_device self)
      (last_screen_index self) in
  let '(file', logs) := save writable file self' in
  (self', file', logs).

(** [AppMemory.update_camera_settings], lines 86-89 *)
Definition update_camera_settings (camera_dict : Dict) (writable : bool)
    (file : MemoryFile) (self : AppMemory)
  : AppMemory * MemoryFile * list LogRecord :=
  let self' :=
    mkMemory (last_output_folder self) (subject_history self)
      (last_settings self) camera_dict (last_audio_device self)
      (last_screen_index self) in
  let '(file', logs) := save writable file self' in
  (self', file', logs).

(** ** The history *)

(** [l1] is [l2] with some elements left out. *)
Inductive subseq : list string -> list string -> Prop :=
| subseq_nil : subseq [] []
| subseq_skip x l1 l2 : subseq l1 l2 -> subseq l1 (x :: l2)
| subseq_keep x l1 l2 : subseq l1 l2 -> subseq (x :: l1) (x :: l2).

Lemma not_in_spec name seen : not_in name seen = true <-> ~ In name seen.
Proof.
  unfold not_in. rewrite negb_true_iff. split.
  - intros H Hin.
    assert (E : existsb (String.eqb name) seen = true).
    { apply existsb_exists. exists name. split; [exact Hin|]. apply String.eqb_refl. }
    congruence.
  - intros H. destruct (existsb (String.eqb name) seen) eqn:E; [| reflexivity].
    apply existsb_exists in E. destruct E as (x & Hx & Ex).
    apply String.eqb_eq in Ex. subst x. contradiction.
Qed.

Lemma truthy_spec name : truthy name = true <-> name <> "".
Proof. destruct name; simpl; split; congruence. Qed.

(** The loop appends to the history; what it appends, in the order of
    [names], are the names that are not empty and not yet seen, once
    each. *)
Lemma add_loop_spec names :
  forall history seen,
    (forall x, In x seen <-> In x history) ->
    exists added,
      fst (add_loop names history seen) = history ++ added
      /\ subseq added names
      /\ NoDup added
      /\ (forall x, In x added <-> In x names /\ x <> "" /\ ~ In x history).
Proof.
  induction names as [|name rest IH]; intros history seen Hs.
  - exists []. simpl. rewrite app_nil_r.
    split; [reflexivity|]. split; [constructor|]. split; [constructor|].
    intros x. split; [intros [] | intros [[] _]].
  - simpl. destruct (truthy name && not_in name seen) eqn:E.
    + apply andb_true_iff in E. destruct E as [Et En].
      apply truthy_spec in Et. apply not_in_spec in En.
      destruct (IH (history ++ [name]) (name :: seen)) as (added & E & Hsub & Hnd & Hin).
      { intros x. simpl. rewrite in_app_iff, Hs. simpl. tauto. }
      exists (name :: added). split; [| split; [| split]].
      * rewrite E, <- app_assoc. reflexivity.
      * apply subseq_keep. exact Hsub.
      * constructor; [| exact Hnd]. intros Hx. apply Hin in Hx.
        destruct Hx as (_ & _ & Hx). apply Hx. apply in_app_iff. simpl. auto.
      * intros x. simpl. rewrite Hin, in_app_iff. simpl. split.
        -- intros [<- | (H1 & H2 & H3)].
           ++ repeat split; auto. rewrite <- Hs. exact En.
           ++ repeat split; auto.
        -- intros ([<- | H1] & H2 & H3); [left; reflexivity|].
           destruct (string_dec name x) as [<- | Hne]; [left; reflexivity|].
           right. repeat split; auto. intros [H | [H | []]]; auto.
    + destruct (IH history seen Hs) as (added & E' & Hsub & Hnd & Hin).
      exists added. split; [exact E'|]. split; [apply subseq_skip; exact Hsub|].
      split; [exact Hnd|].
      intros x. rewrite Hin. simpl. split.
      * intros (H1 & H2 & H3). auto.
      * intros ([<- | H1] & H2 & H3); [| auto].
        exfalso. apply andb_false_iff in E. destruct E as [E | E].
        -- apply truthy_spec in H2. congruence.
        -- rewrite <- Hs in H3. apply not_in_spec in H3. congruence.
Qed.

Lemma history_of_add_subjects names writable file self :
  subject_history (fst (fst (add_subjects names writable file self)))
  = fst (add_loop names (subject_history self) (subject_history self)).
Proof.
  unfold add_subjects.
  destruct (add_loop names (subject_history self) (subject_history self)).
  destruct (save writable file _). reflexivity.
Qed.

Lemma history_after_add_subjects names writable file self :
  exists added,
    subject_history (fst (fst (add_subjects names writable file self)))
    = subject_history self ++ added
    /\ (forall x, In x added
                  <-> In x names /\ x <> "" /\ ~ In x (subject_history self)).
Proof.
  destruct (add_loop_spec names (subject_history self) (subject_history self))
    as (added & E & Hsub & Hnd & Hin); [tauto|].
  exists added. rewrite history_of_add_subjects. auto.
Qed.

(** [add_subjects] never removes or reorders what the history holds: it
    appends to it, in the order of [names], exactly the names that are not
    empty and not yet in the history, each once. So a history without
    duplicates stays without duplicates, and an empty name never enters
    it. The other attributes are left as they are. *)
Theorem add_subjects_appends_new_names names writable file self :
  exists added,
    let self' := fst (fst (add_subjects names writable file self)) in
    subject_history self' = subject_history self ++ added
    /\ subseq added names
    /\ NoDup added
    /\ (forall x, In x added
                  <-> In x names /\ x <> "" /\ ~ In x (subject_history self))
    /\ (NoDup (subject_history self) -> NoDup (subject_history self'))
    /\ ~ In "" added
    /\ last_settings self' = last_settings self
    /\ last_output_folder self' = last_output_folder self.
Proof.
  destruct (add_loop_spec names (subject_history self) (subject_history self))
    as (added & E & Hsub & Hnd & Hin); [tauto|].
  exists added. cbv zeta. rewrite history_of_add_subjects.
  split; [exact E|]. split; [exact Hsub|]. split; [exact Hnd|].
  split; [exact Hin|]. split; [| split; [| split]].
  - intros Hh. rewrite E. apply NoDup_app; [exact Hh | exact Hnd |].
    intros x Hx Hx'. apply Hin in Hx'. destruct Hx' as (_ & _ & Hx').
    contradiction.
  - intros H. apply Hin in H. destruct H as (_ & H & _). apply H. reflexivity.
  - unfold add_subjects.
    destruct (add_loop names (subject_history self) (subject_history self)).
    destruct (save writable file _). reflexivity.
  - unfold add_subjects.
    destruct (add_loop names (subject_history self) (subject_history self)).
    destruct (save writable file _). reflexivity.
Qed.

(** Adding the same names again changes nothing: [add_subjects] is
    idempotent on the history, whether or not the file could be written. *)
Theorem add_subjects_twice_is_once names w1 f1 w2 f2 self :
  let once := fst (fst (add_subjects names w1 f1 self)) in
  subject_history (fst (fst (add_subjects names w2 f2 once)))
  = subject_history once.
Proof.
  cbv zeta.
  destruct (history_after_add_subjects names w1 f1 self)
    as (added1 & E1 & Hin1).
  destruct (history_after_add_subjects names w2 f2
              (fst (fst (add_subjects names w1 f1 self))))
    as (added2 & E2 & Hin2).
  rewrite E2. destruct added2 as [|x rest]; [apply app_nil_r|].
  exfalso. destruct (Hin2 x) as [H _].
  destruct (H (or_introl eq_refl)) as (Hn & He & Hh).
  apply Hh. rewrite E1, in_app_iff.
  destruct (in_dec string_dec x (subject_history self)) as [Hi | Hi];
    [left; exact Hi | right]. apply Hin1. auto.
Qed.


End Memory.

(** Two new subjects among five names: the empty name, the name already in
    the history and the repeated name are left out. *)
Example add_subjects_keeps_first_occurrences :
  let self := mkMemory unit "out" ["amy"] tt tt "" 0 in
  subject_history unit
    (fst (fst (add_subjects unit ["bob"; ""; "amy"; "bob"; "cat"] true
                 (Absent unit) self)))
  = ["amy"; "bob"; "cat"].
Proof. reflexivity. Qed.

End app_memory.

From Stdlib Require DecimalPos DecimalZ.

(** * data/session_manager.py: the folders and file names of a session *)
Module session_manager.

(** Modelled from the spec: config/settings.py is absent; the record holds
    the attributes of the configuration that [SessionManager] reads. *)
Record ExperimentConfig := mkConfig {
  output_base_dir : string;
  repetitions : Z;
  shapes : list string
}.

(** A path is the list of its components; [p / name] adds one. The names
    put in a path are taken to hold no separator. *)
Definition Path := list string.

Definition div (p : Path) (name : string) : Path := p ++ [name].

(** The directories and the files of the disk. *)
Record Disk := mkDisk {
  dirs : list Path;
  files : list Path
}.

Definition path_eqb (p q : Path) : bool :=
  if list_eq_dec string_dec p q then true else false.

Definition is_dir (p : Path) (l : list Path) : bool := existsb (path_eqb p) l.

(** The directories above [p], from the top, and [p] itself. *)
Definition ancestors_and_self (p : Path) : list Path :=
  map (fun k => firstn k p) (seq 1 (List.length p)).

(** [p.mkdir(parents=True, exist_ok=True)]: make every directory of the
    chain that is not there yet. *)
Definition mkdir_p (p : Path) (l : list Path) : list Path :=
  fold_left (fun acc q => if is_dir q acc then acc else acc ++ [q])
    (ancestors_and_self p) l.

Record SessionManager := mkSession {
  config : ExperimentConfig;
  timestamp : string;
  session_dir : Path
}.

(** [SessionManager.__init__], lines 26-31, with the reading of the clock
    already formatted. *)
Definition __init__ (config : ExperimentConfig) (now : string) : SessionManager :=
  mkSession config now (div [output_base_dir config] ("session_" ++ now)).

(** The folder of a trial, as lines 41-44 and 69-72 build it. *)
Definition trial_folder (self : SessionManager) (subject : string) (rep : Z)
    (shape : string) : Path :=
  div (div (div (div (session_dir self) "subjects") subject)
         ("rep_" ++ str_of_int rep)) shape.

(** [create_session_dirs], lines 33-49. [config.save] writes the snapshot
    file. *)
Definition create_session_dirs (subjects : list string) (self : SessionManager)
    (disk : Disk) : Path * Disk :=
  let d0 := mkdir_p (session_dir self) (dirs disk) in
  let d1 :=
    fold_left (fun d name =>
      fold_left (fun d rep =>
        fold_left (fun d shape =>
          mkdir_p (trial_folder self name rep shape) d)
          (shapes (config self)) d)
        (range_from 1 (repetitions (config self) + 1)) d)
      subjects d0 in
  (session_dir self,
   mkDisk d1 (files disk ++ [div (session_dir self) "session_config.json"])).

(** The file name of lines 74-82. *)
Definition video_file_name (subject : string) (rep : Z) (shape timestamp : string)
    (shape_instance cycle : Z) : string :=
  if 0 <? cycle then
    subject ++ "_" ++ shape ++ "_rep" ++ str_of_int rep ++ "_shapeRep"
    ++ str_of_int shape_instance ++ "_cycle" ++ str_of_int cycle ++ "_"
    ++ timestamp ++ ".avi"
  else
    subject ++ "_" ++ shape ++ "_rep" ++ str_of_int rep ++ "_shapeRep"
    ++ str_of_int shape_instance ++ "_" ++ timestamp ++ ".avi".

(** [trial_video_path], lines 51-83: the path, and the disk after the
    [mkdir] of the folder. *)
Definition trial_video_path (self : SessionManager) (subject : string) (rep : Z)
    (shape timestamp : string) (shape_instance cycle : Z) (disk : Disk)
  : Path * Disk :=
  let folder := trial_folder self subject rep shape in
  (div folder
     (video_file_name subject rep shape timestamp shape_instance cycle),
   mkDisk (mkdir_p folder (dirs disk)) (files disk)).

(** ** Strings *)

Lemma append_assoc (a b c : string) : ((a ++ b) ++ c)%string = (a ++ b ++ c)%string.
Proof. induction a as [|x a IH]; simpl; [reflexivity | rewrite IH; reflexivity]. Qed.

Lemma append_length (a b : string) :
  String.length (a ++ b) = (String.length a + String.length b)%nat.
Proof. induction a as [|x a IH]; simpl; [reflexivity | rewrite IH; reflexivity]. Qed.

Lemma append_cancel_l (s a b : string) : (s ++ a)%string = (s ++ b)%string -> a = b.
Proof.
  induction s as [|x s IH]; simpl; intros H; [exact H|].
  injection H as H. auto.
Qed.

Lemma append_cancel_r (t a b : string) : (a ++ t)%string = (b ++ t)%string -> a = b.
Proof.
  revert b. induction a as [|x a IH]; intros [|y b] H; simpl in H.
  - reflexivity.
  - apply (f_equal String.length) in H. simpl in H. rewrite append_length in H. lia.
  - apply (f_equal String.length) in H. simpl in H. rewrite append_length in H. lia.
  - injection H as -> H. f_equal. auto.
Qed.

Lemma to_int_not_nil (n : Z) :
  Z.to_int n <> Decimal.Pos Decimal.Nil /\ Z.to_int n <> Decimal.Neg Decimal.Nil.
Proof.
  destruct n as [|p|p]; simpl; split; try discriminate;
    intros H; injection H as H; exact (DecimalPos.Unsigned.to_uint_nonnil p H).
Qed.

(** [str] of an [int] tells the integers apart. *)
Lemma str_of_int_inj (a b : Z) : str_of_int a = str_of_int b -> a = b.
Proof.
  unfold str_of_int. intros H.
  apply (f_equal NilZero.int_of_string) in H.
  destruct (to_int_not_nil a) as [A1 A2], (to_int_not_nil b) as [B1 B2].
  rewrite !NilZero.isi in H by assumption.
  injection H as H. apply DecimalZ.to_int_inj. exact H.
Qed.

(** ** The disk *)

Lemma path_eqb_eq p q : path_eqb p q = true <-> p = q.
Proof.
  unfold path_eqb. destruct (list_eq_dec string_dec p q); split;
    congruence.
Qed.

Lemma is_dir_in p l : is_dir p l = true <-> In p l.
Proof.
  unfold is_dir. rewrite existsb_exists. split.
  - intros (q & Hq & E). apply path_eqb_eq in E. subst q. exact Hq.
  - intros H. exists p. split; [exact H|]. apply path_eqb_eq. reflexivity.
Qed.

(** Every directory of [want] is there. *)
Definition all_there (want l : list Path) : Prop := forall q, In q want -> In q l.

Lemma make_chain_keeps chain :
  forall l q, In q l ->
    In q (fold_left (fun acc q => if is_dir q acc then acc else acc ++ [q])
            chain l).
Proof.
  induction chain as [|c chain IH]; intros l q H; simpl; [exact H|].
  apply IH. destruct (is_dir c l); [exact H|]. apply in_app_iff. auto.
Qed.

Lemma make_chain_makes chain :
  forall l,
    all_there chain
      (fold_left (fun acc q => if is_dir q acc then acc else acc ++ [q])
         chain l).
Proof.
  induction chain as [|c chain IH]; intros l q H; simpl in *; [contradiction|].
  destruct H as [<- | H].
  - apply make_chain_keeps. destruct (is_dir c l) eqn:E.
    + apply is_dir_in. exact E.
    + apply in_app_iff. simpl. auto.
  - apply IH. exact H.
Qed.

Lemma make_chain_nothing chain :
  forall l, all_there chain l ->
    fold_left (fun acc q => if is_dir q acc then acc else acc ++ [q]) chain l
    = l.
Proof.
  induction chain as [|c chain IH]; intros l H; simpl; [reflexivity|].
  assert (E : is_dir c l = true) by (apply is_dir_in, H; left; reflexivity).
  rewrite E. apply IH. intros q Hq. apply H. right. exact Hq.
Qed.

Lemma mkdir_p_keeps p l q : In q l -> In q (mkdir_p p l).
Proof. apply make_chain_keeps. Qed.

Lemma mkdir_p_makes p l : all_there (ancestors_and_self p) (mkdir_p p l).
Proof. apply make_chain_makes. Qed.

Lemma mkdir_p_nothing p l :
  all_there (ancestors_and_self p) l -> mkdir_p p l = l.
Proof. apply make_chain_nothing. Qed.

Lemma all_there_mkdir want p l : all_there want l -> all_there want (mkdir_p p l).
Proof. intros H q Hq. apply mkdir_p_keeps, H, Hq. Qed.

(** A loop whose every step keeps what is there, and whose step for [x]
    makes [want]. *)
Lemma loop_makes {X} (step : list Path -> X -> list Path) want x xs :
  (forall l y, all_there want l -> all_there want (step l y)) ->
  (forall l, all_there want (step l x)) ->
  In x xs ->
  forall l, all_there want (fold_left step xs l).
Proof.
  intros Hkeep Hmake. induction xs as [|y xs IH]; intros Hin l; [contradiction|].
  simpl. destruct Hin as [-> | Hin].
  - clear IH. generalize (Hmake l). generalize (step l x). clear l.
    induction xs as [|z xs IH]; intros l H; simpl; [exact H|].
    apply IH, Hkeep, H.
  - apply IH. exact Hin.
Qed.

Lemma loop_keeps {X} (step : list Path -> X -> list Path) want xs :
  (forall l y, all_there want l -> all_there want (step l y)) ->
  forall l, all_there want l -> all_there want (fold_left step xs l).
Proof.
  intros Hkeep. induction xs as [|y xs IH]; intros l H; simpl; [exact H|].
  apply IH, Hkeep, H.
Qed.

Lemma in_range_from lo hi x : lo <= x < hi -> In x (range_from lo hi).
Proof.
  intros H. unfold range_from. apply in_map_iff.
  exists (Z.to_nat (x - lo)). split; [lia|]. apply in_seq. lia.
Qed.

Lemma create_session_dirs_makes
    subjects self disk subject rep shape timestamp shape_instance cycle :
  session_dir self <> [] ->
  In subject subjects ->
  1 <= rep <= repetitions (config self) ->
  In shape (shapes (config self)) ->
  let '(returned, disk') := create_session_dirs subjects self disk in
  returned = session_dir self
  /\ In (session_dir self) (dirs disk')
  /\ In (trial_folder self subject rep shape) (dirs disk')
  /\ snd (trial_video_path self subject rep shape timestamp shape_instance
            cycle disk')
     = disk'
  /\ (forall q, In q (dirs disk) -> In q (dirs disk')).
Proof.
  intros Hne Hs Hr Hsh. unfold create_session_dirs.
  set (inner := fun (name : string) (rep0 : Z) (d : list Path) (shape0 : string) =>
                  mkdir_p (trial_folder self name rep0 shape0) d).
  set (middle := fun (name : string) (d : list Path) (rep0 : Z) =>
                   fold_left (inner name rep0) (shapes (config self)) d).
  set (outer := fun (d : list Path) (name : string) =>
                  fold_left (middle name)
                    (range_from 1 (repetitions (config self) + 1)) d).
  assert (Kinner : forall want name rep0 l y,
             all_there want l -> all_there want (inner name rep0 l y)).
  { intros. apply all_there_mkdir. assumption. }
  assert (Kmiddle : forall want name l y,
             all_there want l -> all_there want (middle name l y)).
  { intros. apply loop_keeps; [apply Kinner | assumption]. }
  assert (Kouter : forall want l y,
             all_there want l -> all_there want (outer l y)).
  { intros. apply loop_keeps; [apply Kmiddle | assumption]. }
  assert (Made : all_there
                   (ancestors_and_self (trial_folder self subject rep shape))
                   (fold_left outer subjects
                      (mkdir_p (session_dir self) (dirs disk)))).
  { apply loop_makes with (x := subject); [apply Kouter | | exact Hs].
    intros l. apply loop_makes with (x := rep);
      [apply Kmiddle | | apply in_range_from; lia].
    intros l'. apply loop_makes with (x := shape);
      [apply Kinner | | exact Hsh].
    intros l''. apply mkdir_p_makes. }
  split; [reflexivity|]. simpl dirs. split; [| split; [| split]].
  - apply loop_keeps with (want := [session_dir self]);
      [apply Kouter | | left; reflexivity].
    intros q [<- | []].
    apply (mkdir_p_makes (session_dir self) (dirs disk)).
    unfold ancestors_and_self. apply in_map_iff.
    exists (List.length (session_dir self)). split; [apply firstn_all|].
    apply in_seq. destruct (session_dir self); [contradiction | simpl; lia].
  - apply Made. unfold ancestors_and_self. apply in_map_iff.
    exists (List.length (trial_folder self subject rep shape)).
    split; [apply firstn_all|]. apply in_seq.
    unfold trial_folder, div. rewrite !length_app. simpl. lia.
  - unfold trial_video_path. simpl. f_equal. apply mkdir_p_nothing. exact Made.
  - intros q Hq.
    apply loop_keeps with (want := [q]); [apply Kouter | | left; reflexivity].
    intros q' [<- | []]. apply mkdir_p_keeps. exact Hq.
Qed.

(** After [create_session_dirs], the folder of every trial of the session
    is on the disk with the folders above it: for a subject of the list, a
    repetition from 1 to [config.repetitions] and a shape of
    [config.shapes], the [mkdir] of [trial_video_path] finds everything
    made and leaves the disk as it is. The method returns the session
    folder, which is there too, and leaves what was on the disk. *)
Theorem create_session_dirs_prepares_folders
    subjects cfg now disk subject rep shape timestamp shape_instance cycle :
  let self := __init__ cfg now in
  In subject subjects ->
  1 <= rep <= repetitions cfg ->
  In shape (shapes cfg) ->
  let '(returned, disk') := create_session_dirs subjects self disk in
  returned = session_dir self
  /\ In (session_dir self) (dirs disk')
  /\ In (trial_folder self subject rep shape) (dirs disk')
  /\ snd (trial_video_path self subject rep shape timestamp shape_instance
            cycle disk')
     = disk'
  /\ (forall q, In q (dirs disk) -> In q (dirs disk')).
Proof.
  intros self Hs Hr Hsh.
  apply create_session_dirs_makes; try assumption. discriminate.
Qed.

Lemma same_file_same_cycle
    self subject rep shape timestamp shape_instance c1 c2 disk1 disk2 :
  0 < c1 -> 0 < c2 ->
  fst (trial_video_path self subject rep shape timestamp shape_instance c1 disk1)
  = fst (trial_video_path self subject rep shape timestamp shape_instance c2
           disk2) ->
  c1 = c2.
Proof.
  intros H1 H2. unfold trial_video_path, div. simpl.
  intros H. apply app_inv_head in H. injection H as H.
  unfold video_file_name in H.
  apply Z.ltb_lt in H1, H2. rewrite H1, H2 in H.
  repeat (apply append_cancel_l in H).
  rewrite <- !append_assoc in H.
  do 3 apply append_cancel_r in H.
  apply str_of_int_inj. exact H.
Qed.

(** The videos of the cycles of one trial go to different files: for the
    same subject, repetition, shape, time stamp and shape instance, two
    different cycle numbers above 0 give different paths, whatever the
    names are. A cycle number of 0 or less gives the older name, which
    does not tell the cycle. *)
Theorem cycles_have_their_own_files
    self subject rep shape timestamp shape_instance c1 c2 disk1 disk2 :
  0 < c1 -> 0 < c2 -> c1 <> c2 ->
  fst (trial_video_path self subject rep shape timestamp shape_instance c1 disk1)
  <> fst (trial_video_path self subject rep shape timestamp shape_instance c2
            disk2).
Proof.
  intros H1 H2 Hne H. apply Hne.
  exact (same_file_same_cycle self subject rep shape timestamp shape_instance
           c1 c2 disk1 disk2 H1 H2 H).
Qed.

Definition session1 : SessionManager :=
  __init__ (mkConfig "outputs" 2 ["circle"; "star"]) "2024-05-01_10-00-00".

Lemma second_repetition_star_is_prepared :
  let disk := mkDisk [] [] in
  In "amy" ["amy"; "bob"]
  /\ 1 <= 2 <= repetitions (config session1)
  /\ In "star" (shapes (config session1))
  /\ trial_folder session1 "amy" 2 "star"
     = ["outputs"; "session_2024-05-01_10-00-00"; "subjects"; "amy"; "rep_2";
        "star"]
  /\ let '(returned, disk') := create_session_dirs ["amy"; "bob"] session1 disk in
     returned = session_dir session1
     /\ In (session_dir session1) (dirs disk')
     /\ In (trial_folder session1 "amy" 2 "star") (dirs disk')
     /\ snd (trial_video_path session1 "amy" 2 "star" "t" 1 3 disk') = disk'
     /\ (forall q, In q (dirs disk) -> In q (dirs disk')).
Proof.
  cbv zeta.
  assert (Hs : In "amy" ["amy"; "bob"]) by (left; reflexivity).
  assert (Hr : 1 <= 2 <= repetitions (config session1)) by (simpl; lia).
  assert (Hsh : In "star" (shapes (config session1)))
    by (right; left; reflexivity).
  split; [exact Hs|]. split; [exact Hr|]. split; [exact Hsh|].
  split; [reflexivity|].
  exact (create_session_dirs_prepares_folders ["amy"; "bob"]
           (mkConfig "outputs" 2 ["circle"; "star"]) "2024-05-01_10-00-00"
           (mkDisk [] []) "amy" 2 "star" "t" 1 3 Hs Hr Hsh).
Defined.

Lemma cycle_1_and_cycle_2_differ :
  let p c := fst (trial_video_path session1 "amy" 1 "star" "t" 1 c (mkDisk [] [])) in
  0 < 1 /\ 0 < 2 /\ 1 <> 2
  /\ p 2 = ["outputs"; "session_2024-05-01_10-00-00"; "subjects"; "amy"; "rep_1";
            "star"; "amy_star_rep1_shapeRep1_cycle2_t.avi"]
  /\ p 0 = ["outputs"; "session_2024-05-01_10-00-00"; "subjects"; "amy"; "rep_1";
            "star"; "amy_star_rep1_shapeRep1_t.avi"]
  /\ p (-1) = p 0
  /\ p 1 <> p 2.
Proof.
  cbv zeta.
  assert (Hne : 1 <> 2) by discriminate.
  split; [reflexivity|]. split; [reflexivity|]. split; [exact Hne|].
  split; [reflexivity|]. split; [reflexivity|]. split; [reflexivity|].
  exact (cycles_have_their_own_files session1 "amy" 1 "star" "t" 1 1 2
           (mkDisk [] []) (mkDisk [] []) eq_refl eq_refl Hne).
Defined.

End session_manager.

From Stdlib Require Import Lqa.

(** * utils/timing.py: the wait that does not return early *)
Module timing.

Local Open Scope Q_scope.

(** Line 13 *)
Definition _SPIN_THRESHOLD : Q := 2 # 1000.

Section Sleep.
(** What the machine decides: how long [time.sleep(d)] really takes
    (Windows rounds it to its timer, and it may return early or late), and
    how long one turn of the spin loop takes between two readings of
    [time.perf_counter()]. *)
Variable slept : Q -> Q.
Variable tick : Q.

(** [while time.perf_counter() < target: pass], lines 33-34, from a first
    reading [now]; the result is the reading that ends the loop, [None]
    when [fuel] turns were not enough. *)
Fixpoint spin (fuel : nat) (target now : Q) : option Q :=
  match fuel with
  | O => None
  | S fuel' =>
      if fgt target now then spin fuel' target (now + tick) else Some now
  end.

(** [precise_sleep], lines 16-34, called when the clock reads [now]. *)
Definition precise_sleep (fuel : nat) (duration now : Q) : option Q :=
  if fle duration 0 then Some now
  else
    let target := now + duration in
    let sleep_duration := duration - _SPIN_THRESHOLD in
    let woken :=
      if fgt sleep_duration 0 then now + slept sleep_duration else now in
    spin fuel target woken.

Hypothesis tick_positive : 0 < tick.

Lemma spin_succ fuel target now :
  spin (S fuel) target now
  = if fgt target now then spin fuel target (now + tick) else Some now.
Proof. reflexivity. Qed.

Lemma fgt_true a b : fgt a b = true <-> b < a.
Proof.
  unfold fgt. rewrite negb_true_iff. split.
  - intros H. apply Qnot_le_lt. intros L. apply Qle_bool_iff in L. congruence.
  - intros H. destruct (Qle_bool a b) eqn:E; [| reflexivity].
    apply Qle_bool_iff in E. lra.
Qed.

Lemma fgt_false a b : fgt a b = false <-> a <= b.
Proof.
  unfold fgt. rewrite negb_false_iff. apply Qle_bool_iff.
Qed.

Lemma inject_succ n : inject_Z (Z.of_nat (S n)) == inject_Z (Z.of_nat n) + 1.
Proof. rewrite Nat2Z.inj_succ, <- Z.add_1_r, inject_Z_plus. reflexivity. Qed.

(** With enough turns the loop ends, at the first reading that is not
    before the target: not before the target, and less than one turn after
    it unless the first reading was already past it. More turns change
    nothing. *)
Lemma spin_ends fuel :
  forall target now,
    target <= now + inject_Z (Z.of_nat fuel) * tick ->
    exists t,
      (forall more, spin (S fuel + more) target now = Some t)
      /\ target <= t /\ now <= t
      /\ (target <= now -> t = now)
      /\ (now <= target -> t < target + tick).
Proof.
  induction fuel as [|fuel IH]; intros target now H.
  - assert (L : target <= now)
      by (change (inject_Z (Z.of_nat 0)) with 0 in H; lra).
    exists now. split; [| split; [exact L | split; [lra | split; [auto | lra]]]].
    intros more. change (1 + more)%nat with (S more).
    apply fgt_false in L. rewrite spin_succ, L. reflexivity.
  - destruct (fgt target now) eqn:E.
    + pose proof E as L. apply fgt_true in L.
      destruct (IH target (now + tick)) as (t & Hs & H1 & H2 & H3 & H4).
      { rewrite inject_succ in H. lra. }
      exists t. split; [| split; [exact H1 | split; [lra | split; [lra |]]]].
      * intros more. change (S (S fuel) + more)%nat with (S (S fuel + more)).
        rewrite spin_succ, E. apply Hs.
      * intros _. destruct (Qlt_le_dec target (now + tick)) as [L' | L'].
        -- rewrite (H3 (Qlt_le_weak _ _ L')). lra.
        -- apply H4. exact L'.
    + exists now. pose proof E as L. apply fgt_false in L.
      split; [| split; [exact L | split; [lra | split; [auto | lra]]]].
      intros more. change (S (S fuel) + more)%nat with (S (S fuel + more)).
      rewrite spin_succ, E. reflexivity.
Qed.

(** As many turns as the loop can need from [now]. *)
Definition turns (target now : Q) : nat :=
  Z.to_nat (Qceiling ((target - now) / tick)).

Lemma turns_enough target now :
  target <= now + inject_Z (Z.of_nat (turns target now)) * tick.
Proof.
  unfold turns.
  set (q := (target - now) / tick).
  assert (Hq : q * tick == target - now).
  { unfold q. field. lra. }
  assert (Hc : q <= inject_Z (Z.of_nat (Z.to_nat (Qceiling q)))).
  { eapply Qle_trans; [apply Qle_ceiling|].
    rewrite <- Zle_Qle. lia. }
  assert (Hm : q * tick <= inject_Z (Z.of_nat (Z.to_nat (Qceiling q))) * tick).
  { apply Qmult_le_compat_r; [exact Hc | lra]. }
  lra.
Qed.

End Sleep.



(** With a loop that turns once a second: a [time.sleep] that comes back
    at once is made up for by five turns of the loop, three turns are not
    enough, and a [time.sleep] that wakes 7 s late makes the call return
    that late. *)
Example the_loop_makes_up_for_a_short_sleep :
  option_map Qred (precise_sleep (fun _ => 0) 1 6 5 100) = Some 105
  /\ precise_sleep (fun _ => 0) 1 3 5 100 = None
  /\ option_map Qred (precise_sleep (fun d => d + 7) 1 1 5 100)
     = Some (Qred (112 - _SPIN_THRESHOLD)).
Proof. vm_compute. repeat split. Qed.

End timing.

From Stdlib Require Ascii.

(** * core/enums.py: a shape from its name *)
Module shape_names.
Import enums.

(** The members of [Shape], in declaration order (lines 34-37). *)
Definition Shape_members : list Shape := [CIRCLE; SQUARE; TRIANGLE; STAR].

Inductive Error :=
| ValueError.    (* 'x' is not a valid Shape *)

(** [Shape(value)]: the member with that value. *)
Definition Shape_of_value (value : string) : Error + Shape :=
  match find (fun m => String.eqb (Shape_value m) value) Shape_members with
  | Some m => inr m
  | None => inl ValueError
  end.

(** [str.lower] and [str.upper] on the letters A to Z; the other
    characters are left as they are. No character outside ASCII has a
    letter of the four names as its lower case, so on the outcome of
    [from_string] this agrees with Python for every string. *)
Definition lower_char (c : Ascii.ascii) : Ascii.ascii :=
  let n := Ascii.nat_of_ascii c in
  if ((65 <=? n) && (n <=? 90))%nat then Ascii.ascii_of_nat (n + 32) else c.

Definition upper_char (c : Ascii.ascii) : Ascii.ascii :=
  let n := Ascii.nat_of_ascii c in
  if ((97 <=? n) && (n <=? 122))%nat then Ascii.ascii_of_nat (n - 32) else c.

Fixpoint map_string (f : Ascii.ascii -> Ascii.ascii) (s : string) : string :=
  match s with
  | EmptyString => EmptyString
  | String c rest => String (f c) (map_string f rest)
  end.

Definition lower : string -> string := map_string lower_char.
Definition upper : string -> string := map_string upper_char.

(** [Shape.from_string], lines 39-42 *)
Definition from_string (name : string) : Error + Shape :=
  Shape_of_value (lower name).

Lemma Shape_of_value_spec value s :
  Shape_of_value value = inr s <-> value = Shape_value s.
Proof.
  unfold Shape_of_value, Shape_members. cbn [find Shape_value]. split.
  - repeat match goal with
           | |- context [String.eqb ?a value] =>
               let E := fresh "E" in
               destruct (String.eqb a value) eqn:E;
               [apply String.eqb_eq in E;
                intros H; injection H as <-; symmetry; exact E|]
           end.
    intros H. discriminate H.
  - intros ->. destruct s; reflexivity.
Qed.

Lemma lower_char_twice c : lower_char (lower_char c) = lower_char c.
Proof.
  destruct c as [[] [] [] [] [] [] [] []]; reflexivity.
Qed.

Lemma lower_twice s : lower (lower s) = lower s.
Proof.
  induction s as [|c s IH]; simpl; [reflexivity|].
  unfold lower in *. simpl. rewrite lower_char_twice, IH. reflexivity.
Qed.

Lemma lower_upper_char c : lower_char (upper_char c) = lower_char c.
Proof.
  destruct c as [[] [] [] [] [] [] [] []]; reflexivity.
Qed.

Lemma lower_upper s : lower (upper s) = lower s.
Proof.
  induction s as [|c s IH]; simpl; [reflexivity|].
  unfold lower, upper in *. simpl. rewrite lower_upper_char, IH. reflexivity.
Qed.


Example shapes_from_strings :
  map from_string ["circle"; "Star"; "TRIANGLE"; "sQuArE"; "hexagon"; ""]
  = [inr CIRCLE; inr STAR; inr TRIANGLE; inr SQUARE; inl ValueError;
     inl ValueError].
Proof. reflexivity. Qed.

End shape_names.

(** * data/excel_logger.py: the session workbook *)
Module excel_logger.

(** A cell of a worksheet. *)
Inductive Cell :=
| Str (s : string)
| Int (n : Z)
| Num (q : Q).

Definition Row := list Cell.

(** [ExcelLogger.HEADER], lines 20-25 *)
Definition HEADER : list string :=
  ["timestamp"; "subject"; "shape"; "rep"; "status"; "video_file"; "notes";
   "exposure_us"; "gain_db"; "fps"; "offset_x"; "offset_y"; "gamma"].

(** The worksheet in memory ([None] when openpyxl is not installed) and
    the rows of the file on disk ([None] when it was never saved). *)
Record ExcelLogger := mkExcel {
  _path : string;
  _ws : option (list Row);
  on_disk : option (list Row)
}.

Inductive Error :=
| SaveError.    (* what [wb.save] raises when the file cannot be written *)

(** [__init__] and [_init_workbook], lines 27-49; the file is taken to be
    writable when the logger is made. *)
Definition __init__ (path : string) (openpyxl : bool) : ExcelLogger :=
  if openpyxl
  then mkExcel path (Some [map Str HEADER]) (Some [map Str HEADER])
  else mkExcel path None None.

(** [available], lines 88-90 *)
Definition available (self : ExcelLogger) : bool :=
  match _ws self with
  | Some _ => true
  | None => false
  end.

(** [cs.get(key, "")] on a dict given as its items. *)
Fixpoint get (cs : list (string * Cell)) (key : string) : Cell :=
  match cs with
  | [] => Str ""
  | (k, v) :: rest => if String.eqb k key then v else get rest key
  end.

(** The row of lines 71-85; [now] is the formatted time. *)
Definition trial_row (now subject shape : string) (rep : Z)
    (status video_file notes : string)
    (camera_settings : option (list (string * Cell))) : Row :=
  let cs := match camera_settings with
            | Some d => d
            | None => []
            end in
  [Str now; Str subject; Str shape; Int rep; Str status; Str video_file;
   Str notes; get cs "exposure_us"; get cs "gain_db"; get cs "fps";
   get cs "offset_x"; get cs "offset_y"; get cs "gamma"].

(** [log_trial], lines 51-86: what it raises, if anything, and the logger
    after the call. The row is appended before [wb.save] is tried. *)
Definition log_trial (now subject shape : string) (rep : Z)
    (status video_file notes : string)
    (camera_settings : option (list (string * Cell))) (writable : bool)
    (self : ExcelLogger) : option Error * ExcelLogger :=
  match _ws self with
  | None => (None, self)
  | Some rows =>
      let rows' :=
        rows ++ [trial_row now subject shape rep status video_file notes
                   camera_settings] in
      if writable
      then (None, mkExcel (_path self) (Some rows') (Some rows'))
      else (Some SaveError, mkExcel (_path self) (Some rows') (on_disk self))
  end.

(** The loggers that the constructor and [log_trial] lead to. *)
Inductive reachable : ExcelLogger -> Prop :=
| reach_init path openpyxl : reachable (__init__ path openpyxl)
| reach_log now subject shape rep status video_file notes cs writable self :
    reachable self ->
    reachable (snd (log_trial now subject shape rep status video_file notes cs
                      writable self)).

(** The rows of a list are as wide as the header, and the first is the
    header. *)
Definition aligned (rows : list Row) : Prop :=
  hd_error rows = Some (map Str HEADER)
  /\ Forall (fun r => List.length r = List.length HEADER) rows.

(** The disk is never ahead of the worksheet: what was saved is the
    worksheet as it was at the last save that succeeded. *)
Definition behind (disk ws : list Row) : Prop := exists later, ws = disk ++ later.

Lemma aligned_snoc rows r :
  aligned rows -> List.length r = List.length HEADER -> aligned (rows ++ [r]).
Proof.
  intros [Hh Hf] Hr. split.
  - destruct rows; [discriminate | exact Hh].
  - apply Forall_app. split; [exact Hf|]. constructor; [exact Hr | constructor].
Qed.

(** Whatever trials are logged, with or without camera settings and
    whether or not the saves succeed, the worksheet and the file are the
    header and then rows of 13 cells, as wide as the header; the file is
    the worksheet as it was at the last save that succeeded, so a row
    whose save failed is written by the next save that succeeds. Without
    openpyxl there is no worksheet and no file, and nothing is ever
    written. *)
Theorem workbook_stays_aligned self :
  reachable self ->
  match _ws self, on_disk self with
  | Some ws, Some disk => aligned ws /\ aligned disk /\ behind disk ws
  | None, None => available self = false
  | _, _ => False
  end.
Proof.
  induction 1 as [path [] | now subject shape rep status video_file notes cs
                             writable self Hr IH].
  - simpl. repeat split; try (repeat constructor). exists []. reflexivity.
  - reflexivity.
  - unfold log_trial.
    destruct (_ws self) as [ws|] eqn:Ews, (on_disk self) as [disk|] eqn:Ed;
      try contradiction.
    + destruct IH as (Aw & Ad & later & El).
      assert (Aw' : aligned
                      (ws ++ [trial_row now subject shape rep status video_file
                                notes cs]))
        by (apply aligned_snoc; [exact Aw | reflexivity]).
      destruct writable; simpl; rewrite ?Ed.
      * split; [exact Aw'|]. split; [exact Aw'|]. exists []. rewrite app_nil_r.
        reflexivity.
      * split; [exact Aw'|]. split; [exact Ad|].
        exists (later ++ [trial_row now subject shape rep status video_file
                            notes cs]).
        rewrite El, app_assoc. reflexivity.
    + simpl. rewrite Ews, Ed. exact IH.
Qed.

(** A trial logged after a save that failed. *)
Lemma failed_save_is_made_up :
  let self :=
    snd (log_trial "t2" "amy" "star" 1 "completed" "b.avi" "" None true
           (snd (log_trial "t1" "amy" "circle" 1 "completed" "a.avi" ""
                   (Some [("fps", Num 500); ("gamma", Int 1)]) false
                   (__init__ "session_log.xlsx" true)))) in
  reachable self
  /\ on_disk self
     = Some [map Str HEADER;
             [Str "t1"; Str "amy"; Str "circle"; Int 1; Str "completed";
              Str "a.avi"; Str ""; Str ""; Str ""; Num 500; Str ""; Str "";
              Int 1];
             [Str "t2"; Str "amy"; Str "star"; Int 1; Str "completed";
              Str "b.avi"; Str ""; Str ""; Str ""; Str ""; Str ""; Str "";
              Str ""]]
  /\ match _ws self, on_disk self with
     | Some ws, Some disk => aligned ws /\ aligned disk /\ behind disk ws
     | None, None => available self = false
     | _, _ => False
     end.
Proof.
  cbv zeta.
  assert (Hr : reachable
                 (snd (log_trial "t2" "amy" "star" 1 "completed" "b.avi" "" None
                         true
                         (snd (log_trial "t1" "amy" "circle" 1 "completed"
                                 "a.avi" ""
                                 (Some [("fps", Num 500); ("gamma", Int 1)])
                                 false (__init__ "session_log.xlsx" true)))))).
  { apply reach_log, reach_log, reach_init. }
  split; [exact Hr|]. split; [reflexivity|].
  exact (workbook_stays_aligned _ Hr).
Defined.

End excel_logger.

(** * data/main_experiment_monitor.py: one row for each session *)
Module main_experiment_monitor.

Inductive Cell :=
| Str (s : string)
| Int (n : Z).

Definition Row := list Cell.

(** [MainExperimentMonitor.HEADER], lines 20-31 *)
Definition HEADER : list string :=
  ["Date"; "Start Time"; "End Time"; "Status"; "Participant Names"; "Shapes";
   "Repetitions"; "Shape Reps Per SubSession"; "Camera Settings Summary";
   "Output Session Folder"].

Inductive LogRecord :=
| InfoSessionLogged
| WarnNoOpenpyxl
| ErrorFailed.

(** [", ".join(names)] *)
Fixpoint join (names : list string) : string :=
  match names with
  | [] => ""
  | [x] => x
  | x :: rest => x ++ ", " ++ join rest
  end.

(** The arguments of one call of [log_session], the times already
    formatted. *)
Record Session := mkSessionRow {
  date : string;
  start_time : string;
  end_time : string;
  status : string;
  participants : list string;
  shapes : list string;
  repetitions : Z;
  shape_reps_per_subsession : Z;
  camera_summary : string;
  session_folder : string
}.

(** The row of lines 67-78 *)
Definition session_row (s : Session) : Row :=
  [Str (date s); Str (start_time s); Str (end_time s); Str (status s);
   Str (join (participants s)); Str (join (shapes s)); Int (repetitions s);
   Int (shape_reps_per_subsession s); Str (camera_summary s);
   Str (session_folder s)].

(** What the machine decides at a call: whether openpyxl can be imported,
    and whether the workbook can be read and written. *)
Record Machine := mkMachine {
  openpyxl : bool;
  file_ok : bool
}.

(** [log_session], lines 36-87, on the rows of the workbook ([None] when
    the file does not exist): the file after the call and what is logged.
    No exception leaves the method. *)
Definition log_session (m : Machine) (s : Session) (file : option (list Row))
  : option (list Row) * list LogRecord :=
  if negb (openpyxl m) then (file, [WarnNoOpenpyxl])
  else if negb (file_ok m) then (file, [ErrorFailed])
  else
    let ws :=
      match file with
      | Some rows => rows
      | None => [map Str HEADER]
      end in
    (Some (ws ++ [session_row s]), [InfoSessionLogged]).

(** The calls of several sessions, one after the other. *)
Fixpoint log_sessions (calls : list (Machine * Session))
    (file : option (list Row)) : option (list Row) :=
  match calls with
  | [] => file
  | (m, s) :: rest => log_sessions rest (fst (log_session m s file))
  end.

(** The sessions whose call could write. *)
Definition written (calls : list (Machine * Session)) : list Session :=
  map snd (filter (fun c => openpyxl (fst c) && file_ok (fst c)) calls).

Lemma log_sessions_appends calls :
  forall rows,
    log_sessions calls (Some rows)
    = Some (rows ++ map session_row (written calls)).
Proof.
  induction calls as [|[m s] calls IH]; intros rows; simpl.
  - rewrite app_nil_r. reflexivity.
  - unfold log_session, written. simpl.
    destruct (openpyxl m), (file_ok m); simpl; rewrite IH; try reflexivity.
    rewrite <- app_assoc. reflexivity.
Qed.

(** The monitoring workbook is only ever appended to. Whatever sessions
    are logged, a workbook that exists keeps its rows, in place, and gains
    one row of 10 cells for each call that could write, in the order of the
    calls; a call that could not write (openpyxl missing, or the file not
    readable or writable) changes nothing and raises nothing. A workbook
    that does not exist is made by the first call that can write, with the
    header as its first row, and the header is never written again. *)
Theorem monitor_is_append_only calls file :
  log_sessions calls file
  = match file, written calls with
    | Some rows, _ => Some (rows ++ map session_row (written calls))
    | None, [] => None
    | None, _ => Some (map Str HEADER :: map session_row (written calls))
    end
  /\ Forall (fun r => List.length r = List.length HEADER)
       (map session_row (written calls)).
Proof.
  split.
  - destruct file as [rows|]; [apply log_sessions_appends|].
    induction calls as [|[m s] calls IH]; [reflexivity|].
    simpl. unfold log_session, written in *. simpl.
    destruct (openpyxl m), (file_ok m); simpl; try exact IH.
    rewrite log_sessions_appends. reflexivity.
  - apply Forall_forall. intros r Hr. apply in_map_iff in Hr.
    destruct Hr as (s & <- & _). reflexivity.
Qed.

Example two_sessions_and_a_locked_file :
  let s1 := mkSessionRow "2024-05-01" "10:00:00" "10:40:00" "completed"
              ["amy"; "bob"] ["circle"; "star"] 2 1 "exp=5000" "session_1" in
  let s2 := mkSessionRow "2024-05-02" "09:00:00" "09:10:00" "aborted"
              ["cat"] ["star"] 1 1 "exp=5000" "session_2" in
  log_sessions [(mkMachine true false, s1); (mkMachine true true, s1);
                (mkMachine false true, s2); (mkMachine true true, s2)] None
  = Some [map Str HEADER;
          [Str "2024-05-01"; Str "10:00:00"; Str "10:40:00"; Str "completed";
           Str "amy, bob"; Str "circle, star"; Int 2; Int 1; Str "exp=5000";
           Str "session_1"];
          [Str "2024-05-02"; Str "09:00:00"; Str "09:10:00"; Str "aborted";
           Str "cat"; Str "star"; Int 1; Int 1; Str "exp=5000";
           Str "session_2"]].
Proof. reflexivity. Qed.

End main_experiment_monitor.

(** * gui/panels/progress_panel.py: the label of the phase *)
Module progress_panel.
Import enums.

(** The entries of the dict display of [set_phase], lines 54-68, in the
    order they are written: the name read off [TrialPhase] and the text. *)
Definition phase_entries : list (string * string) :=
  [ ("TRAINING_SHAPE", "Training - Shape Display");
    ("TRAINING_BLANK", "Training - Blank");
    ("INSTRUCTION_CLOSE_EYES", "Instruction - Close Eyes");
    ("INSTRUCTION_WAIT", "Instruction - Waiting");
    ("INSTRUCTION_STARTING", "Instruction - Starting");
    ("INSTRUCTION_READY", "Instruction - Ready");
    ("MEASUREMENT_START_BEEP", "Measurement - Start Beep");
    ("MEASUREMENT_RECORDING_DELAY", "Measurement - Recording Delay");
    ("MEASUREMENT_IMAGINING", "Measurement - Imagining");
    ("MEASUREMENT_END_BEEP", "Measurement - End Beep");
    ("MEASUREMENT_INTER_DELAY", "Measurement - Inter-cycle Delay");
    ("INSTRUCTION_POST", "Instruction - Post");
    ("INTER_TRIAL", "Inter-trial Gap") ].

Inductive Error :=
| AttributeError (name : string).

Definition member_eqb (a b : EnumMember) : bool :=
  String.eqb (member_name a) (member_name b)
  && (member_value a =? member_value b).

(** [d[key] = value] on a dict kept in insertion order. *)
Fixpoint dict_set (d : list (EnumMember * string)) (key : EnumMember)
    (value : string) : list (EnumMember * string) :=
  match d with
  | [] => [(key, value)]
  | (k, v) :: rest =>
      if member_eqb k key then (k, value) :: rest
      else (k, v) :: dict_set rest key value
  end.

(** [d.get(key, default)] *)
Definition dict_get (d : list (EnumMember * string)) (key : EnumMember)
    (default : string) : string :=
  match find (fun kv => member_eqb (fst kv) key) d with
  | Some kv => snd kv
  | None => default
  end.

(** The dict display: the keys are evaluated one after the other, and the
    first attribute that the class does not have raises AttributeError. *)
Fixpoint build (cls : EnumClass) (entries : list (string * string))
    (d : list (EnumMember * string)) : Error + list (EnumMember * string) :=
  match entries with
  | [] => inr d
  | (name, text) :: rest =>
      match getattr cls name with
      | None => inl (AttributeError name)
      | Some m => build cls rest (dict_set d m text)
      end
  end.

(** [str(phase)] of a member of [TrialPhase] *)
Definition str (phase : EnumMember) : string :=
  "TrialPhase." ++ member_name phase.

(** The texts the panel shows: the phase label, the two bars with their
    value and format, and the status. *)
Record ProgressPanel := mkPanel {
  _phase_label : string;
  _overall_bar : Z * string;
  _turn_bar : Z * string;
  _status_label : string
}.

Definition set_phase_label (self : ProgressPanel) (text : string)
    : ProgressPanel :=
  mkPanel text (_overall_bar self) (_turn_bar self) (_status_label self).

(** [ProgressPanel.set_phase], lines 53-69, with [cls] the class that the
    name [TrialPhase] is bound to (line 9): the exception raised, if any,
    and the panel after the call. *)
Definition set_phase (cls : EnumClass) (phase : EnumMember) (remaining : Q)
    (self : ProgressPanel) : option Error * ProgressPanel :=
  match build cls phase_entries [] with
  | inl e => (Some e, self)
  | inr phase_names =>
      (None,
       set_phase_label self ("Phase: " ++ dict_get phase_names phase (str phase)))
  end.

(** [ProgressPanel.set_phase_text], lines 49-51 *)
Definition set_phase_text (self : ProgressPanel) (text : string)
    : ProgressPanel :=
  set_phase_label self ("Phase: " ++ text).

(** [ProgressPanel.reset], lines 84-90 *)
Definition reset (self : ProgressPanel) : ProgressPanel :=
  mkPanel "Phase: Idle" (0, "0/0 (0%)") (0, "0/0 shapes (0%)") "Ready".

Definition phase_keys : list string := map fst phase_entries.

Lemma getattr_defines cls name :
  defines cls name = true <-> exists m, getattr cls name = Some m.
Proof.
  unfold defines, getattr, member_names.
  induction cls as [|m cls IH]; simpl.
  - split; [discriminate | intros [m H]; discriminate].
  - rewrite (String.eqb_sym name). destruct (member_name m =? name)%string.
    + split; [intros _; exists m; reflexivity | reflexivity].
    + exact IH.
Qed.

Lemma build_raises_iff cls entries :
  forall d,
    (exists e, build cls entries d = inl e)
    <-> forallb (defines cls) (map fst entries) = false.
Proof.
  induction entries as [|[name text] rest IH]; intros d; simpl.
  - split; [intros [e H]; discriminate | discriminate].
  - destruct (getattr cls name) as [m|] eqn:G.
    + assert (D : defines cls name = true)
        by (apply getattr_defines; exists m; exact G).
      rewrite D. simpl. apply IH.
    + assert (D : defines cls name = false).
      { destruct (defines cls name) eqn:D; [| reflexivity].
        apply getattr_defines in D. destruct D as [m D]. congruence. }
      rewrite D. simpl. split; [reflexivity|].
      intros _. exists (AttributeError name). reflexivity.
Qed.

(** [set_phase] builds its table of thirteen labels on every call, before
    it looks at the phase. With the [TrialPhase] of core/enums.py the
    seventh key is missing: whatever phase is reported, also one of the six
    that the class has, the call raises AttributeError for
    MEASUREMENT_START_BEEP and the label stays as it was. For any class,
    the call raises exactly when one of the thirteen names is missing; with
    the class of thirteen names each of its phases gets its own text from
    the table. *)
Theorem set_phase_raises_with_enums_py phase remaining self :
  set_phase TrialPhase phase remaining self
  = (Some (AttributeError "MEASUREMENT_START_BEEP"), self)
  /\ (forall cls,
        fst (set_phase cls phase remaining self) = None
        <-> forallb (defines cls) phase_keys = true)
  /\ (forall cls e,
        fst (set_phase cls phase remaining self) = Some e ->
        snd (set_phase cls phase remaining self) = self)
  /\ (In phase TrialPhase_of_progress_panel ->
      exists text,
        In (member_name phase, text) phase_entries
        /\ set_phase TrialPhase_of_progress_panel phase remaining self
           = (None, set_phase_label self ("Phase: " ++ text))).
Proof.
  split; [reflexivity|]. split; [| split].
  - intros cls. unfold set_phase, phase_keys.
    pose proof (build_raises_iff cls phase_entries []) as R.
    destruct (build cls phase_entries []) as [e|d] eqn:B; cbn [fst].
    + split; [discriminate|]. intros H.
      assert (F : forallb (defines cls) (map fst phase_entries) = false)
        by (apply (proj1 R); exists e; reflexivity).
      congruence.
    + split; [| reflexivity]. intros _.
      destruct (forallb (defines cls) (map fst phase_entries)) eqn:F;
        [reflexivity|].
      destruct (proj2 R eq_refl) as [e X]. discriminate X.
  - intros cls e. unfold set_phase.
    destruct (build cls phase_entries []); cbn [fst snd];
      [reflexivity | discriminate].
  - intros H. cbn in H.
    repeat (destruct H as [<- | H];
            [eexists; split; [| reflexivity]; cbn; tauto|]).
    destruct H.
Qed.

End progress_panel.

(** * audio/__init__.py: the choice of the output device *)
Module audio.

(** An entry of [sd.query_devices()]. *)
Record Device := mkDevice { name : string; max_output_channels : Z }.

(** What [sounddevice] reports on this machine: the index of the default
    output device, [sd.default.device[1]], and the devices. *)
Record SoundDevice := mkSoundDevice {
  default_output : Z;
  query_devices : list Device
}.

(** [sd.query_devices(idx)] for an index that is not negative; [None]
    where the library raises. *)
Definition query_device (sd : SoundDevice) (idx : Z) : option Device :=
  nth_error (query_devices sd) (Z.to_nat idx).

(** Lines 32 and 62 *)
Definition _LEGACY : list string :=
  ["Microsoft Sound Mapper"; "Primary Sound Driver"].

(** [leg in name] on strings *)
Definition contains (leg name : string) : bool :=
  match index 0 leg name with
  | Some _ => true
  | None => false
  end.

(** [any(leg in name for leg in _LEGACY)] *)
Definition is_legacy (name : string) : bool :=
  existsb (fun leg => contains leg name) _LEGACY.

(** The three entries of [prefs.hardware] that the module writes. *)
Record Prefs := mkPrefs {
  audioLib : list string;
  audioLatencyMode : Z;
  audioDevice : list string
}.

(** [psychopy.prefs] and the global [_configured_device]. *)
Record State := mkState { prefs : Prefs; _configured_device : option string }.

Definition set_device (p : Prefs) (n : string) : State :=
  mkState (mkPrefs (audioLib p) (audioLatencyMode p) [n]) (Some n).

(** A device that the loop of lines 44-49 takes. *)
Definition real_output (d : Device) : bool :=
  (0 <? max_output_channels d) && negb (is_legacy (name d)).

(** [configure_audio], lines 11-53. [psychopy] tells whether
    [from psychopy import prefs] succeeds, and [sd] is [None] when
    [import sounddevice] raises. *)
Definition configure_audio (psychopy : bool) (sd : option SoundDevice)
    (device_name : string) (st : State) : State :=
  if negb psychopy then st
  else
    let p := mkPrefs ["ptb"; "sounddevice"; "pygame"] 3 (audioDevice (prefs st)) in
    if negb (String.eqb device_name "") then set_device p device_name
    else
      let unchanged := mkState p (_configured_device st) in
      match sd with
      | None => unchanged
      | Some sd =>
          let search :=
            match find real_output (query_devices sd) with
            | Some d => set_device p (name d)
            | None => unchanged
            end in
          if 0 <=? default_output sd then
            match query_device sd (default_output sd) with
            | None => unchanged
            | Some d =>
                if negb (is_legacy (name d)) then set_device p (name d)
                else search
            end
          else search
      end.

(** The loop of lines 68-73, from the lists [output_devices] and [seen]. *)
Fixpoint collect (devices : list Device) (output_devices seen : list string)
    : list string :=
  match devices with
  | [] => output_devices
  | d :: rest =>
      if 0 <? max_output_channels d then
        if negb (existsb (String.eqb (name d)) seen) && negb (is_legacy (name d))
        then collect rest (output_devices ++ [name d]) (name d :: seen)
        else collect rest output_devices seen
      else collect rest output_devices seen
  end.

(** [list_audio_devices], lines 56-76 *)
Definition list_audio_devices (sd : option SoundDevice) : list string :=
  match sd with
  | Some sd => collect (query_devices sd) [] []
  | None => []
  end.

Definition devices_of (sd : option SoundDevice) : list Device :=
  match sd with
  | Some sd => query_devices sd
  | None => []
  end.

Lemma seen_spec n seen : existsb (String.eqb n) seen = true <-> In n seen.
Proof.
  rewrite existsb_exists. split.
  - intros (x & Hx & E). apply String.eqb_eq in E. subst. exact Hx.
  - intros H. exists n. split; [exact H | apply String.eqb_refl].
Qed.

Lemma collect_spec devices :
  forall out seen,
    NoDup out -> (forall n, In n seen <-> In n out) ->
    NoDup (collect devices out seen)
    /\ (forall n,
          In n (collect devices out seen)
          <-> In n out
              \/ exists d, In d devices /\ name d = n /\ real_output d = true)
    /\ exists more, collect devices out seen = out ++ more.
Proof.
  induction devices as [|d rest IH]; intros out seen ND HS; simpl.
  - split; [exact ND|]. split.
    + intros n. split; [auto|]. intros [H | (d & [] & _)]. exact H.
    + exists []. rewrite app_nil_r. reflexivity.
  - assert (Skip : real_output d = false \/ In (name d) out ->
             NoDup (collect rest out seen)
             /\ (forall n,
                   In n (collect rest out seen)
                   <-> In n out
                       \/ exists d0, (d = d0 \/ In d0 rest) /\ name d0 = n
                                     /\ real_output d0 = true)
             /\ exists more, collect rest out seen = out ++ more).
    { intros Hd. destruct (IH out seen ND HS) as (N & I & P).
      split; [exact N|]. split; [| exact P].
      intros n. rewrite I. split.
      - intros [H | (d0 & H0 & H1 & H2)]; [auto|]. right. exists d0. auto.
      - intros [H | (d0 & [<- | H0] & H1 & H2)]; [auto | | right; exists d0; auto].
        destruct Hd as [Hd | Hd]; [congruence|]. left. subst n. exact Hd. }
    unfold real_output in Skip.
    destruct (0 <? max_output_channels d) eqn:C; [| apply Skip; left; reflexivity].
    destruct (existsb (String.eqb (name d)) seen) eqn:S.
    { apply Skip. right. apply HS, seen_spec. exact S. }
    destruct (is_legacy (name d)) eqn:L; simpl.
    { apply Skip. left. reflexivity. }
    assert (NI : ~ In (name d) out).
    { intros H. apply HS, seen_spec in H. congruence. }
    destruct (IH (out ++ [name d]) (name d :: seen)) as (N & I & (more & P)).
    + apply NoDup_app; [exact ND | repeat constructor; intros [] |].
      intros x Hx [<- | []]. exact (NI Hx).
    + intros n. simpl. rewrite in_app_iff, HS. simpl. tauto.
    + split; [exact N|]. split.
      * intros n. rewrite I, in_app_iff. simpl. split.
        -- intros [[H | [<- | []]] | (d0 & H0 & H1 & H2)]; [auto | |].
           ++ right. exists d. unfold real_output. rewrite C, L. auto.
           ++ right. exists d0. auto.
        -- intros [H | (d0 & [<- | H0] & H1 & H2)]; [auto | |].
           ++ left. right. left. exact H1.
           ++ right. exists d0. auto.
      * exists (name d :: more). rewrite P, <- app_assoc. reflexivity.
Qed.

Lemma collect_first devices :
  hd_error (collect devices [] []) = option_map name (find real_output devices).
Proof.
  induction devices as [|d rest IH]; [reflexivity|].
  simpl. unfold real_output at 1.
  destruct (0 <? max_output_channels d); [| exact IH].
  destruct (is_legacy (name d)); simpl; [exact IH|].
  destruct (collect_spec rest [name d] [name d]) as (_ & _ & (more & P)).
  - repeat constructor. intros [].
  - intros n. tauto.
  - rewrite P. reflexivity.
Qed.

(** [list_audio_devices] gives every output device that is not a legacy
    device of Windows, by its name, and each name once; there is nothing
    else in the list, which is empty when [sounddevice] cannot be
    imported. *)
Theorem list_audio_devices_are_the_real_outputs sd :
  NoDup (list_audio_devices sd)
  /\ (forall n,
        In n (list_audio_devices sd)
        <-> exists d,
              In d (devices_of sd) /\ name d = n
              /\ 0 < max_output_channels d /\ is_legacy n = false).
Proof.
  destruct sd as [sd|]; simpl.
  - destruct (collect_spec (query_devices sd) [] []) as (N & I & _).
    + constructor.
    + intros n. tauto.
    + split; [exact N|]. intros n. rewrite I. unfold real_output. split.
      * intros [[] | (d & H0 & H1 & H2)]. exists d.
        apply andb_prop in H2. destruct H2 as [H2 H3].
        apply Z.ltb_lt in H2. apply negb_true_iff in H3. subst n. auto.
      * intros (d & H0 & H1 & H2 & H3). right. exists d.
        subst n. rewrite H3. apply Z.ltb_lt in H2. rewrite H2. auto.
  - split; [constructor|]. intros n. split; [intros [] | intros (d & [] & _)].
Qed.

(** Left to itself, [configure_audio] never takes a legacy device: called
    with no device name, it either leaves the device as it was or sets it
    to a name that holds none of the legacy names. When the default
    output is missing or is a legacy device, the device set is the first
    of [list_audio_devices], and nothing is set when that list is empty.
    A default index that [sounddevice] does not know also leaves the device
    as it was, whatever the other devices are. A name given by the caller
    is taken as it is, and without PsychoPy nothing changes at all. *)
Theorem configure_audio_takes_no_legacy_device psychopy sd device_name st :
  let st' := configure_audio psychopy sd device_name st in
  let kept :=
    _configured_device st' = _configured_device st
    /\ audioDevice (prefs st') = audioDevice (prefs st) in
  let set n :=
    _configured_device st' = Some n /\ audioDevice (prefs st') = [n] in
  (psychopy = false -> st' = st)
  /\ (psychopy = true ->
      audioLib (prefs st') = ["ptb"; "sounddevice"; "pygame"]
      /\ audioLatencyMode (prefs st') = 3
      /\ (device_name <> "" -> set device_name)
      /\ (device_name = "" ->
          (kept \/ exists n, set n /\ is_legacy n = false)
          /\ (forall s, sd = Some s ->
              (default_output s < 0
               \/ exists d, query_device s (default_output s) = Some d
                            /\ is_legacy (name d) = true) ->
              match list_audio_devices sd with
              | n :: _ => set n
              | [] => kept
              end)
          /\ (forall s, sd = Some s ->
              0 <= default_output s ->
              query_device s (default_output s) = None -> kept))).
Proof.
  cbv zeta. unfold configure_audio. destruct psychopy; simpl negb; cbv iota.
  2: { split; [reflexivity | discriminate]. }
  split; [discriminate|]. intros _.
  destruct (String.eqb device_name "") eqn:En; simpl negb; cbv iota.
  - apply String.eqb_eq in En. subst device_name.
    assert (F : forall s,
              match find real_output (query_devices s) with
              | Some d => is_legacy (name d) = false
              | None => True
              end).
    { intros s. destruct (find real_output (query_devices s)) as [d|] eqn:Fd;
        [| exact I].
      apply find_some in Fd. destruct Fd as [_ Fd]. unfold real_output in Fd.
      apply andb_prop in Fd. destruct Fd as [_ Fd].
      apply negb_true_iff in Fd. exact Fd. }
    destruct sd as [s|].
    + specialize (F s). cbv zeta.
      pose proof (collect_first (query_devices s)) as Hd.
      destruct (0 <=? default_output s) eqn:D0.
      * destruct (query_device s (default_output s)) as [d|] eqn:Q.
        -- destruct (is_legacy (name d)) eqn:L; simpl negb; cbv iota.
           ++ destruct (find real_output (query_devices s)) as [d'|] eqn:Fd;
                simpl; (split; [reflexivity|]); (split; [reflexivity|]);
                (split; [intros H; destruct (H eq_refl)|]); intros _.
              ** split; [right; exists (name d'); auto|]. split.
                 --- intros s0 E _. injection E as <-.
                     destruct (collect (query_devices s) [] []) as [|n l];
                       [discriminate Hd|].
                     simpl in Hd. injection Hd as ->. auto.
                 --- intros s0 E _ Q0. injection E as <-. congruence.
              ** split; [left; auto|]. split.
                 --- intros s0 E _. injection E as <-.
                     destruct (collect (query_devices s) [] []) as [|n l];
                       [auto | discriminate Hd].
                 --- intros; auto.
           ++ simpl. split; [reflexivity|]. split; [reflexivity|].
              split; [intros H; destruct (H eq_refl)|]. intros _.
              split; [right; exists (name d); auto|]. split.
              ** intros s0 E [H | (d0 & Q0 & L0)]; injection E as <-.
                 --- apply Z.leb_le in D0. lia.
                 --- congruence.
              ** intros s0 E _ Q0. injection E as <-. congruence.
        -- simpl. split; [reflexivity|]. split; [reflexivity|].
           split; [intros H; destruct (H eq_refl)|]. intros _.
           split; [left; auto|]. split.
           ++ intros s0 E [H | (d0 & Q0 & L0)]; injection E as <-.
              ** apply Z.leb_le in D0. lia.
              ** congruence.
           ++ intros; auto.
      * apply Z.leb_gt in D0.
        destruct (find real_output (query_devices s)) as [d'|] eqn:Fd;
          simpl; (split; [reflexivity|]); (split; [reflexivity|]);
          (split; [intros H; destruct (H eq_refl)|]); intros _.
        -- split; [right; exists (name d'); auto|]. split.
           ++ intros s0 E _. injection E as <-.
              destruct (collect (query_devices s) [] []) as [|n l];
                [discriminate Hd|].
              simpl in Hd. injection Hd as ->. auto.
           ++ intros s0 E D1. injection E as <-. lia.
        -- split; [left; auto|]. split.
           ++ intros s0 E _. injection E as <-.
              destruct (collect (query_devices s) [] []) as [|n l];
                [auto | discriminate Hd].
           ++ intros; auto.
    + simpl. split; [reflexivity|]. split; [reflexivity|].
      split; [intros H; destruct (H eq_refl)|]. intros _.
      split; [left; auto|]. split; intros s0 E; discriminate E.
  - apply String.eqb_neq in En. simpl.
    split; [reflexivity|]. split; [reflexivity|].
    split; [auto|]. intros E. destruct (En E).
Qed.

(** A machine whose default output is the Sound Mapper of Windows: the
    speakers are taken, the first of the two real outputs. *)
Example the_sound_mapper_is_passed_over :
  let sd :=
    Some (mkSoundDevice 0
            [ mkDevice "Microsoft Sound Mapper - Output" 2;
              mkDevice "Microphone (USB)" 0;
              mkDevice "Speakers (Realtek)" 2;
              mkDevice "Primary Sound Driver" 2;
              mkDevice "Speakers (Realtek)" 8;
              mkDevice "HDMI (NVIDIA)" 2 ]) in
  list_audio_devices sd = ["Speakers (Realtek)"; "HDMI (NVIDIA)"]
  /\ _configured_device
       (configure_audio true sd "" (mkState (mkPrefs [] 0 []) None))
     = Some "Speakers (Realtek)".
Proof. vm_compute. split; reflexivity. Qed.

End audio.

(** * gui/main_window.py: the estimated length of a trial *)
Module estimate.
Import enums trial_protocol schedule.

Local Open Scope Q_scope.

(** [max(0, n)] on integers. *)
Definition max0 (n : Z) : Z := Z.max 0 n.

(** [MainWindow._estimate_per_trial_sec], lines 190-238, on the timing and
    audio settings of the configuration. *)
Definition _estimate_per_trial_sec (t : TimingSettings) (a : AudioSettings) : Q :=
  let frame_dur := 1 / 60 in
  let training :=
    inject_Z (training_repetitions t)
    * (training_shape_duration t + end_imagine_duration a
       + training_blank_duration t + frame_dur) in
  let instruction := 5 + 2 in
  let camera_overhead_per_cycle := 5 # 100 in
  let measurement :=
    inject_Z (imagination_cycles t)
    * (imagination_duration t + end_imagine_duration a + 2 * frame_dur
       + camera_overhead_per_cycle)
    + inject_Z (max0 (imagination_cycles t - 1)) * inter_imagination_delay t in
  let post := 5 in
  training + training_to_measurement_delay t + instruction + measurement + post.

(** On a 60 Hz window, [d] seconds are a whole number of frames and
    [duration_to_frames] gives that number. *)
Definition on_grid (win : StimulusWindow) (d : Q) : Prop :=
  inject_Z (duration_to_frames win d) * (1 # 60) == d.

(** The settings are all on the grid of a 60 Hz window. *)
Definition settings_on_grid (t : TimingSettings) (a : AudioSettings)
    (win : StimulusWindow) : Prop :=
  on_grid win (training_shape_duration t)
  /\ on_grid win (training_blank_duration t)
  /\ on_grid win (start_imagine_duration a)
  /\ on_grid win (end_imagine_duration a)
  /\ on_grid win (recording_delay t)
  /\ on_grid win (imagination_duration t)
  /\ on_grid win (inter_imagination_delay t)
  /\ on_grid win 5 /\ on_grid win 2
  /\ 0 <= training_to_measurement_delay t
  /\ (0 < training_to_measurement_delay t ->
      on_grid win (training_to_measurement_delay t)).

Lemma inject_Z_sub a b : inject_Z (a - b) == inject_Z a - inject_Z b.
Proof.
  unfold Z.sub. rewrite inject_Z_plus, inject_Z_opp. reflexivity.
Qed.

(** What the constructor stores. *)
Lemma init_fields t a win :
  let p := fst (__init__ t a win) in
  _timing p = t
  /\ _n_shape p = duration_to_frames win (training_shape_duration t)
  /\ _n_blank p = duration_to_frames win (training_blank_duration t)
  /\ _n_start_beep p = duration_to_frames win (start_imagine_duration a)
  /\ _n_end_beep p = duration_to_frames win (end_imagine_duration a)
  /\ _n_recording_delay p = duration_to_frames win (recording_delay t)
  /\ _n_imagination p = duration_to_frames win (imagination_duration t)
  /\ _n_inter_delay p = duration_to_frames win (inter_imagination_delay t)
  /\ _n_close_eyes_wait p = duration_to_frames win 5
  /\ _n_starting_wait p = duration_to_frames win 2
  /\ _n_recording_frames p
     = (if (_n_imagination p - _n_start_beep p - _n_recording_delay p <? 1)%Z
        then 1%Z
        else (_n_imagination p - _n_start_beep p - _n_recording_delay p)%Z)
  /\ _n_train_to_meas_delay p
     = (if fgt (training_to_measurement_delay t) 0
        then duration_to_frames win (training_to_measurement_delay t)
        else 0%Z).
Proof.
  unfold __init__.
  destruct (duration_to_frames win (imagination_duration t)
            - duration_to_frames win (start_imagine_duration a)
            - duration_to_frames win (recording_delay t) <? 1)%Z eqn:C;
    cbn; rewrite C; repeat split.
Qed.

(** [ExperimentSettingsDialog._show_estimated_duration], lines 438-466 of
    gui/dialogs/experiment_settings_dialog.py: the local [per_trial], on the
    values of the widgets, which are the values that [apply_to_config]
    (lines 535-545) writes into the timing and audio settings. *)
Definition per_trial (t : TimingSettings) (a : AudioSettings) : Q :=
  let training_phase :=
    inject_Z (training_repetitions t)
    * (training_shape_duration t + end_imagine_duration a
       + training_blank_duration t) in
  let instruction_seq := 5 + 2 in
  let measurement_phase :=
    inject_Z (imagination_cycles t) * imagination_duration t
    + inject_Z (imagination_cycles t) * end_imagine_duration a
    + inject_Z (max0 (imagination_cycles t - 1)) * inter_imagination_delay t in
  let post_instruction := 5 in
  training_phase + training_to_measurement_delay t + instruction_seq
  + measurement_phase + post_instruction.

(** The time of the frames of a completed run, in the settings: the
    durations of the training, of the delay and of the two instruction
    waits, and for each cycle the imagination, the end beep and one frame
    more, the flip that stops the end beep. *)
Lemma frame_time_of_completed_run cls t a win env args st st' new :
  let p := fst (__init__ t a win) in
  settings_on_grid t a win ->
  whole_counts p ->
  (1 <= _n_imagination p - _n_start_beep p - _n_recording_delay p)%Z ->
  run cls p env args st = (Return true, st') ->
  trace st' = trace st ++ new ->
  inject_Z (Z.of_nat (frame_count (timeline new))) * (1 # 60)
  == inject_Z (training_repetitions t)
     * (training_shape_duration t + end_imagine_duration a
        + training_blank_duration t)
     + training_to_measurement_delay t + (5 + 2)
     + inject_Z (imagination_cycles t)
       * (imagination_duration t + end_imagine_duration a + (1 # 60))
     + inject_Z (max0 (imagination_cycles t - 1)) * inter_imagination_delay t.
Proof.
  intros p G W U E Et.
  destruct (completed_run_on_schedule cls p env args st st' new E Et) as [-> _].
  rewrite (frames_of_completed_timeline p env args (n_stops st) W).
  destruct G as (G1 & G2 & G3 & G4 & G5 & G6 & G7 & G8 & G9 & G10 & G11).
  destruct W as (_ & _ & _ & _ & _ & _ & _ & _ & _ & _ & WR & WC).
  unfold trial_frames, max0.
  destruct (init_fields t a win)
    as (P10 & P1 & P2 & P3 & P4 & P5 & P6 & P7 & P8 & P9 & Pf & Pd).
  fold p in P10, P1, P2, P3, P4, P5, P6, P7, P8, P9, Pf, Pd.
  assert (Ef : _n_recording_frames p
               = (_n_imagination p - _n_start_beep p - _n_recording_delay p)%Z).
  { rewrite Pf.
    destruct (_n_imagination p - _n_start_beep p - _n_recording_delay p <? 1)%Z
      eqn:C; [apply Z.ltb_lt in C; lia | reflexivity]. }
  rewrite Ef.
  assert (Ed : inject_Z (_n_train_to_meas_delay p) * (1 # 60)
               == training_to_measurement_delay t).
  { rewrite Pd. destruct (fgt (training_to_measurement_delay t) 0) eqn:F.
    - apply G11. unfold fgt in F. apply negb_true_iff in F.
      apply Qnot_le_lt. intros L. apply Qle_bool_iff in L. congruence.
    - unfold fgt in F. apply negb_false_iff, Qle_bool_iff in F.
      change (inject_Z 0) with 0. lra. }
  rewrite P10 in *. rewrite Z.max_r by lia.
  unfold on_grid in *.
  rewrite <- P1 in G1. rewrite <- P2 in G2. rewrite <- P3 in G3.
  rewrite <- P4 in G4. rewrite <- P5 in G5. rewrite <- P6 in G6.
  rewrite <- P7 in G7. rewrite <- P8 in G8. rewrite <- P9 in G9.
  rewrite <- G1, <- G2, <- G4, <- G6, <- G7, <- Ed.
  clear G1 G2 G4 G6 G7 Ed G10 G11.
  rewrite !inject_Z_plus, !inject_Z_mult, !inject_Z_sub, !inject_Z_plus.
  setoid_replace (5 + 2)
    with (inject_Z (_n_close_eyes_wait p) * (1 # 60)
          + inject_Z (_n_starting_wait p) * (1 # 60))
    by (rewrite G8, G9; reflexivity).
  assert (S3 : inject_Z (_n_start_beep p) * (1 # 60)
               == start_imagine_duration a) by exact G3.
  assert (S5 : inject_Z (_n_recording_delay p) * (1 # 60)
               == recording_delay t) by exact G5.
  change (inject_Z 1) with 1.
  rewrite !inject_Z_sub. field.
Qed.



End estimate.

Module estimate_trials.
Import enums trial_protocol scenario schedule estimate.

(** A trial on a 60 Hz window: two training flashes of 1 s with 0.5 s of
    blank, two imagination cycles of 3 s with a 1 s recording delay and 1 s
    between them, beeps of 0.5 s. *)
Definition timing60 : TimingSettings := mkTiming 1 (1 # 2) 2 0 1 3 1 2.
Definition audio60 : AudioSettings := mkAudio (1 # 2) (1 # 2).
Definition protocol60 : TrialProtocol :=
  fst (__init__ timing60 audio60 (window_at 60)).



End estimate_trials.
